(** * evalml: pipelines, components and objectives

    A shallow embedding of
      - [evalml/pipelines/components/component_base.py]  (module [ComponentBase]),
      - [evalml/objectives/standard_metrics.py]          (module [standard_metrics]),
      - [evalml/pipelines/pipeline_base.py]              (module [PipelineBase]).

    Python objects are records; a method that mutates [self] takes the old
    object and returns the new one; a raised exception is a value of
    [result].  The wrapped machine-learning library (sklearn) is not part of
    the repository: its estimators, transformers and metric functions are
    arbitrary functions held in the records that wrap them. *)

From Stdlib Require Import String List ZArith Bool Arith Lia.
From Stdlib Require Import Permutation Sorted DecimalString.
From Stdlib Require Import QArith Qabs Lqa.
Close Scope Q_scope.
Import ListNotations.
Local Open Scope string_scope.
Local Open Scope list_scope.

(** ** Exceptions and results *)

(** The exception classes the code names, and [OtherError] for any other class
    (whatever the wrapped library raises).  [AttributeError] stands for the
    class and its subclasses: that is what [except AttributeError] matches. *)
Inductive exn : Type :=
| ValueError (msg : string)
| RuntimeError (msg : string)
| AttributeError (msg : string)
| IndexError (msg : string)
| OtherError (msg : string).

Inductive result (A : Type) : Type :=
| Ok (a : A)
| Raise (e : exn).
Arguments Ok {A} a.
Arguments Raise {A} e.

Definition is_AttributeError (e : exn) : bool :=
  match e with AttributeError _ => true | _ => false end.

Definition result_bind {A B} (r : result A) (k : A -> result B) : result B :=
  match r with Ok a => k a | Raise e => Raise e end.

(** A list comprehension [[f(x) for x in l]] whose [f] may raise: the first
    exception ends it. *)
Fixpoint mapM {A B} (f : A -> result B) (l : list A) : result (list B) :=
  match l with
  | [] => Ok []
  | x :: l' =>
      result_bind (f x) (fun b =>
      result_bind (mapM f l') (fun bs => Ok (b :: bs)))
  end.

(** [l[-1]] *)
Definition index_last {A} (l : list A) : result A :=
  match rev l with
  | [] => Raise (IndexError "list index out of range")
  | x :: _ => Ok x
  end.

(** [l[0]] *)
Definition index_first {A} (l : list A) : result A :=
  match l with
  | [] => Raise (IndexError "list index out of range")
  | x :: _ => Ok x
  end.

(** [l[i] = x] for an index in range (the list is left alone otherwise). *)
Fixpoint list_set {A} (l : list A) (i : nat) (x : A) : list A :=
  match l, i with
  | [], _ => []
  | _ :: l', O => x :: l'
  | a :: l', S i' => a :: list_set l' i' x
  end.

(** ** Insertion-ordered dictionaries with string keys

    Both [dict] and [OrderedDict] keep insertion order; assigning to a key
    that is present replaces its value and keeps its place. *)
Section Dict.
Variable V : Type.

Definition odict : Type := list (string * V).

Fixpoint od_set (d : odict) (k : string) (v : V) : odict :=
  match d with
  | [] => [(k, v)]
  | (k', v') :: d' =>
      if String.eqb k' k then (k', v) :: d' else (k', v') :: od_set d' k v
  end.

Fixpoint od_get (d : odict) (k : string) : option V :=
  match d with
  | [] => None
  | (k', v') :: d' => if String.eqb k' k then Some v' else od_get d' k
  end.

(** [d.update(other)] *)
Definition od_update (d other : odict) : odict :=
  fold_left (fun acc kv => od_set acc (fst kv) (snd kv)) other d.

(** [OrderedDict(items)] *)
Definition OrderedDict (items : list (string * V)) : odict :=
  od_update [] items.
End Dict.
Arguments od_set {V} d k v.
Arguments od_get {V} d k.
Arguments od_update {V} d other.
Arguments OrderedDict {V} items.

(** [k in args] for a collection of names. *)
Definition name_in (k : string) (names : list string) : bool :=
  existsb (String.eqb k) names.

(** ** Tabular data

    [X] is a [pd.DataFrame] or a two-dimensional [np.array]; [y] is a
    [pd.Series] or any other sequence; predictions are one- or
    two-dimensional arrays.  The cells are never inspected by the code. *)
Inductive label : Type :=
| LInt (n : nat)
| LStr (s : string).

Section Data.
Variable scalar : Type.

Inductive table : Type :=
| DataFrame (columns : list label) (rows : list (list scalar))
| ndarray2 (ncols : nat) (rows : list (list scalar)).

Inductive target : Type :=
| Series (values : list scalar)
| sequence (values : list scalar).

Inductive ndarray : Type :=
| Arr1 (values : list scalar)
| Arr2 (ncols : nat) (rows : list (list scalar)).

(** [isinstance(X, pd.DataFrame)] *)
Definition isinstance_DataFrame (X : table) : bool :=
  match X with DataFrame _ _ => true | ndarray2 _ _ => false end.

(** [pd.DataFrame(X)]: an array gets the column labels [0 .. ncols-1]. *)
Definition pd_DataFrame (X : table) : table :=
  match X with
  | DataFrame c r => DataFrame c r
  | ndarray2 n r => DataFrame (map LInt (seq 0 n)) r
  end.

(** [list(df)]: the column labels of a frame. *)
Definition columns_of (X : table) : list label :=
  match X with
  | DataFrame c _ => c
  | ndarray2 n _ => map LInt (seq 0 n)
  end.

(** [isinstance(y, pd.Series)] *)
Definition isinstance_Series (y : target) : bool :=
  match y with Series _ => true | sequence _ => false end.

(** [pd.Series(y)] *)
Definition pd_Series (y : target) : target :=
  match y with Series v => Series v | sequence v => Series v end.

(** [proba.shape[1]]: the shape of a one-dimensional array is a 1-tuple. *)
Definition shape1 (a : ndarray) : result nat :=
  match a with
  | Arr1 _ => Raise (IndexError "tuple index out of range")
  | Arr2 n _ => Ok n
  end.

(** The entries at position 1 of the rows. *)
Definition second_column (rows : list (list scalar)) : list scalar :=
  flat_map (fun r => match nth_error r 1 with
                     | Some v => [v]
                     | None => []
                     end) rows.

(** [proba[:, 1]] *)
Definition column1 (a : ndarray) : result ndarray :=
  match a with
  | Arr1 _ => Raise (IndexError "too many indices for array")
  | Arr2 n rows =>
      if (1 <? n)%nat
      then Ok (Arr1 (second_column rows))
      else Raise (IndexError "index 1 is out of bounds for axis 1")
  end.
End Data.
Arguments DataFrame {scalar} columns rows.
Arguments ndarray2 {scalar} ncols rows.
Arguments Series {scalar} values.
Arguments sequence {scalar} values.
Arguments Arr1 {scalar} values.
Arguments Arr2 {scalar} ncols rows.
Arguments isinstance_DataFrame {scalar} X.
Arguments pd_DataFrame {scalar} X.
Arguments columns_of {scalar} X.
Arguments isinstance_Series {scalar} y.
Arguments pd_Series {scalar} y.
Arguments shape1 {scalar} a.
Arguments column1 {scalar} a.
Arguments second_column {scalar} rows.

(** ** component_base.py *)
Module ComponentBase.
Section ComponentBase.
Variables scalar fitted pyval : Type.

(** The object of the wrapped library held in [_component_obj]: its state
    and its [fit] attribute, when it has one.  A call returns a value (or
    raises) and leaves the object in a new state. *)
Record library_object : Type := {
  obj_state : fitted;
  obj_fit : option (fitted -> table scalar -> target scalar -> result pyval * fitted)
}.

(** The attributes [__init__] stores; [_component_obj] defaults to [None]. *)
Record t : Type := {
  name : string;
  component_type : string;
  random_state : pyval;
  _needs_fitting : bool;
  _component_obj : option library_object;
  parameters : odict pyval
}.

Definition set_component_obj (self : t) (o : library_object) : t :=
  {| name := name self;
     component_type := component_type self;
     random_state := random_state self;
     _needs_fitting := _needs_fitting self;
     _component_obj := Some o;
     parameters := parameters self |}.

Definition no_fit_message : string :=
  "Component requires a fit method or a component_obj that implements fit".

(** [self._component_obj.fit(X, y)]: looking [fit] up on [None] or on an
    object without the attribute raises [AttributeError]. *)
Definition call_component_obj_fit (self : t) (X : table scalar) (y : target scalar)
  : result pyval * t :=
  match _component_obj self with
  | None => (Raise (AttributeError "'NoneType' object has no attribute 'fit'"), self)
  | Some o =>
      match obj_fit o with
      | None => (Raise (AttributeError "object has no attribute 'fit'"), self)
      | Some f =>
          let (r, st) := f (obj_state o) X y in
          (r, set_component_obj self {| obj_state := st; obj_fit := obj_fit o |})
      end
  end.

(** [try: return self._component_obj.fit(X, y)]
    [except AttributeError: raise RuntimeError(...)] *)
Definition fit (self : t) (X : table scalar) (y : target scalar) : result pyval * t :=
  let (r, self') := call_component_obj_fit self X y in
  match r with
  | Ok v => (Ok v, self')
  | Raise e =>
      if is_AttributeError e
      then (Raise (RuntimeError no_fit_message), self')
      else (Raise e, self')
  end.

(** The wrapped object has a [fit] method. *)
Definition has_fit (self : t) : bool :=
  match _component_obj self with
  | Some o => match obj_fit o with Some _ => true | None => false end
  | None => false
  end.

(** What the wrapped object's own [fit] returns or raises on [(X, y)], when
    there is one. *)
Definition wrapped_fit (self : t) (X : table scalar) (y : target scalar)
  : option (result pyval) :=
  match _component_obj self with
  | Some o => match obj_fit o with
              | Some f => Some (fst (f (obj_state o) X y))
              | None => None
              end
  | None => None
  end.

(** *** Properties of [fit] *)

Lemma fit_without_fit_method (self : t) X y :
  has_fit self = false ->
  fit self X y = (Raise (RuntimeError no_fit_message), self).
Proof.
  unfold has_fit, fit, call_component_obj_fit.
  destruct (_component_obj self) as [o|]; [|reflexivity].
  destruct (obj_fit o); [discriminate|reflexivity].
Qed.

Lemma fit_with_fit_method (self : t) X y r :
  wrapped_fit self X y = Some r ->
  fst (fit self X y) =
  match r with
  | Ok v => Ok v
  | Raise e => if is_AttributeError e then Raise (RuntimeError no_fit_message) else Raise e
  end.
Proof.
  unfold wrapped_fit, fit, call_component_obj_fit.
  destruct (_component_obj self) as [o|]; [|discriminate].
  destruct (obj_fit o) as [f|]; [|discriminate].
  destruct (f (obj_state o) X y) as [r' st]; simpl.
  intros H; injection H as <-.
  destruct r' as [v|e]; [reflexivity|].
  destruct (is_AttributeError e); reflexivity.
Qed.

Lemma has_fit_wrapped_fit (self : t) X y :
  has_fit self = true <-> exists r, wrapped_fit self X y = Some r.
Proof.
  unfold has_fit, wrapped_fit.
  destruct (_component_obj self) as [o|].
  - destruct (obj_fit o) as [f|]; split; intros H; try discriminate; eauto.
    destruct H as [r H]; discriminate.
  - split; intros H; [discriminate|]. destruct H as [r H]; discriminate.
Qed.

(** What [fit] does on every path: it returns what the wrapped object's
    [fit] returns; it raises the misconfigured-component [RuntimeError] when
    the wrapped object has no [fit] method, and also when the wrapped [fit]
    itself raises an [AttributeError], the [try] enclosing the whole call;
    every exception of the wrapped [fit] other than an [AttributeError] is
    propagated unchanged.  The [RuntimeError] with this message arises in
    these cases only (or when the wrapped [fit] raises that very
    exception). *)
Theorem fit_delegates_and_translates_AttributeError (self : t) X y :
  (forall v, wrapped_fit self X y = Some (Ok v) -> fst (fit self X y) = Ok v) /\
  (has_fit self = false -> fst (fit self X y) = Raise (RuntimeError no_fit_message)) /\
  (forall m, wrapped_fit self X y = Some (Raise (AttributeError m)) ->
             fst (fit self X y) = Raise (RuntimeError no_fit_message)) /\
  (forall e, wrapped_fit self X y = Some (Raise e) -> is_AttributeError e = false ->
             fst (fit self X y) = Raise e) /\
  (fst (fit self X y) = Raise (RuntimeError no_fit_message) <->
   has_fit self = false \/
   (exists m, wrapped_fit self X y = Some (Raise (AttributeError m))) \/
   wrapped_fit self X y = Some (Raise (RuntimeError no_fit_message))).
Proof.
  repeat split.
  - intros v H. now rewrite (fit_with_fit_method _ _ _ _ H).
  - intros H. now rewrite fit_without_fit_method.
  - intros m H. now rewrite (fit_with_fit_method _ _ _ _ H).
  - intros e H He. rewrite (fit_with_fit_method _ _ _ _ H). now rewrite He.
  - intros H. destruct (has_fit self) eqn:Hf; [right|now left].
    apply (has_fit_wrapped_fit self X y) in Hf. destruct Hf as [r Hr].
    rewrite (fit_with_fit_method _ _ _ _ Hr) in H.
    destruct r as [v|e]; [discriminate|].
    destruct e; simpl in H; try discriminate.
    + injection H as ->. now right.
    + left. eauto.
  - intros [H|[[m H]|H]].
    + now rewrite fit_without_fit_method.
    + now rewrite (fit_with_fit_method _ _ _ _ H).
    + now rewrite (fit_with_fit_method _ _ _ _ H).
Qed.
End ComponentBase.
Arguments obj_state {scalar fitted pyval} l.
Arguments obj_fit {scalar fitted pyval} l.
Arguments name {scalar fitted pyval} t.
Arguments _component_obj {scalar fitted pyval} t.
Arguments parameters {scalar fitted pyval} t.
Arguments fit {scalar fitted pyval} self X y.
Arguments has_fit {scalar fitted pyval} self.
Arguments wrapped_fit {scalar fitted pyval} self X y.
Arguments call_component_obj_fit {scalar fitted pyval} self X y.
End ComponentBase.

(** ** standard_metrics.py *)
Module standard_metrics.
Section standard_metrics.
Variable scalar : Type.

(** [sklearn.metrics]: each function takes [(y_true, y_pred)].  The module
    under study never calls [recall_score]. *)
Record sklearn_metrics : Type := {
  f1_score : target scalar -> ndarray scalar -> result scalar;
  precision_score : target scalar -> ndarray scalar -> result scalar;
  recall_score : target scalar -> ndarray scalar -> result scalar;
  roc_auc_score : target scalar -> ndarray scalar -> result scalar;
  log_loss : target scalar -> ndarray scalar -> result scalar;
  matthews_corrcoef : target scalar -> ndarray scalar -> result scalar;
  r2_score : target scalar -> ndarray scalar -> result scalar
}.

Variable metrics : sklearn_metrics.

(** What each class of the module defines: four class attributes and
    [score(self, y_predicted, y_true)]. *)
Record objective_class : Type := {
  needs_fitting : bool;
  greater_is_better : bool;
  need_proba : bool;
  name : string;
  score : ndarray scalar -> target scalar -> result scalar
}.

Definition F1 : objective_class :=
  {| needs_fitting := false;
     greater_is_better := true;
     need_proba := false;
     name := "F1";
     score := fun y_predicted y_true => f1_score metrics y_true y_predicted |}.

Definition Precision : objective_class :=
  {| needs_fitting := false;
     greater_is_better := true;
     need_proba := false;
     name := "Precision";
     score := fun y_predicted y_true => precision_score metrics y_true y_predicted |}.

Definition Recall : objective_class :=
  {| needs_fitting := false;
     greater_is_better := true;
     need_proba := false;
     name := "Recall";
     score := fun y_predicted y_true => f1_score metrics y_true y_predicted |}.

Definition AUC : objective_class :=
  {| needs_fitting := false;
     greater_is_better := true;
     need_proba := true;
     name := "AUC";
     score := fun y_predicted y_true => roc_auc_score metrics y_true y_predicted |}.

Definition LogLoss : objective_class :=
  {| needs_fitting := false;
     greater_is_better := false;
     need_proba := true;
     name := "Log Loss";
     score := fun y_predicted y_true => log_loss metrics y_true y_predicted |}.

Definition MCC : objective_class :=
  {| needs_fitting := false;
     greater_is_better := true;
     need_proba := false;
     name := "MCC";
     score := fun y_predicted y_true => matthews_corrcoef metrics y_true y_predicted |}.

Definition R2 : objective_class :=
  {| needs_fitting := false;
     greater_is_better := true;
     need_proba := false;
     name := "R2";
     score := fun y_predicted y_true => r2_score metrics y_true y_predicted |}.

(** *** Properties *)

(** C9: on every pair of inputs the score of [Recall] is the score of [F1],
    both being the library's [f1_score] of [(y_true, y_predicted)]; the
    library's [recall_score] plays no part. *)
Theorem Recall_score_equals_F1_score (y_predicted : ndarray scalar) (y_true : target scalar) :
  score Recall y_predicted y_true = score F1 y_predicted y_true /\
  score Recall y_predicted y_true = f1_score metrics y_true y_predicted.
Proof.
  unfold Recall, F1; cbn [score].
  split; reflexivity.
Qed.
End standard_metrics.
Arguments f1_score {scalar} s y_true y_pred.
Arguments recall_score {scalar} s y_true y_pred.
Arguments name {scalar} o.
Arguments score {scalar} o y_predicted y_true.
Arguments F1 {scalar} metrics.
Arguments Recall {scalar} metrics.
Arguments Precision {scalar} metrics.
End standard_metrics.

(** ** The components a pipeline holds

    [pipeline_base.py] reaches a component only through its attributes and
    methods, which subclasses override ([Transformer], [Estimator], [LDA]):
    a component is its attributes, the state of the object it wraps, and one
    function per method.  A method that the class lacks is a function that
    raises [AttributeError]. *)
Module Component.
Section Component.
Variables scalar fitted pyval : Type.

(** [is_Estimator] is [isinstance(component, Estimator)]; [init_parameters]
    are the names in [inspect.signature(component.__init__).parameters];
    [cls_new kwargs] is [component.__class__] with the keywords [kwargs]: the parameters and
    the wrapped object of the new instance, or the exception raised. *)
Record t : Type := {
  name : string;
  is_Estimator : bool;
  _needs_fitting : bool;
  parameters : odict pyval;
  init_parameters : list string;
  cls_new : odict pyval -> result (odict pyval * fitted);
  _component_obj : fitted;
  fit : fitted -> table scalar -> target scalar -> result unit * fitted;
  fit_transform : fitted -> table scalar -> target scalar -> result (table scalar) * fitted;
  transform : fitted -> table scalar -> option (target scalar) -> result (table scalar) * fitted;
  predict : fitted -> table scalar -> result (ndarray scalar) * fitted;
  predict_proba : fitted -> table scalar -> result (ndarray scalar) * fitted
}.

(** The same object after a method left its wrapped object in state [st]. *)
Definition with_state (c : t) (st : fitted) : t :=
  {| name := name c;
     is_Estimator := is_Estimator c;
     _needs_fitting := _needs_fitting c;
     parameters := parameters c;
     init_parameters := init_parameters c;
     cls_new := cls_new c;
     _component_obj := st;
     fit := fit c;
     fit_transform := fit_transform c;
     transform := transform c;
     predict := predict c;
     predict_proba := predict_proba c |}.

(** [component.__class__] with the keywords [kwargs] as a component. *)
Definition instantiate (c : t) (kwargs : odict pyval) : result t :=
  match cls_new c kwargs with
  | Raise e => Raise e
  | Ok (params, obj) =>
      Ok {| name := name c;
            is_Estimator := is_Estimator c;
            _needs_fitting := _needs_fitting c;
            parameters := params;
            init_parameters := init_parameters c;
            cls_new := cls_new c;
            _component_obj := obj;
            fit := fit c;
            fit_transform := fit_transform c;
            transform := transform c;
            predict := predict c;
            predict_proba := predict_proba c |}
  end.
End Component.
Arguments name {scalar fitted pyval} t.
Arguments is_Estimator {scalar fitted pyval} t.
Arguments _needs_fitting {scalar fitted pyval} t.
Arguments parameters {scalar fitted pyval} t.
Arguments init_parameters {scalar fitted pyval} t.
Arguments cls_new {scalar fitted pyval} t.
Arguments _component_obj {scalar fitted pyval} t.
Arguments fit {scalar fitted pyval} t.
Arguments fit_transform {scalar fitted pyval} t.
Arguments transform {scalar fitted pyval} t.
Arguments predict {scalar fitted pyval} t.
Arguments predict_proba {scalar fitted pyval} t.
Arguments with_state {scalar fitted pyval} c st.
Arguments instantiate {scalar fitted pyval} c kwargs.
End Component.

(** ** The objective a pipeline optimizes

    The flags [pipeline_base.py] reads and the three methods it calls.
    [fit] tunes the objective (it leaves it in a new state); [predict] and
    [score] read that state.  The extra argument is [X] when the objective
    uses extra columns, and absent otherwise. *)
Module Objective.
Section Objective.
Variables scalar fitted : Type.

Record t : Type := {
  name : string;
  needs_fitting : bool;
  fit_needs_proba : bool;
  score_needs_proba : bool;
  uses_extra_columns : bool;
  greater_is_better : bool;
  state : fitted;
  fit : fitted -> ndarray scalar -> target scalar -> option (table scalar)
        -> result unit * fitted;
  predict : fitted -> ndarray scalar -> option (table scalar) -> result (ndarray scalar);
  score : fitted -> ndarray scalar -> target scalar -> option (table scalar)
          -> result scalar
}.

Definition with_state (o : t) (st : fitted) : t :=
  {| name := name o;
     needs_fitting := needs_fitting o;
     fit_needs_proba := fit_needs_proba o;
     score_needs_proba := score_needs_proba o;
     uses_extra_columns := uses_extra_columns o;
     greater_is_better := greater_is_better o;
     state := st;
     fit := fit o;
     predict := predict o;
     score := score o |}.
End Objective.
Arguments name {scalar fitted} t.
Arguments needs_fitting {scalar fitted} t.
Arguments fit_needs_proba {scalar fitted} t.
Arguments score_needs_proba {scalar fitted} t.
Arguments uses_extra_columns {scalar fitted} t.
Arguments greater_is_better {scalar fitted} t.
Arguments state {scalar fitted} t.
Arguments fit {scalar fitted} t.
Arguments predict {scalar fitted} t.
Arguments score {scalar fitted} t.
Arguments with_state {scalar fitted} o st.
End Objective.

(** ** pipeline_base.py *)
Module PipelineBase.
Section PipelineBase.
Variables scalar fitted pyval : Type.

(** What a caller may hand over for an objective or a component: a name or
    an instance.  [get_objective] (evalml.objectives), [handle_component]
    (.components) and [train_test_split] (sklearn) are imported by the
    module and defined elsewhere: they are parameters here.  An objective
    that [get_objective] returns is an object, hence true in a condition. *)
Variables objective_ref component_ref : Type.
Variable get_objective : objective_ref -> result (Objective.t scalar fitted).
Variable handle_component : component_ref -> result (Component.t scalar fitted pyval).
Variable train_test_split :
  table scalar -> target scalar -> scalar -> pyval ->
  result (table scalar * table scalar * target scalar * target scalar).

Local Abbreviation component := (Component.t scalar fitted pyval).
Local Abbreviation objective_t := (Objective.t scalar fitted).

(** The attributes of a pipeline.  [self.estimator] is an alias of the last
    element of [component_list] and is read from there ([estimator_index]);
    [problem_types], [model_type], [results], [plot] and [logger] play no
    part in what follows and are left out.  The components of a list are
    distinct objects. *)
Record t : Type := {
  objective : objective_t;
  random_state : pyval;
  component_list : list component;
  component_names : list string;
  input_feature_names : odict (list label);
  name : string;
  n_jobs : pyval;
  parameters : odict pyval
}.

Definition set_component_list (p : t) (l : list component) : t :=
  {| objective := objective p;
     random_state := random_state p;
     component_list := l;
     component_names := component_names p;
     input_feature_names := input_feature_names p;
     name := name p;
     n_jobs := n_jobs p;
     parameters := parameters p |}.

Definition set_input_feature_names (p : t) (d : odict (list label)) : t :=
  {| objective := objective p;
     random_state := random_state p;
     component_list := component_list p;
     component_names := component_names p;
     input_feature_names := d;
     name := name p;
     n_jobs := n_jobs p;
     parameters := parameters p |}.

Definition set_objective (p : t) (o : objective_t) : t :=
  {| objective := o;
     random_state := random_state p;
     component_list := component_list p;
     component_names := component_names p;
     input_feature_names := input_feature_names p;
     name := name p;
     n_jobs := n_jobs p;
     parameters := parameters p |}.

(** *** Construction *)

(** [_instantiate_components]: for each component, the keywords whose names
    its constructor takes are collected and a new instance is made from
    them; the new instance is bound to the loop variable [component] and to
    nothing else. *)
Definition relevant_args (args : list string) (kwargs : odict pyval) : odict pyval :=
  fold_left (fun relevant kv =>
               if name_in (fst kv) args then od_set relevant (fst kv) (snd kv)
               else relevant)
            kwargs [].

Definition set_jobs_and_seed (kwargs : odict pyval) (n_jobs random_state : pyval)
  : odict pyval :=
  od_set (od_set kwargs "n_jobs" n_jobs) "random_state" random_state.

Fixpoint _instantiate_components (component_list : list component)
    (n_jobs random_state : pyval) (kwargs : odict pyval) : result unit :=
  match component_list with
  | [] => Ok tt
  | component :: rest =>
      let args := Component.init_parameters component in
      let kwargs := set_jobs_and_seed kwargs n_jobs random_state in
      match Component.instantiate component (relevant_args args kwargs) with
      | Raise e => Raise e
      | Ok _ => _instantiate_components rest n_jobs random_state kwargs
      end
  end.

(** The loop shared, line for line, by [_generate_name] and
    [generate_name]: [enumerate] over all components but the last. *)
Definition name_step (name : string) (ic : nat * component) : string :=
  if (fst ic =? 0)%nat
  then (name ++ " w/ " ++ Component.name (snd ic))%string
  else (name ++ " + " ++ Component.name (snd ic))%string.

Definition enumerate {A} (l : list A) : list (nat * A) :=
  combine (seq 0 (length l)) l.

(** [_generate_name(self)], from [self.estimator] and [self.component_list]. *)
Definition _generate_name (estimator : component) (component_list : list component)
  : string :=
  fold_left name_step (enumerate (removelast component_list)) (Component.name estimator).

(** The classmethod [generate_name(component_list)]. *)
Definition generate_name (component_list : list component_ref) : result string :=
  match mapM handle_component component_list with
  | Raise e => Raise e
  | Ok component_list =>
      match index_last component_list with
      | Raise e => Raise e
      | Ok estimator =>
          Ok (fold_left name_step (enumerate (removelast component_list))
                        (Component.name estimator))
      end
  end.

Definition last_not_estimator_message : string :=
  "A pipeline must have an Estimator as the last component in component_list.".

(** [self.parameters.update(component.parameters)] over the components. *)
Definition collect_parameters (component_list : list component) : odict pyval :=
  fold_left (fun acc c => od_update acc (Component.parameters c)) component_list [].

Definition __init__ (objective : objective_ref) (component_list : list component_ref)
    (n_jobs random_state : pyval) (kwargs : odict pyval) : result t :=
  match get_objective objective with
  | Raise e => Raise e
  | Ok objective =>
  match mapM handle_component component_list with
  | Raise e => Raise e
  | Ok component_list =>
  let component_names := map Component.name component_list in
  match index_last component_list with
  | Raise e => Raise e
  | Ok last =>
  if negb (Component.is_Estimator last)
  then Raise (ValueError last_not_estimator_message)
  else
  let estimator := last in
  let name := _generate_name estimator component_list in
  match _instantiate_components component_list n_jobs random_state kwargs with
  | Raise e => Raise e
  | Ok _ =>
      Ok {| objective := objective;
            random_state := random_state;
            component_list := component_list;
            component_names := component_names;
            input_feature_names := [];
            name := name;
            n_jobs := n_jobs;
            parameters := collect_parameters component_list |}
  end end end end.

(** *** The state of a run

    The methods below mutate the pipeline: the components' wrapped objects,
    [input_feature_names] and the objective.  A run carries the pipeline
    object and, as instrumentation, the log of the calls made into the
    components, oldest first: which component (by its position in
    [component_list]), which method, and on what features. *)
Inductive method : Type :=
| m_fit
| m_fit_transform
| m_transform
| m_predict
| m_predict_proba.

Record event : Type := {
  ev_index : nat;
  ev_method : method;
  ev_input : table scalar
}.

Record heap : Type := {
  self : t;
  calls : list event
}.

(** A computation reads and updates the state and returns or raises; the
    state survives an exception, as a mutated Python object does. *)
Definition M (A : Type) : Type := heap -> result A * heap.

Definition ret {A} (a : A) : M A := fun h => (Ok a, h).

Definition raise {A} (e : exn) : M A := fun h => (Raise e, h).

Definition bind {A B} (c : M A) (k : A -> M B) : M B :=
  fun h =>
    match c h with
    | (Ok a, h') => k a h'
    | (Raise e, h') => (Raise e, h')
    end.

Definition lift {A} (r : result A) : M A := fun h => (r, h).

Definition gets {A} (f : t -> A) : M A := fun h => (Ok (f (self h)), h).

Local Notation "x <- c ;; k" := (bind c (fun x => k))
  (at level 61, c at next level, right associativity).
Local Notation "c ;;; k" := (bind c (fun _ => k))
  (at level 61, right associativity).

(** [for x in l: acc = body(acc, x)] *)
Fixpoint for_fold {A B} (l : list A) (body : B -> A -> M B) (acc : B) : M B :=
  match l with
  | [] => ret acc
  | x :: l' => acc' <- body acc x ;; for_fold l' body acc'
  end.

(** [self.component_list[i]] *)
Definition component_at (i : nat) : M component :=
  fun h =>
    match nth_error (component_list (self h)) i with
    | Some c => (Ok c, h)
    | None => (Raise (IndexError "list index out of range"), h)
    end.

(** A call of method [m] of the component at position [i] on the features
    [X]: [f c st] is the method of [c] applied to its wrapped object [st]
    and the arguments.  The call is logged and the component keeps the
    state the method leaves, whether it returns or raises. *)
Definition call {A} (i : nat) (m : method) (X : table scalar)
    (f : component -> fitted -> result A * fitted) : M A :=
  fun h =>
    match nth_error (component_list (self h)) i with
    | None => (Raise (IndexError "list index out of range"), h)
    | Some c =>
        let (r, st) := f c (Component._component_obj c) in
        (r, {| self := set_component_list (self h)
                         (list_set (component_list (self h)) i (Component.with_state c st));
               calls := calls h ++ [{| ev_index := i; ev_method := m; ev_input := X |}] |})
    end.

(** The position of [self.estimator], the last component. *)
Definition estimator_index (p : t) : nat := length (component_list p) - 1.

(** [self.input_feature_names.update({name: columns})] *)
Definition update_input_feature_names (name : string) (columns : list label) : M unit :=
  fun h =>
    (Ok tt, {| self := set_input_feature_names (self h)
                         (od_update (input_feature_names (self h)) [(name, columns)]);
               calls := calls h |}).

(** *** _transform and _fit

    [self.component_list[:-1]] is walked by position: [0 .. len-2]. *)
Definition _transform (X : table scalar) : M (table scalar) :=
  n <- gets (fun p => length (component_list p)) ;;
  for_fold (seq 0 (n - 1))
    (fun X_t i =>
       call i m_transform X_t (fun c st => Component.transform c st X_t None))
    X.

Definition _fit (X : table scalar) (y : target scalar) : M unit :=
  let X_t := X in
  let y_t := y in
  n <- gets (fun p => length (component_list p)) ;;
  X_t <- for_fold (seq 0 (n - 1))
    (fun X_t i =>
       c <- component_at i ;;
       update_input_feature_names (Component.name c) (columns_of (pd_DataFrame X_t)) ;;;
       if Component._needs_fitting c
       then call i m_fit_transform X_t (fun c st => Component.fit_transform c st X_t y_t)
       else call i m_transform X_t (fun c st => Component.transform c st X_t (Some y_t)))
    X_t ;;
  est <- component_at (n - 1) ;;
  update_input_feature_names (Component.name est) (columns_of (pd_DataFrame X_t)) ;;;
  call (n - 1) m_fit X_t (fun c st => Component.fit c st X_t y_t).

(** *** predict_proba and predict *)
Definition estimator_predict_proba (X : table scalar) : M (ndarray scalar) :=
  i <- gets estimator_index ;;
  call i m_predict_proba X (fun c st => Component.predict_proba c st X).

Definition estimator_predict (X : table scalar) : M (ndarray scalar) :=
  i <- gets estimator_index ;;
  call i m_predict X (fun c st => Component.predict c st X).

Definition predict_proba (X : table scalar) : M (ndarray scalar) :=
  let X := if isinstance_DataFrame X then X else pd_DataFrame X in
  X <- _transform X ;;
  proba <- estimator_predict_proba X ;;
  ncols <- lift (shape1 proba) ;;
  if (ncols <=? 2)%nat
  then lift (column1 proba)
  else ret proba.

(** [self.objective.predict(y_predicted[, X])] *)
Definition objective_predict (y_predicted : ndarray scalar) (X : option (table scalar))
  : M (ndarray scalar) :=
  o <- gets objective ;;
  lift (Objective.predict o (Objective.state o) y_predicted X).

Definition predict (X : table scalar) : M (ndarray scalar) :=
  let X := if isinstance_DataFrame X then X else pd_DataFrame X in
  X_t <- _transform X ;;
  o <- gets objective ;;
  if Objective.needs_fitting o
  then
    y_predicted <-
      (if Objective.fit_needs_proba o
       then predict_proba X
       else (X_t <- _transform X ;; estimator_predict X_t)) ;;
    if Objective.uses_extra_columns o
    then objective_predict y_predicted (Some X)
    else objective_predict y_predicted None
  else estimator_predict X_t.

(** *** fit *)

(** [self.objective.fit(y_predicted, y_objective[, X_objective])] *)
Definition objective_fit (y_predicted : ndarray scalar) (y_true : target scalar)
    (X : option (table scalar)) : M unit :=
  fun h =>
    let o := objective (self h) in
    let (r, st) := Objective.fit o (Objective.state o) y_predicted y_true X in
    (r, {| self := set_objective (self h) (Objective.with_state o st);
           calls := calls h |}).

(** [fit(X, y, objective_fit_size)]; the caller passes the default [.2] like
    any other value.  [X_objective] and [y_objective] are bound only when the
    objective needs fitting. *)
Definition fit (X : table scalar) (y : target scalar) (objective_fit_size : scalar)
  : M unit :=
  let X := if isinstance_DataFrame X then X else pd_DataFrame X in
  let y := if isinstance_Series y then y else pd_Series y in
  o <- gets objective ;;
  held_out <-
    (if Objective.needs_fitting o
     then (seed <- gets random_state ;;
           s <- lift (train_test_split X y objective_fit_size seed) ;;
           ret (Some s))
     else ret None) ;;
  let X := match held_out with Some (X_train, _, _, _) => X_train | None => X end in
  let y := match held_out with Some (_, _, y_train, _) => y_train | None => y end in
  _fit X y ;;;
  o <- gets objective ;;
  if Objective.needs_fitting o
  then
    match held_out with
    | None => raise (OtherError "UnboundLocalError: X_objective")
    | Some (_, X_objective, _, y_objective) =>
        y_predicted <-
          (if Objective.fit_needs_proba o
           then predict_proba X_objective
           else predict X_objective) ;;
        if Objective.uses_extra_columns o
        then objective_fit y_predicted y_objective (Some X_objective)
        else objective_fit y_predicted y_objective None
    end
  else ret tt.

(** *** score *)

(** The local variables of the loop of [score].  What [predict] and
    [predict_proba] return is an array, never [None]: a variable is [None]
    exactly as long as nothing was assigned to it. *)
Record score_locals : Type := {
  y_predicted : option (ndarray scalar);
  y_predicted_proba : option (ndarray scalar);
  scores : list scalar
}.

Definition score_step (X : table scalar) (y : target scalar)
    (loc : score_locals) (objective : objective_t) : M score_locals :=
  if Objective.score_needs_proba objective
  then
    proba <- match y_predicted_proba loc with
             | None => predict_proba X
             | Some a => ret a
             end ;;
    let y_predictions := proba in
    s <- lift (Objective.score objective (Objective.state objective) y_predictions y
                 (if Objective.uses_extra_columns objective then Some X else None)) ;;
    ret {| y_predicted := y_predicted loc;
           y_predicted_proba := Some proba;
           scores := scores loc ++ [s] |}
  else
    pred <- match y_predicted loc with
            | None => predict X
            | Some a => ret a
            end ;;
    let y_predictions := pred in
    s <- lift (Objective.score objective (Objective.state objective) y_predictions y
                 (if Objective.uses_extra_columns objective then Some X else None)) ;;
    ret {| y_predicted := Some pred;
           y_predicted_proba := y_predicted_proba loc;
           scores := scores loc ++ [s] |}.

Definition score (X : table scalar) (y : target scalar)
    (other_objectives : option (list objective_ref))
  : M (scalar * odict scalar) :=
  let X := if isinstance_DataFrame X then X else pd_DataFrame X in
  let y := if isinstance_Series y then y else pd_Series y in
  let other_objectives := match other_objectives with Some l => l | None => [] end in
  other_objectives <- lift (mapM get_objective other_objectives) ;;
  o <- gets objective ;;
  loc <- for_fold (o :: other_objectives) (score_step X y)
           {| y_predicted := None; y_predicted_proba := None; scores := [] |} ;;
  match other_objectives with
  | [] => s0 <- lift (index_first (scores loc)) ;; ret (s0, [])
  | _ :: _ =>
      let other_scores :=
        OrderedDict (combine (map Objective.name other_objectives) (tl (scores loc))) in
      s0 <- lift (index_first (scores loc)) ;;
      ret (s0, other_scores)
  end.

(** *** The naming rule, in the words of the specification *)

(** Not taken from the code, but from the rule the specification states for
    it: the estimator's name, then [" w/ "] and the first transformer's name
    when there is one, then [" + "] and the name of each further
    transformer, in order.  [_generate_name] and [generate_name] above are
    compared with it. *)
Definition expected_name (transformers : list component) (estimator : component)
  : string :=
  (Component.name estimator ++
   match transformers with
   | [] => ""
   | first :: others =>
       " w/ " ++ Component.name first ++
       fold_right (fun c rest => " + " ++ Component.name c ++ rest) "" others
   end)%string.

(** *** Facts about lists and strings *)

Lemma string_app_assoc (a b c : string) :
  ((a ++ b) ++ c = a ++ (b ++ c))%string.
Proof.
  induction a as [|ch a IH]; simpl; [reflexivity|now rewrite IH].
Qed.

Lemma string_app_empty (a : string) : (a ++ "" = a)%string.
Proof.
  induction a as [|ch a IH]; simpl; [reflexivity|now rewrite IH].
Qed.

Lemma index_last_app {A} (l : list A) (x : A) : index_last (l ++ [x]) = Ok x.
Proof.
  unfold index_last. now rewrite rev_unit.
Qed.

Lemma index_last_Ok {A} (l : list A) (x : A) :
  index_last l = Ok x -> exists front, l = front ++ [x].
Proof.
  unfold index_last. destruct (rev l) as [|a r] eqn:E; [discriminate|].
  intros H; injection H as ->.
  exists (rev r). rewrite <- (rev_involutive l), E. reflexivity.
Qed.

(** *** Construction: the estimator check (C1) *)

(** C1: when the objective and the components resolve and the last component
    is not an [Estimator], [__init__] raises the [ValueError]: no pipeline
    object comes out of the constructor, so none of its methods can be
    called, and the check precedes the instantiation of the components
    (whatever their constructors would do). *)
Theorem init_rejects_last_non_estimator
    (objective : objective_ref) (component_list : list component_ref)
    (n_jobs random_state : pyval) (kwargs : odict pyval)
    (o : objective_t) (front : list component) (last : component) :
  get_objective objective = Ok o ->
  mapM handle_component component_list = Ok (front ++ [last]) ->
  Component.is_Estimator last = false ->
  __init__ objective component_list n_jobs random_state kwargs
  = Raise (ValueError last_not_estimator_message).
Proof.
  intros Hobj Hcomps Hlast. unfold __init__.
  rewrite Hobj, Hcomps, index_last_app, Hlast. reflexivity.
Qed.

(** *** Construction: the name (C7) *)

Lemma name_loop_from_second (l : list component) (k : nat) (acc : string) :
  fold_left name_step (combine (seq (S k) (length l)) l) acc
  = (acc ++ fold_right (fun c rest => " + " ++ Component.name c ++ rest) "" l)%string.
Proof.
  revert k acc. induction l as [|c l IH]; intros k acc; simpl.
  - now rewrite string_app_empty.
  - rewrite IH. unfold name_step at 1; simpl.
    now rewrite !string_app_assoc.
Qed.

Lemma name_loop (transformers : list component) (estimator : component) :
  fold_left name_step (enumerate transformers) (Component.name estimator)
  = expected_name transformers estimator.
Proof.
  unfold enumerate, expected_name.
  destruct transformers as [|c l]; simpl.
  - now rewrite string_app_empty.
  - rewrite name_loop_from_second. unfold name_step; simpl.
    now rewrite !string_app_assoc.
Qed.

Lemma _generate_name_rule (transformers : list component) (estimator : component) :
  _generate_name estimator (transformers ++ [estimator])
  = expected_name transformers estimator.
Proof.
  unfold _generate_name. rewrite removelast_last. apply name_loop.
Qed.

(** C7: for a component ordering that resolves to transformers followed by
    an estimator, the classmethod [generate_name] returns the string of the
    naming rule, and the pipeline constructed from the same ordering exists
    (once the objective resolves and the constructors of the components
    accept the keywords) and bears the same string as its name. *)
Theorem generated_name_follows_rule
    (objective : objective_ref) (component_list : list component_ref)
    (n_jobs random_state : pyval) (kwargs : odict pyval)
    (o : objective_t) (transformers : list component) (estimator : component) :
  get_objective objective = Ok o ->
  mapM handle_component component_list = Ok (transformers ++ [estimator]) ->
  Component.is_Estimator estimator = true ->
  _instantiate_components (transformers ++ [estimator]) n_jobs random_state kwargs = Ok tt ->
  generate_name component_list = Ok (expected_name transformers estimator) /\
  exists p,
    __init__ objective component_list n_jobs random_state kwargs = Ok p /\
    name p = expected_name transformers estimator.
Proof.
  intros Hobj Hcomps Hest Hinst. split.
  - unfold generate_name. rewrite Hcomps, index_last_app, removelast_last.
    now rewrite name_loop.
  - unfold __init__. rewrite Hobj, Hcomps, index_last_app, Hest, Hinst. simpl.
    eexists; split; [reflexivity|]. simpl. apply _generate_name_rule.
Qed.

(** *** Construction: the keywords (C5) *)

(** Whatever keywords are passed, a pipeline that [__init__] returns holds
    the components as [handle_component] returned them, and its parameters
    are collected from those. *)
Lemma init_keeps_handled_components
    (objective : objective_ref) (component_list : list component_ref)
    (n_jobs random_state : pyval) (kwargs : odict pyval) (p : t) :
  __init__ objective component_list n_jobs random_state kwargs = Ok p ->
  mapM handle_component component_list = Ok (PipelineBase.component_list p) /\
  parameters p = collect_parameters (PipelineBase.component_list p).
Proof.
  unfold __init__.
  destruct (get_objective objective) as [o|]; [|discriminate].
  destruct (mapM handle_component component_list) as [comps|]; [|discriminate].
  destruct (index_last comps) as [last|]; [|discriminate].
  destruct (negb (Component.is_Estimator last)); [discriminate|].
  destruct (_instantiate_components comps n_jobs random_state kwargs); [|discriminate].
  intros H; injection H as <-. simpl. split; reflexivity.
Qed.

(** *** Threading features through the components, in the words of the
    specification

    Not taken from the code, but from what the specification says the loops
    over [component_list[:-1]] do: the features are threaded through the
    components in list order, each component being handed what the previous
    one returned.  What is done with one component is a [step]: the feature
    names recorded before the call, the method called, and what it returns
    with the state it leaves the wrapped object in.  The first exception
    ends the walk.  [_transform] and [_fit] above, which walk the mutable
    pipeline by position, are compared with these recursions on the list of
    components. *)
Record step_result : Type := {
  s_names : odict (list label);
  s_method : method;
  s_out : result (table scalar) * fitted
}.

Record chain_result : Type := {
  out : result (table scalar);
  after : list component;
  made : list event;
  seen : odict (list label)
}.

Fixpoint chain (step : component -> table scalar -> step_result)
    (i : nat) (cs : list component) (X : table scalar) : chain_result :=
  match cs with
  | [] => {| out := Ok X; after := []; made := []; seen := [] |}
  | c :: cs' =>
      let s := step c X in
      let c' := Component.with_state c (snd (s_out s)) in
      let ev := {| ev_index := i; ev_method := s_method s; ev_input := X |} in
      match fst (s_out s) with
      | Raise e =>
          {| out := Raise e; after := c' :: cs'; made := [ev]; seen := s_names s |}
      | Ok X' =>
          let rest := chain step (S i) cs' X' in
          {| out := out rest;
             after := c' :: after rest;
             made := ev :: made rest;
             seen := s_names s ++ seen rest |}
      end
  end.

(** At prediction time: [transform] on the features alone. *)
Definition transform_step (c : component) (X : table scalar) : step_result :=
  {| s_names := [];
     s_method := m_transform;
     s_out := Component.transform c (Component._component_obj c) X None |}.

(** At fit time: the columns of the features are recorded under the name of
    the component, then [fit_transform] is called when the component needs
    fitting, and [transform] otherwise. *)
Definition fit_step (y : target scalar) (c : component) (X : table scalar) : step_result :=
  {| s_names := [(Component.name c, columns_of (pd_DataFrame X))];
     s_method := if Component._needs_fitting c then m_fit_transform else m_transform;
     s_out := if Component._needs_fitting c
              then Component.fit_transform c (Component._component_obj c) X y
              else Component.transform c (Component._component_obj c) X (Some y) |}.

(** Calling the wrapped estimator directly on the transformed features: the
    features are threaded through the transformers, and the estimator's
    [predict] is applied to what comes out. *)
Definition direct_estimator_predict (p : t) (X : table scalar) : result (ndarray scalar) :=
  match index_last (component_list p) with
  | Raise e => Raise e
  | Ok estimator =>
      match out (chain transform_step 0 (removelast (component_list p)) X) with
      | Raise e => Raise e
      | Ok X_t => fst (Component.predict estimator (Component._component_obj estimator) X_t)
      end
  end.

(** The pipeline after a walk over its components. *)
Definition walked (p : t) (components : list component) (names : odict (list label)) : t :=
  set_input_feature_names (set_component_list p components)
    (od_update (input_feature_names p) names).

(** *** Facts about lists, dictionaries and chains *)

Lemma list_set_middle {A} (pre : list A) (x x' : A) (rest : list A) :
  list_set (pre ++ x :: rest) (length pre) x' = pre ++ x' :: rest.
Proof.
  induction pre as [|a pre IH]; simpl; [reflexivity|now rewrite IH].
Qed.

Lemma nth_error_middle {A} (pre : list A) (x : A) (rest : list A) :
  nth_error (pre ++ x :: rest) (length pre) = Some x.
Proof.
  induction pre as [|a pre IH]; simpl; [reflexivity|exact IH].
Qed.

Lemma od_update_app {V} (d l1 l2 : odict V) :
  od_update d (l1 ++ l2) = od_update (od_update d l1) l2.
Proof.
  unfold od_update. apply fold_left_app.
Qed.

Lemma walked_same (p : t) :
  walked p (component_list p) [] = p.
Proof.
  destruct p; reflexivity.
Qed.

Lemma chain_after_length step i cs X :
  length (after (chain step i cs X)) = length cs.
Proof.
  revert i X. induction cs as [|c cs IH]; intros i X; simpl; [reflexivity|].
  destruct (fst (s_out (step c X))); simpl; [now rewrite IH|reflexivity].
Qed.

(** *** The loops of [_transform] and [_fit] are chains *)
Section Loop.
Variable body : table scalar -> nat -> M (table scalar).
Variable step : component -> table scalar -> step_result.

(** One turn of the loop on the component at position [i]. *)
Hypothesis body_step :
  forall (h : heap) (i : nat) (c : component) (X : table scalar),
    nth_error (component_list (self h)) i = Some c ->
    body X i h =
    (fst (s_out (step c X)),
     {| self := walked (self h)
                  (list_set (component_list (self h)) i
                     (Component.with_state c (snd (s_out (step c X)))))
                  (s_names (step c X));
        calls := calls h ++ [{| ev_index := i; ev_method := s_method (step c X);
                                ev_input := X |}] |}).

Lemma loop_is_chain (cs pre post : list component) (X : table scalar) (h : heap) :
  component_list (self h) = pre ++ cs ++ post ->
  for_fold (seq (length pre) (length cs)) body X h =
  let ch := chain step (length pre) cs X in
  (out ch,
   {| self := walked (self h) (pre ++ after ch ++ post) (seen ch);
      calls := calls h ++ made ch |}).
Proof.
  revert pre X h. induction cs as [|c cs IH]; intros pre X h Hcl.
  - simpl in *. unfold ret. rewrite app_nil_r, <- Hcl, walked_same.
    destruct h; reflexivity.
  - simpl in Hcl. cbn [length seq for_fold]. unfold bind.
    rewrite (body_step h (length pre) c X)
      by (rewrite Hcl; apply nth_error_middle).
    rewrite Hcl, list_set_middle.
    cbn [chain].
    destruct (fst (s_out (step c X))) as [X'|e]; [|reflexivity].
    set (c' := Component.with_state c (snd (s_out (step c X)))).
    replace (S (length pre)) with (length (pre ++ [c']))
      by (rewrite length_app; simpl; lia).
    rewrite (IH (pre ++ [c']) X')
      by (simpl; now rewrite <- app_assoc).
    cbn zeta. cbn [out after made seen self calls].
    f_equal. f_equal.
    + unfold walked. cbn.
      rewrite od_update_app, <- !app_assoc. reflexivity.
    + now rewrite <- app_assoc.
Qed.
End Loop.

Lemma transform_body_step (h : heap) (i : nat) (c : component) (X : table scalar) :
  nth_error (component_list (self h)) i = Some c ->
  call i m_transform X (fun c st => Component.transform c st X None) h =
  (fst (s_out (transform_step c X)),
   {| self := walked (self h)
                (list_set (component_list (self h)) i
                   (Component.with_state c (snd (s_out (transform_step c X)))))
                (s_names (transform_step c X));
      calls := calls h ++ [{| ev_index := i; ev_method := s_method (transform_step c X);
                              ev_input := X |}] |}).
Proof.
  intros Hc. unfold call. rewrite Hc. cbn [transform_step s_out s_names s_method].
  destruct (Component.transform c (Component._component_obj c) X None) as [r st].
  reflexivity.
Qed.

Lemma fit_body_step (y : target scalar) (h : heap) (i : nat)
    (c : component) (X : table scalar) :
  nth_error (component_list (self h)) i = Some c ->
  (c <- component_at i ;;
   update_input_feature_names (Component.name c) (columns_of (pd_DataFrame X)) ;;;
   if Component._needs_fitting c
   then call i m_fit_transform X (fun c st => Component.fit_transform c st X y)
   else call i m_transform X (fun c st => Component.transform c st X (Some y))) h =
  (fst (s_out (fit_step y c X)),
   {| self := walked (self h)
                (list_set (component_list (self h)) i
                   (Component.with_state c (snd (s_out (fit_step y c X)))))
                (s_names (fit_step y c X));
      calls := calls h ++ [{| ev_index := i; ev_method := s_method (fit_step y c X);
                              ev_input := X |}] |}).
Proof.
  intros Hc. unfold bind, component_at. rewrite Hc.
  unfold update_input_feature_names. cbn [fit_step s_out s_names s_method].
  destruct (Component._needs_fitting c); unfold call; cbn [self calls];
    cbn [set_input_feature_names component_list]; rewrite Hc.
  - destruct (Component.fit_transform c (Component._component_obj c) X y) as [r st].
    reflexivity.
  - destruct (Component.transform c (Component._component_obj c) X (Some y)) as [r st].
    reflexivity.
Qed.

Lemma transform_chain_seen (i : nat) (cs : list component) (X : table scalar) :
  seen (chain transform_step i cs X) = [].
Proof.
  revert i X. induction cs as [|c cs IH]; intros i X; simpl; [reflexivity|].
  destruct (fst (Component.transform c (Component._component_obj c) X None));
    simpl; [apply IH|reflexivity].
Qed.

Lemma length_but_last {A} (l : list A) (x : A) : length (l ++ [x]) - 1 = length l.
Proof.
  rewrite length_app; simpl; lia.
Qed.

(** [_transform] threads the features through the transformers and leaves
    the estimator alone. *)
Lemma _transform_is_chain (h : heap) (ts : list component) (est : component)
    (X : table scalar) :
  component_list (self h) = ts ++ [est] ->
  _transform X h =
  let ch := chain transform_step 0 ts X in
  (out ch,
   {| self := set_component_list (self h) (after ch ++ [est]);
      calls := calls h ++ made ch |}).
Proof.
  intros Hcl. unfold _transform, bind, gets. rewrite Hcl, length_but_last.
  rewrite (loop_is_chain _ transform_step transform_body_step ts [] [est])
    by exact Hcl.
  cbn zeta. rewrite transform_chain_seen. reflexivity.
Qed.

(** *** _fit (C6) *)

Lemma chain_made_index step (i : nat) (cs : list component) (X : table scalar) :
  map ev_index (made (chain step i cs X)) = seq i (length (made (chain step i cs X))).
Proof.
  revert i X. induction cs as [|c cs IH]; intros i X; simpl; [reflexivity|].
  destruct (fst (s_out (step c X))); simpl; [now rewrite IH|reflexivity].
Qed.

Lemma fit_chain_complete (y : target scalar) (i : nat) (cs : list component)
    (X X_t : table scalar) :
  out (chain (fit_step y) i cs X) = Ok X_t ->
  map fst (seen (chain (fit_step y) i cs X)) = map Component.name cs /\
  map ev_method (made (chain (fit_step y) i cs X))
  = map (fun c => if Component._needs_fitting c then m_fit_transform else m_transform) cs /\
  map ev_index (made (chain (fit_step y) i cs X)) = seq i (length cs).
Proof.
  revert i X. induction cs as [|c cs IH]; intros i X; cbn [chain].
  - intros _. repeat split.
  - destruct (fst (s_out (fit_step y c X))) as [X'|e]; cbn [out made seen];
      [|discriminate].
    intros H. destruct (IH _ _ H) as (Hn & Hm & Hi).
    cbn [map app length seq fit_step s_names s_method ev_index ev_method fst].
    rewrite Hn, Hm, Hi. repeat split.
Qed.

(** [_fit] as a chain followed by the estimator's [fit]. *)
Lemma _fit_is_chain
    (h : heap) (ts : list component) (est : component)
    (X : table scalar) (y : target scalar) :
  component_list (self h) = ts ++ [est] ->
  let ch := chain (fit_step y) 0 ts X in
  _fit X y h =
  match out ch with
  | Raise e =>
      (Raise e,
       {| self := walked (self h) (after ch ++ [est]) (seen ch);
          calls := calls h ++ made ch |})
  | Ok X_t =>
      (fst (Component.fit est (Component._component_obj est) X_t y),
       {| self := walked (self h)
                    (after ch ++
                     [Component.with_state est
                        (snd (Component.fit est (Component._component_obj est) X_t y))])
                    (seen ch ++ [(Component.name est, columns_of (pd_DataFrame X_t))]);
          calls := calls h ++ made ch ++
                   [{| ev_index := length ts; ev_method := m_fit; ev_input := X_t |}] |})
  end.
Proof.
  intros Hcl ch.
  unfold _fit, bind at 1, gets. rewrite Hcl, length_but_last.
  unfold bind at 1.
  rewrite (loop_is_chain _ (fit_step y) (fit_body_step y) ts [] [est]) by exact Hcl.
  cbn zeta. cbn [length app]. fold ch.
  destruct (out ch) as [X_t|e]; [|reflexivity].
  assert (Hn : nth_error (after ch ++ [est]) (length ts) = Some est).
  { rewrite <- (chain_after_length (fit_step y) 0 ts X). apply nth_error_middle. }
  unfold bind, component_at. cbn [self walked set_input_feature_names
    set_component_list component_list]. rewrite Hn.
  unfold update_input_feature_names, call. cbn [self calls walked
    set_input_feature_names set_component_list component_list input_feature_names].
  rewrite Hn.
  destruct (Component.fit est (Component._component_obj est) X_t y) as [r st].
  cbn [fst snd].
  rewrite <- (chain_after_length (fit_step y) 0 ts X) at 1. fold ch.
  rewrite list_set_middle. unfold walked.
  rewrite od_update_app, <- app_assoc. reflexivity.
Qed.

(** C6: on a pipeline of transformers followed by an estimator, [_fit]
    threads [(X, y)] through the transformers in list order, calling
    [fit_transform] on a component that needs fitting and [transform]
    otherwise; it records under each component's name the columns of the
    features that component was handed, and under the estimator's name the
    columns of the final features; and it calls the estimator's [fit] on the
    final features.  An exception of a transformer ends [_fit] there. *)
Theorem _fit_threads_then_fits_estimator
    (h : heap) (ts : list component) (est : component)
    (X : table scalar) (y : target scalar) :
  component_list (self h) = ts ++ [est] ->
  let ch := chain (fit_step y) 0 ts X in
  _fit X y h =
  match out ch with
  | Raise e =>
      (Raise e,
       {| self := walked (self h) (after ch ++ [est]) (seen ch);
          calls := calls h ++ made ch |})
  | Ok X_t =>
      (fst (Component.fit est (Component._component_obj est) X_t y),
       {| self := walked (self h)
                    (after ch ++
                     [Component.with_state est
                        (snd (Component.fit est (Component._component_obj est) X_t y))])
                    (seen ch ++ [(Component.name est, columns_of (pd_DataFrame X_t))]);
          calls := calls h ++ made ch ++
                   [{| ev_index := length ts; ev_method := m_fit; ev_input := X_t |}] |})
  end /\
  (forall X_t, out ch = Ok X_t ->
     map fst (seen ch) = map Component.name ts /\
     map ev_method (made ch)
     = map (fun c => if Component._needs_fitting c then m_fit_transform else m_transform) ts /\
     map ev_index (made ch) = seq 0 (length ts)).
Proof.
  intros Hcl ch. split.
  - apply _fit_is_chain. exact Hcl.
  - intros X_t. apply fit_chain_complete.
Qed.

(** *** Counting the calls into the estimator *)

Definition method_eqb (a b : method) : bool :=
  match a, b with
  | m_fit, m_fit => true
  | m_fit_transform, m_fit_transform => true
  | m_transform, m_transform => true
  | m_predict, m_predict => true
  | m_predict_proba, m_predict_proba => true
  | _, _ => false
  end.

(** How many of the calls [evs] are calls of method [m]. *)
Definition count_calls (m : method) (evs : list event) : nat :=
  length (filter (fun e => method_eqb (ev_method e) m) evs).

(** The calls logged between the states [h] and [h']. *)
Definition new_calls (h h' : heap) : list event :=
  skipn (length (calls h)) (calls h').

(** [predict] goes through [predict_proba] when the objective needs fitting
    and is fitted on probabilities. *)
Definition predicts_through_proba (o : objective_t) : bool :=
  Objective.needs_fitting o && Objective.fit_needs_proba o.

(** From [h] to [h'] the objective is the same object in the same state, and
    the log grew by at most [a] calls of an estimator's [predict] and [b]
    calls of [predict_proba]. *)
Definition grows (a b : nat) (h h' : heap) : Prop :=
  objective (self h') = objective (self h) /\
  exists evs,
    calls h' = calls h ++ evs /\
    count_calls m_predict evs <= a /\
    count_calls m_predict_proba evs <= b.

Definition within {A} (a b : nat) (c : M A) : Prop :=
  forall h r h', c h = (r, h') -> grows a b h h'.

Lemma count_calls_app m evs1 evs2 :
  count_calls m (evs1 ++ evs2) = count_calls m evs1 + count_calls m evs2.
Proof.
  unfold count_calls. now rewrite filter_app, length_app.
Qed.

Lemma grows_refl h : grows 0 0 h h.
Proof.
  split; [reflexivity|]. exists []. rewrite app_nil_r. simpl. auto.
Qed.

Lemma grows_trans a b a' b' h h1 h2 :
  grows a b h h1 -> grows a' b' h1 h2 -> grows (a + a') (b + b') h h2.
Proof.
  intros (Ho & evs & Hc & Ha & Hb) (Ho' & evs' & Hc' & Ha' & Hb').
  split; [congruence|]. exists (evs ++ evs').
  rewrite Hc', Hc, app_assoc, !count_calls_app. repeat split; lia.
Qed.

Lemma grows_weaken a b a' b' h h' :
  a <= a' -> b <= b' -> grows a b h h' -> grows a' b' h h'.
Proof.
  intros Ha Hb (Ho & evs & Hc & Ha' & Hb').
  split; [exact Ho|]. exists evs. repeat split; [exact Hc|lia|lia].
Qed.

Lemma bind_inv {A B} (c : M A) (k : A -> M B) h r h' :
  bind c k h = (r, h') ->
  (exists a h1, c h = (Ok a, h1) /\ k a h1 = (r, h')) \/
  (exists e, c h = (Raise e, h') /\ r = Raise e).
Proof.
  unfold bind. destruct (c h) as [[a|e] h1].
  - intros H. left. eauto.
  - intros H. injection H as <- <-. right. eauto.
Qed.

Lemma within_bind {A B} a b a' b' (c : M A) (k : A -> M B) :
  within a b c -> (forall x, within a' b' (k x)) ->
  within (a + a') (b + b') (bind c k).
Proof.
  intros Hc Hk h r h' H.
  destruct (bind_inv _ _ _ _ _ H) as [(x & h1 & H1 & H2)|(e & H1 & _)].
  - eapply grows_trans; [eapply Hc|eapply Hk]; eassumption.
  - eapply grows_weaken; [| |eapply Hc; eassumption]; lia.
Qed.

Lemma within_weaken {A} a b a' b' (c : M A) :
  a <= a' -> b <= b' -> within a b c -> within a' b' c.
Proof.
  intros Ha Hb Hc h r h' H. eapply grows_weaken; eauto.
Qed.

Lemma within_pure {A} (c : M A) :
  (forall h, snd (c h) = h) -> within 0 0 c.
Proof.
  intros Hc h r h' H. specialize (Hc h). rewrite H in Hc. simpl in Hc. subst h'.
  apply grows_refl.
Qed.

Lemma within_ret {A} (a : A) : within 0 0 (ret a).
Proof. apply within_pure. reflexivity. Qed.

Lemma within_lift {A} (r : result A) : within 0 0 (lift r).
Proof. apply within_pure. reflexivity. Qed.

Lemma within_gets {A} (f : t -> A) : within 0 0 (gets f).
Proof. apply within_pure. reflexivity. Qed.

Lemma within_component_at i : within 0 0 (component_at i).
Proof.
  apply within_pure. intros h. unfold component_at.
  destruct (nth_error (component_list (self h)) i); reflexivity.
Qed.

Lemma within_update_input_feature_names name columns :
  within 0 0 (update_input_feature_names name columns).
Proof.
  intros h r h' H. unfold update_input_feature_names in H.
  injection H as <- <-. split; [reflexivity|].
  exists []. simpl. rewrite app_nil_r. auto.
Qed.

Lemma within_call {A} i m X (f : component -> fitted -> result A * fitted) :
  within (if method_eqb m m_predict then 1 else 0)
         (if method_eqb m m_predict_proba then 1 else 0)
         (call i m X f).
Proof.
  intros h r h' H. unfold call in H.
  destruct (nth_error (component_list (self h)) i) as [c|].
  - destruct (f c (Component._component_obj c)) as [r' st].
    injection H as <- <-. split; [reflexivity|].
    eexists; split; [reflexivity|]. unfold count_calls; simpl.
    destruct m; simpl; auto.
  - injection H as <- <-.
    eapply grows_weaken; [| |apply grows_refl]; lia.
Qed.

Lemma within_for_fold {A B} (l : list A) (body : B -> A -> M B) (acc : B) :
  (forall acc x, within 0 0 (body acc x)) -> within 0 0 (for_fold l body acc).
Proof.
  intros Hbody. revert acc. induction l as [|x l IH]; intros acc; simpl.
  - apply within_ret.
  - apply (within_bind 0 0 0 0); [apply Hbody|intros acc'; apply IH].
Qed.

Lemma within__transform X : within 0 0 (_transform X).
Proof.
  unfold _transform.
  apply (within_bind 0 0 0 0); [apply within_gets|intros n].
  apply within_for_fold. intros X_t i. apply (within_call i m_transform).
Qed.

Lemma within__fit X y : within 0 0 (_fit X y).
Proof.
  unfold _fit.
  apply (within_bind 0 0 0 0); [apply within_gets|intros n].
  apply (within_bind 0 0 0 0).
  - apply within_for_fold. intros X_t i.
    apply (within_bind 0 0 0 0); [apply within_component_at|intros c].
    apply (within_bind 0 0 0 0); [apply within_update_input_feature_names|intros _].
    destruct (Component._needs_fitting c).
    + apply (within_call i m_fit_transform).
    + apply (within_call i m_transform).
  - intros X_t.
    apply (within_bind 0 0 0 0); [apply within_component_at|intros c].
    apply (within_bind 0 0 0 0); [apply within_update_input_feature_names|intros _].
    apply (within_call _ m_fit).
Qed.

Lemma within_estimator_predict X : within 1 0 (estimator_predict X).
Proof.
  unfold estimator_predict.
  apply (within_bind 0 0 1 0); [apply within_gets|intros i].
  apply (within_call i m_predict).
Qed.

Lemma within_estimator_predict_proba X : within 0 1 (estimator_predict_proba X).
Proof.
  unfold estimator_predict_proba.
  apply (within_bind 0 0 0 1); [apply within_gets|intros i].
  apply (within_call i m_predict_proba).
Qed.

Lemma within_predict_proba X : within 0 1 (predict_proba X).
Proof.
  unfold predict_proba.
  apply (within_bind 0 0 0 1); [apply within__transform|intros X_t].
  apply (within_bind 0 1 0 0); [apply within_estimator_predict_proba|intros proba].
  apply (within_bind 0 0 0 0); [apply within_lift|intros n].
  destruct (n <=? 2)%nat; [apply within_lift|apply within_ret].
Qed.

Lemma within_objective_predict yp X : within 0 0 (objective_predict yp X).
Proof.
  unfold objective_predict.
  apply (within_bind 0 0 0 0); [apply within_gets|intros o]. apply within_lift.
Qed.

(** One call of [predict] reaches the estimator's [predict] at most once,
    or, when it goes through [predict_proba], the estimator's
    [predict_proba] at most once. *)
Lemma predict_grows X h r h' :
  predict X h = (r, h') ->
  grows (if predicts_through_proba (objective (self h)) then 0 else 1)
        (if predicts_through_proba (objective (self h)) then 1 else 0) h h'.
Proof.
  unfold predict. intros H.
  set (X' := if isinstance_DataFrame X then X else pd_DataFrame X) in *.
  destruct (bind_inv _ _ _ _ _ H) as [(X_t & h1 & H1 & H2)|(e & H1 & _)].
  2:{ eapply grows_weaken; [| |eapply within__transform; eassumption]; lia. }
  pose proof (within__transform _ _ _ _ H1) as G1.
  unfold bind at 1, gets in H2.
  assert (Ho : objective (self h1) = objective (self h)) by apply G1.
  rewrite Ho in H2. unfold predicts_through_proba.
  destruct (Objective.needs_fitting (objective (self h))); simpl.
  - destruct (Objective.fit_needs_proba (objective (self h))).
    + apply (grows_trans 0 0 0 1 h h1 h' G1).
      revert H2. apply (within_bind 0 1 0 0); [apply within_predict_proba|intros yp].
      destruct (Objective.uses_extra_columns _); apply within_objective_predict.
    + apply (grows_trans 0 0 1 0 h h1 h' G1).
      revert H2. apply (within_bind 1 0 0 0).
      * apply (within_bind 0 0 1 0); [apply within__transform|intros X_t'].
        apply within_estimator_predict.
      * intros yp.
        destruct (Objective.uses_extra_columns _); apply within_objective_predict.
  - apply (grows_trans 0 0 1 0 h h1 h' G1).
    eapply within_estimator_predict; eassumption.
Qed.

(** *** The loop of [score] (C3, C8) *)

(** How many calls of the estimator's [predict] and [predict_proba] the rest
    of the loop may still cause, given what is cached; [through] tells
    whether [predict] goes through [predict_proba]. *)
Definition predict_budget (through : bool) (loc : score_locals) : nat :=
  match y_predicted loc with
  | None => if through then 0 else 1
  | Some _ => 0
  end.

Definition predict_proba_budget (through : bool) (loc : score_locals) : nat :=
  match y_predicted_proba loc with None => 1 | Some _ => 0 end +
  match y_predicted loc with
  | None => if through then 1 else 0
  | Some _ => 0
  end.

(** The extra argument an objective is scored with. *)
Definition extra_columns (o : objective_t) (X : table scalar) : option (table scalar) :=
  if Objective.uses_extra_columns o then Some X else None.

(** [s] is the score of objective [o] on some predictions. *)
Definition scored_by (X : table scalar) (y : target scalar) (o : objective_t) (s : scalar)
  : Prop :=
  exists predictions,
    Objective.score o (Objective.state o) predictions y (extra_columns o X) = Ok s.

Lemma score_tail_inv (X : table scalar) (y : target scalar) (o : objective_t)
    (predictions : ndarray scalar) (mk : scalar -> score_locals) h r h' :
  (s <- lift (Objective.score o (Objective.state o) predictions y
                (if Objective.uses_extra_columns o then Some X else None)) ;;
   ret (mk s)) h = (r, h') ->
  h' = h /\
  forall loc1, r = Ok loc1 -> exists s, scored_by X y o s /\ loc1 = mk s.
Proof.
  unfold bind, lift, ret, scored_by, extra_columns.
  destruct (Objective.score o (Objective.state o) predictions y _) as [s|e] eqn:E;
    intros H; injection H as <- <-; (split; [reflexivity|]); intros loc1 H1.
  - injection H1 as <-. eauto.
  - discriminate.
Qed.

Lemma score_step_spec (X : table scalar) (y : target scalar) (loc : score_locals)
    (o : objective_t) h r h1 :
  score_step X y loc o h = (r, h1) ->
  let through := predicts_through_proba (objective (self h)) in
  exists a b,
    grows a b h h1 /\
    a <= predict_budget through loc /\
    b <= predict_proba_budget through loc /\
    forall loc1, r = Ok loc1 ->
      a + predict_budget through loc1 <= predict_budget through loc /\
      b + predict_proba_budget through loc1 <= predict_proba_budget through loc /\
      exists s, scored_by X y o s /\ scores loc1 = scores loc ++ [s].
Proof.
  intros H through. unfold score_step in H.
  unfold predict_budget, predict_proba_budget.
  destruct (Objective.score_needs_proba o).
  - destruct (y_predicted_proba loc) as [cached|] eqn:Ec.
    + unfold bind at 1, ret at 1 in H.
      apply score_tail_inv in H. destruct H as [-> H].
      exists 0, 0. split; [apply grows_refl|]. split; [lia|]. split; [lia|].
      intros loc1 Hr. destruct (H _ Hr) as (s & Hs & ->). cbn.
      repeat split; try lia. eauto.
    + destruct (bind_inv _ _ _ _ _ H) as [(proba & h2 & H1 & H2)|(e & H1 & ->)].
      * apply score_tail_inv in H2. destruct H2 as [-> H2].
        exists 0, 1. split; [eapply within_predict_proba; eassumption|].
        split; [lia|]. split; [lia|].
        intros loc1 Hr. destruct (H2 _ Hr) as (s & Hs & ->). cbn.
        repeat split; try lia. eauto.
      * exists 0, 1. split; [eapply within_predict_proba; eassumption|].
        split; [lia|]. split; [lia|]. discriminate.
  - destruct (y_predicted loc) as [cached|] eqn:Ec.
    + unfold bind at 1, ret at 1 in H.
      apply score_tail_inv in H. destruct H as [-> H].
      exists 0, 0. split; [apply grows_refl|]. split; [lia|]. split; [lia|].
      intros loc1 Hr. destruct (H _ Hr) as (s & Hs & ->). cbn.
      repeat split; try lia. eauto.
    + destruct (bind_inv _ _ _ _ _ H) as [(pred & h2 & H1 & H2)|(e & H1 & ->)].
      * apply score_tail_inv in H2. destruct H2 as [-> H2].
        exists (if through then 0 else 1), (if through then 1 else 0).
        split; [eapply predict_grows; eassumption|].
        split; [lia|]. split; [lia|].
        intros loc1 Hr. destruct (H2 _ Hr) as (s & Hs & ->). cbn.
        repeat split; try lia. eauto.
      * exists (if through then 0 else 1), (if through then 1 else 0).
        split; [eapply predict_grows; eassumption|].
        split; [lia|]. split; [lia|]. discriminate.
Qed.

Lemma score_loop_spec (X : table scalar) (y : target scalar)
    (objs : list objective_t) (loc : score_locals) h r h' :
  for_fold objs (score_step X y) loc h = (r, h') ->
  let through := predicts_through_proba (objective (self h)) in
  grows (predict_budget through loc) (predict_proba_budget through loc) h h' /\
  forall loc', r = Ok loc' ->
    exists ss, scores loc' = scores loc ++ ss /\ Forall2 (scored_by X y) objs ss.
Proof.
  revert loc h. induction objs as [|o objs IH]; intros loc h H through; simpl in H.
  - injection H as <- <-. split.
    + eapply grows_weaken; [| |apply grows_refl]; lia.
    + intros loc' H. injection H as <-. exists []. rewrite app_nil_r. auto.
  - destruct (bind_inv _ _ _ _ _ H) as [(loc1 & h1 & H1 & H2)|(e & H1 & ->)].
    + destruct (score_step_spec _ _ _ _ _ _ _ H1) as (a & b & G & _ & _ & Hok).
      destruct (Hok loc1 eq_refl) as (Ha & Hb & s & Hs & Hsc).
      destruct (IH _ _ H2) as (G' & Hok').
      assert (Ho : objective (self h1) = objective (self h)) by apply G.
      rewrite Ho in G'. fold through in Ha, Hb, G'. split.
      * eapply grows_weaken; [| |eapply grows_trans; [exact G|exact G']]; lia.
      * intros loc' Hr. destruct (Hok' _ Hr) as (ss & Hss & Hall).
        exists (s :: ss). rewrite Hss, Hsc, <- app_assoc. auto.
    + destruct (score_step_spec _ _ _ _ _ _ _ H1) as (a & b & G & Ha & Hb & _).
      split; [|discriminate].
      eapply grows_weaken; [| |exact G]; assumption.
Qed.

Lemma od_set_fresh {V} (d : odict V) (k : string) (v : V) :
  ~ In k (map fst d) -> od_set d k v = d ++ [(k, v)].
Proof.
  induction d as [|[k' v'] d IH]; simpl; intros Hk; [reflexivity|].
  destruct (String.eqb_spec k' k) as [->|Hne].
  - exfalso. apply Hk. now left.
  - rewrite IH; [reflexivity|]. intros Hin. apply Hk. now right.
Qed.

Lemma od_update_fresh {V} (items d : odict V) :
  NoDup (map fst (d ++ items)) -> od_update d items = d ++ items.
Proof.
  revert d. induction items as [|[k v] items IH]; intros d Hnd.
  - simpl. now rewrite app_nil_r.
  - change (od_update d ((k, v) :: items)) with (od_update (od_set d k v) items).
    rewrite map_app in Hnd. simpl in Hnd.
    assert (Hk : ~ In k (map fst d)).
    { apply NoDup_remove_2 in Hnd. intros Hin. apply Hnd.
      apply in_or_app. now left. }
    rewrite od_set_fresh by exact Hk.
    rewrite IH; [now rewrite <- app_assoc|].
    rewrite <- app_assoc, map_app. exact Hnd.
Qed.

(** An [OrderedDict] built from items with pairwise distinct keys holds
    exactly those items, in their order. *)
Lemma OrderedDict_distinct_keys {V} (items : list (string * V)) :
  NoDup (map fst items) -> OrderedDict items = items.
Proof.
  intros Hnd. unfold OrderedDict. now rewrite od_update_fresh.
Qed.

Lemma combine_names_scores (X : table scalar) (y : target scalar)
    (objs : list objective_t) (ss : list scalar) :
  Forall2 (scored_by X y) objs ss ->
  map fst (combine (map Objective.name objs) ss) = map Objective.name objs /\
  Forall2 (fun o kv => fst kv = Objective.name o /\ scored_by X y o (snd kv))
          objs (combine (map Objective.name objs) ss).
Proof.
  induction 1 as [|o s objs ss Hs Hall [IH1 IH2]]; simpl.
  - split; constructor.
  - rewrite IH1. split; [reflexivity|]. constructor; [split; [reflexivity|exact Hs]|exact IH2].
Qed.

Lemma score_grows X y others h r h' :
  score X y others h = (r, h') ->
  grows 1 (if predicts_through_proba (objective (self h)) then 2 else 1) h h'.
Proof.
  unfold score. intros H.
  destruct (bind_inv _ _ _ _ _ H) as [(objs & h1 & H1 & H2)|(e & H1 & _)];
    unfold lift in H1; injection H1 as _ <-; [|eapply grows_weaken; [| |apply grows_refl]; lia].
  unfold bind at 1, gets in H2.
  destruct (bind_inv _ _ _ _ _ H2) as [(loc & h2 & H3 & H4)|(e & H3 & _)];
    apply score_loop_spec in H3; destruct H3 as [G _];
    unfold predict_budget, predict_proba_budget in G; cbn in G.
  - assert (h' = h2) as ->.
    { destruct objs; unfold bind, lift, ret in H4;
        destruct (index_first (scores loc)); now injection H4. }
    eapply grows_weaken; [| |exact G]; destruct (predicts_through_proba _); lia.
  - eapply grows_weaken; [| |exact G]; destruct (predicts_through_proba _); lia.
Qed.

Lemma new_calls_app h h' evs :
  calls h' = calls h ++ evs -> new_calls h h' = evs.
Proof.
  intros H. unfold new_calls. rewrite H, skipn_app, skipn_all, Nat.sub_diag. reflexivity.
Qed.

(** *** The cached arrays of [score] are the ones every objective is scored on *)

(** The array an objective is scored on: the probabilities when it is
    scored on probabilities, the labels otherwise. *)
Definition array_for (o : objective_t) (labels probabilities : option (ndarray scalar))
  : option (ndarray scalar) :=
  if Objective.score_needs_proba o then probabilities else labels.

(** [s] is the score of objective [o] on the array of its kind. *)
Definition scored_on (X : table scalar) (y : target scalar)
    (labels probabilities : option (ndarray scalar))
    (o : objective_t) (s : scalar) : Prop :=
  exists predictions,
    array_for o labels probabilities = Some predictions /\
    Objective.score o (Objective.state o) predictions y (extra_columns o X) = Ok s.

(** From [h0] to [h] the pipeline has run [predict] once exactly when there
    are labels, [predict_proba] once exactly when there are probabilities,
    and nothing else; the labels and the probabilities are what these
    returned. *)
Definition computed_once (X : table scalar) (h0 h : heap)
    (labels probabilities : option (ndarray scalar)) : Prop :=
  match labels, probabilities with
  | None, None => h = h0
  | Some l, None => predict X h0 = (Ok l, h)
  | None, Some p => predict_proba X h0 = (Ok p, h)
  | Some l, Some p =>
      (exists h1, predict X h0 = (Ok l, h1) /\ predict_proba X h1 = (Ok p, h)) \/
      (exists h1, predict_proba X h0 = (Ok p, h1) /\ predict X h1 = (Ok l, h))
  end.

Definition is_some {A} (o : option A) : bool :=
  match o with Some _ => true | None => false end.

(** What holds of the locals of the loop after the objectives [seen]. *)
Definition reuses_cache (X : table scalar) (y : target scalar) (h0 h : heap)
    (seen : list objective_t) (loc : score_locals) : Prop :=
  computed_once X h0 h (y_predicted loc) (y_predicted_proba loc) /\
  Forall2 (scored_on X y (y_predicted loc) (y_predicted_proba loc)) seen (scores loc) /\
  is_some (y_predicted loc) = existsb (fun o => negb (Objective.score_needs_proba o)) seen /\
  is_some (y_predicted_proba loc) = existsb Objective.score_needs_proba seen.

Lemma scored_on_more_probabilities X y labels p o s :
  scored_on X y labels None o s -> scored_on X y labels p o s.
Proof.
  unfold scored_on, array_for. intros (a & Ha & Hs).
  destruct (Objective.score_needs_proba o); [discriminate|eauto].
Qed.

Lemma scored_on_more_labels X y l probabilities o s :
  scored_on X y None probabilities o s -> scored_on X y l probabilities o s.
Proof.
  unfold scored_on, array_for. intros (a & Ha & Hs).
  destruct (Objective.score_needs_proba o); [eauto|discriminate].
Qed.

Lemma score_tail_Ok (X : table scalar) (y : target scalar) (o : objective_t)
    (predictions : ndarray scalar) (mk : scalar -> score_locals) h loc1 h' :
  (s <- lift (Objective.score o (Objective.state o) predictions y
                (if Objective.uses_extra_columns o then Some X else None)) ;;
   ret (mk s)) h = (Ok loc1, h') ->
  h' = h /\
  exists s, Objective.score o (Objective.state o) predictions y (extra_columns o X) = Ok s /\
            loc1 = mk s.
Proof.
  unfold bind, lift, ret, extra_columns.
  destruct (Objective.score o (Objective.state o) predictions y _) as [s|e];
    intros H; [|discriminate].
  injection H as <- <-. eauto.
Qed.

Lemma existsb_snoc {A} (f : A -> bool) (l : list A) (x : A) :
  existsb f (l ++ [x]) = existsb f l || f x.
Proof.
  rewrite existsb_app. simpl. now rewrite orb_false_r.
Qed.

Lemma score_step_reuses_cache (X : table scalar) (y : target scalar)
    (h0 h h1 : heap) (seen : list objective_t) (loc loc1 : score_locals)
    (o : objective_t) :
  reuses_cache X y h0 h seen loc ->
  score_step X y loc o h = (Ok loc1, h1) ->
  reuses_cache X y h0 h1 (seen ++ [o]) loc1.
Proof.
  intros (Hc & Hs & Hl & Hp) H. unfold score_step in H. unfold reuses_cache.
  rewrite !existsb_snoc.
  destruct (Objective.score_needs_proba o) eqn:Ek.
  - destruct (y_predicted_proba loc) as [cached|] eqn:Ec.
    + unfold bind at 1, ret at 1 in H.
      apply score_tail_Ok in H. destruct H as (-> & s & Hsc & ->).
      cbn [y_predicted y_predicted_proba scores].
      split; [exact Hc|]. split; [|split].
      * apply Forall2_app; [exact Hs|]. constructor; [|constructor].
        exists cached. unfold array_for. now rewrite Ek.
      * rewrite Hl. cbn. now rewrite orb_false_r.
      * cbn. now rewrite orb_true_r.
    + destruct (bind_inv _ _ _ _ _ H) as [(proba & h2 & H1 & H2)|(e & _ & He)];
        [|discriminate].
      apply score_tail_Ok in H2. destruct H2 as (-> & s & Hsc & ->).
      cbn [y_predicted y_predicted_proba scores].
      split; [|split; [|split]].
      * unfold computed_once in *. destruct (y_predicted loc) as [l|].
        -- left. exists h. auto.
        -- now subst h.
      * apply Forall2_app.
        -- eapply Forall2_impl; [|exact Hs].
           intros o' s'. apply scored_on_more_probabilities.
        -- constructor; [|constructor]. exists proba. unfold array_for. now rewrite Ek.
      * rewrite Hl. cbn. now rewrite orb_false_r.
      * cbn. now rewrite orb_true_r.
  - destruct (y_predicted loc) as [cached|] eqn:Ec.
    + unfold bind at 1, ret at 1 in H.
      apply score_tail_Ok in H. destruct H as (-> & s & Hsc & ->).
      cbn [y_predicted y_predicted_proba scores].
      split; [|split; [|split]].
      * exact Hc.
      * apply Forall2_app; [exact Hs|]. constructor; [|constructor].
        exists cached. unfold array_for. now rewrite Ek.
      * cbn. now rewrite orb_true_r.
      * rewrite Hp. cbn. now rewrite orb_false_r.
    + destruct (bind_inv _ _ _ _ _ H) as [(pred & h2 & H1 & H2)|(e & _ & He)];
        [|discriminate].
      apply score_tail_Ok in H2. destruct H2 as (-> & s & Hsc & ->).
      cbn [y_predicted y_predicted_proba scores].
      split; [|split; [|split]].
      * unfold computed_once in *. destruct (y_predicted_proba loc) as [p|].
        -- right. exists h. auto.
        -- now subst h.
      * apply Forall2_app.
        -- eapply Forall2_impl; [|exact Hs].
           intros o' s'. apply scored_on_more_labels.
        -- constructor; [|constructor]. exists pred. unfold array_for. now rewrite Ek.
      * cbn. now rewrite orb_true_r.
      * rewrite Hp. cbn. now rewrite orb_false_r.
Qed.

Lemma score_loop_reuses_cache (X : table scalar) (y : target scalar)
    (objs : list objective_t) (h0 : heap) :
  forall (seen : list objective_t) (loc loc' : score_locals) (h h' : heap),
    reuses_cache X y h0 h seen loc ->
    for_fold objs (score_step X y) loc h = (Ok loc', h') ->
    reuses_cache X y h0 h' (seen ++ objs) loc'.
Proof.
  induction objs as [|o objs IH]; intros seen loc loc' h h' Hinv H; simpl in H.
  - injection H as <- <-. now rewrite app_nil_r.
  - destruct (bind_inv _ _ _ _ _ H) as [(loc1 & h1 & H1 & H2)|(e & _ & He)];
      [|discriminate].
    pose proof (score_step_reuses_cache _ _ _ _ _ _ _ _ _ Hinv H1) as Hinv1.
    specialize (IH _ _ _ _ _ Hinv1 H2). now rewrite <- app_assoc in IH.
Qed.

Lemma score_Ok_reuses_cache
    (X : table scalar) (y : target scalar) (others : option (list objective_ref))
    (objs : list objective_t) (h h' : heap)
    (primary : scalar) (other_scores : odict scalar) :
  mapM get_objective (match others with Some l => l | None => [] end) = Ok objs ->
  score X y others h = (Ok (primary, other_scores), h') ->
  exists labels probabilities ss,
    computed_once (if isinstance_DataFrame X then X else pd_DataFrame X) h h'
                  labels probabilities /\
    Forall2 (scored_on (if isinstance_DataFrame X then X else pd_DataFrame X)
                       (if isinstance_Series y then y else pd_Series y)
                       labels probabilities)
            (objective (self h) :: objs) (primary :: ss) /\
    other_scores = OrderedDict (combine (map Objective.name objs) ss) /\
    is_some labels
    = existsb (fun o => negb (Objective.score_needs_proba o)) (objective (self h) :: objs) /\
    is_some probabilities
    = existsb Objective.score_needs_proba (objective (self h) :: objs).
Proof.
  intros Hm H. unfold score in H.
  unfold bind at 1, lift at 1 in H. rewrite Hm in H.
  unfold bind at 1, gets in H.
  destruct (bind_inv _ _ _ _ _ H) as [(loc & h2 & H3 & H4)|(e & _ & He)];
    [|discriminate].
  assert (Hinv0 : reuses_cache (if isinstance_DataFrame X then X else pd_DataFrame X)
                    (if isinstance_Series y then y else pd_Series y) h h []
                    {| y_predicted := None; y_predicted_proba := None; scores := [] |}).
  { unfold reuses_cache. cbn. repeat split. constructor. }
  pose proof (score_loop_reuses_cache _ _ _ _ _ _ _ _ _ Hinv0 H3) as (Hc & Hs & Hl & Hp).
  cbn [app] in Hs, Hl, Hp.
  inversion Hs as [|o s objs' ss Hs0 Hrest Eo Es]; subst.
  rewrite <- Es in H4. cbn [index_first tl] in H4.
  exists (y_predicted loc), (y_predicted_proba loc), ss.
  assert (Hret : h' = h2 /\ primary = s /\
                 other_scores = OrderedDict (combine (map Objective.name objs) ss)).
  { destruct objs as [|o1 objs]; unfold bind, lift, ret in H4; injection H4 as <- <- <-.
    - inversion Hrest. auto.
    - auto. }
  destruct Hret as (-> & -> & ->).
  split; [exact Hc|]. split; [|split; [reflexivity|split; assumption]].
  constructor; assumption.
Qed.

(** C8, as the code has it: within one call of [score], whatever the number
    of objectives, the estimator's [predict] is called at most once, and its
    [predict_proba] at most once unless [predict] itself goes through
    [predict_proba] (the objective needs fitting and is fitted on
    probabilities): then at most twice.  And when [score] returns, the
    pipeline has run [predict] once exactly when some objective is scored on
    labels and [predict_proba] once exactly when some objective is scored on
    probabilities, nothing else has touched it, and every objective, the
    pipeline's own and the additional ones, was scored on the array of its
    kind that this one run returned. *)
Theorem score_calls_estimator_at_most_once
    (X : table scalar) (y : target scalar) (others : option (list objective_ref))
    (h : heap) :
  count_calls m_predict (new_calls h (snd (score X y others h))) <= 1 /\
  count_calls m_predict_proba (new_calls h (snd (score X y others h)))
  <= (if predicts_through_proba (objective (self h)) then 2 else 1) /\
  (forall (objs : list objective_t) (h' : heap)
          (primary : scalar) (other_scores : odict scalar),
     mapM get_objective (match others with Some l => l | None => [] end) = Ok objs ->
     score X y others h = (Ok (primary, other_scores), h') ->
     exists labels probabilities ss,
       computed_once (if isinstance_DataFrame X then X else pd_DataFrame X) h h'
                     labels probabilities /\
       Forall2 (scored_on (if isinstance_DataFrame X then X else pd_DataFrame X)
                          (if isinstance_Series y then y else pd_Series y)
                          labels probabilities)
               (objective (self h) :: objs) (primary :: ss) /\
       other_scores = OrderedDict (combine (map Objective.name objs) ss) /\
       is_some labels
       = existsb (fun o => negb (Objective.score_needs_proba o))
                 (objective (self h) :: objs) /\
       is_some probabilities
       = existsb Objective.score_needs_proba (objective (self h) :: objs)).
Proof.
  split; [|split].
  - destruct (score X y others h) as [r h'] eqn:E. cbn [snd].
    destruct (score_grows _ _ _ _ _ _ E) as (_ & evs & Hc & Ha & Hb).
    now rewrite (new_calls_app _ _ _ Hc).
  - destruct (score X y others h) as [r h'] eqn:E. cbn [snd].
    destruct (score_grows _ _ _ _ _ _ E) as (_ & evs & Hc & Ha & Hb).
    now rewrite (new_calls_app _ _ _ Hc).
  - intros objs h' primary other_scores. apply score_Ok_reuses_cache.
Qed.

(** C3, as the code has it: when the names of the additional objectives are
    pairwise distinct, a call of [score] that returns gives the score of the
    pipeline's own objective and a mapping with one entry per additional
    objective, in the order requested, each keyed by the objective's name
    and holding a score of that objective; without additional objectives the
    mapping is empty. *)
Theorem score_returns_primary_and_named_scores
    (X : table scalar) (y : target scalar) (others : option (list objective_ref))
    (objs : list objective_t) (h h' : heap)
    (primary : scalar) (other_scores : odict scalar) :
  mapM get_objective (match others with Some l => l | None => [] end) = Ok objs ->
  NoDup (map Objective.name objs) ->
  score X y others h = (Ok (primary, other_scores), h') ->
  let X' := if isinstance_DataFrame X then X else pd_DataFrame X in
  let y' := if isinstance_Series y then y else pd_Series y in
  scored_by X' y' (objective (self h)) primary /\
  map fst other_scores = map Objective.name objs /\
  Forall2 (fun o kv => fst kv = Objective.name o /\ scored_by X' y' o (snd kv))
          objs other_scores /\
  (objs = [] -> other_scores = []).
Proof.
  intros Hm Hnd H X' y'. unfold score in H. fold X' y' in H.
  unfold bind at 1, lift at 1 in H. rewrite Hm in H.
  unfold bind at 1, gets in H.
  destruct (bind_inv _ _ _ _ _ H) as [(loc & h2 & H3 & H4)|(e & _ & He)];
    [|discriminate].
  apply score_loop_spec in H3. destruct H3 as [_ Hok].
  destruct (Hok loc eq_refl) as (ss & Hss & Hall). simpl in Hss.
  rewrite Hss in H4. clear Hss Hok.
  inversion Hall as [|o s objs' rest Hs Hrest]; subst.
  destruct (combine_names_scores _ _ _ _ Hrest) as [Hk Hf].
  cbn [index_first tl] in H4.
  remember (combine (map Objective.name objs) rest) as items eqn:Hitems.
  assert (Hempty : objs = [] -> items = []) by (intros ->; subst items; reflexivity).
  clear Hitems.
  destruct objs as [|o1 objs];
    unfold bind, lift, ret in H4; injection H4 as <- <- <-.
  - inversion Hf; subst. repeat split; auto.
  - rewrite OrderedDict_distinct_keys by (rewrite Hk; exact Hnd).
    repeat split; auto.
Qed.

(** *** predict_proba (C10) *)

(** The estimator's probability output on the transformed features. *)
Definition estimator_probabilities (X : table scalar) : M (ndarray scalar) :=
  X_t <- _transform (if isinstance_DataFrame X then X else pd_DataFrame X) ;;
  estimator_predict_proba X_t.

Lemma predict_proba_post X h proba h' :
  estimator_probabilities X h = (Ok proba, h') ->
  predict_proba X h =
  (match shape1 proba with
   | Raise e => Raise e
   | Ok ncols => if (ncols <=? 2)%nat then column1 proba else Ok proba
   end, h').
Proof.
  unfold estimator_probabilities, predict_proba. intros H.
  destruct (bind_inv _ _ _ _ _ H) as [(X_t & h1 & H1 & H2)|(e & _ & He)];
    [|discriminate].
  unfold bind at 1. rewrite H1. unfold bind at 1. rewrite H2.
  unfold bind, lift, ret. destruct (shape1 proba) as [n|e]; [|reflexivity].
  destruct (n <=? 2)%nat; reflexivity.
Qed.

(** C10, as the code has it: when the estimator's probability output has
    exactly two columns, [predict_proba] returns its second column, a
    one-dimensional array; when it has more than two, the full matrix. *)
Theorem predict_proba_two_columns_or_more
    (X : table scalar) (h h' : heap) (ncols : nat) (rows : list (list scalar)) :
  estimator_probabilities X h = (Ok (Arr2 ncols rows), h') ->
  (ncols = 2 -> predict_proba X h = (Ok (Arr1 (second_column rows)), h')) /\
  (2 < ncols -> predict_proba X h = (Ok (Arr2 ncols rows), h')).
Proof.
  intros H. rewrite (predict_proba_post _ _ _ _ H). cbn [shape1 column1]. split.
  - intros ->. reflexivity.
  - intros Hn. destruct (Nat.leb_spec ncols 2); [lia|reflexivity].
Qed.

(** *** fit followed by predict (C2) *)

Lemma last_or_empty {A} (l : list A) : l = [] \/ exists front x, l = front ++ [x].
Proof.
  induction l as [|x l _] using rev_ind; [now left|right; eauto].
Qed.

Lemma _fit_Ok_components X y h h1 :
  _fit X y h = (Ok tt, h1) ->
  exists ts est, component_list (self h1) = ts ++ [est].
Proof.
  intros H. destruct (last_or_empty (component_list (self h))) as [He|(ts & est & Hcl)].
  - unfold _fit, bind, gets, component_at in H. rewrite He in H. simpl in H.
    rewrite He in H. discriminate.
  - rewrite (_fit_is_chain h ts est X y Hcl) in H. cbn zeta in H.
    destruct (out (chain (fit_step y) 0 ts X)); [|discriminate].
    injection H as _ <-. cbn. eauto.
Qed.

Lemma fit_without_objective_fitting X y size h :
  Objective.needs_fitting (objective (self h)) = false ->
  fit X y size h =
  _fit (if isinstance_DataFrame X then X else pd_DataFrame X)
       (if isinstance_Series y then y else pd_Series y) h.
Proof.
  intros Hnf. unfold fit, bind at 1, gets. rewrite Hnf.
  unfold bind at 1, ret at 1. unfold bind.
  destruct (_fit _ _ h) as [[[]|e] h1] eqn:E; [|reflexivity].
  assert (Ho : objective (self h1) = objective (self h))
    by (eapply within__fit; exact E).
  unfold gets. rewrite Ho, Hnf. reflexivity.
Qed.

(** Without objective fitting, [predict] is the estimator's [predict] on the
    features threaded through the transformers. *)
Lemma predict_is_direct X h ts est :
  Objective.needs_fitting (objective (self h)) = false ->
  component_list (self h) = ts ++ [est] ->
  fst (predict X h)
  = direct_estimator_predict (self h) (if isinstance_DataFrame X then X else pd_DataFrame X).
Proof.
  intros Hnf Hcl. unfold predict, direct_estimator_predict.
  set (X' := if isinstance_DataFrame X then X else pd_DataFrame X).
  rewrite Hcl, index_last_app, removelast_last.
  unfold bind at 1. rewrite (_transform_is_chain h ts est X' Hcl). cbn zeta.
  set (ch := chain transform_step 0 ts X').
  destruct (out ch) as [X_t|e]; [|reflexivity].
  unfold bind at 1, gets. cbn [self set_component_list objective]. rewrite Hnf.
  unfold estimator_predict, bind, gets, estimator_index, call.
  cbn [self set_component_list component_list].
  rewrite length_but_last, nth_error_middle.
  destruct (Component.predict est (Component._component_obj est) X_t) as [r st].
  reflexivity.
Qed.

(** C2, as the code has it: when the objective does not need fitting, [fit]
    followed by [predict] on the same data returns what the estimator's
    [predict] returns on the features obtained by threading the data through
    the transformers of the fitted pipeline. *)
Theorem fit_then_predict_is_estimator_on_transformed
    (X : table scalar) (y : target scalar) (objective_fit_size : scalar)
    (h h1 : heap) :
  Objective.needs_fitting (objective (self h)) = false ->
  fit X y objective_fit_size h = (Ok tt, h1) ->
  fst (predict X h1)
  = direct_estimator_predict (self h1)
      (if isinstance_DataFrame X then X else pd_DataFrame X).
Proof.
  intros Hnf Hfit. rewrite (fit_without_objective_fitting _ _ _ _ Hnf) in Hfit.
  destruct (_fit_Ok_components _ _ _ _ Hfit) as (ts & est & Hcl).
  assert (Ho : objective (self h1) = objective (self h))
    by (eapply within__fit; exact Hfit).
  apply (predict_is_direct X h1 ts est); [now rewrite Ho|exact Hcl].
Qed.

(** ** More of pipeline_base.py *)

(** *** Facts about dictionaries *)

Lemma od_get_set_same {V} (d : odict V) (k : string) (v : V) :
  od_get (od_set d k v) k = Some v.
Proof.
  induction d as [|[k' v'] d IH]; simpl.
  - now rewrite String.eqb_refl.
  - destruct (String.eqb k' k) eqn:E; simpl; rewrite E; [reflexivity|exact IH].
Qed.

Lemma od_get_set_other {V} (d : odict V) (k k' : string) (v : V) :
  k' <> k -> od_get (od_set d k v) k' = od_get d k'.
Proof.
  intros Hne. induction d as [|[k0 v0] d IH]; simpl.
  - destruct (String.eqb_spec k k'); [congruence|reflexivity].
  - destruct (String.eqb_spec k0 k) as [->|Hk]; simpl.
    + destruct (String.eqb_spec k k'); [congruence|reflexivity].
    + destruct (String.eqb k0 k'); [reflexivity|exact IH].
Qed.

Lemma od_set_present_same {V} (d : odict V) (k : string) (v : V) :
  od_get d k = Some v -> od_set d k v = d.
Proof.
  induction d as [|[k' v'] d IH]; simpl; [discriminate|].
  destruct (String.eqb k' k).
  - intros H; injection H as ->. reflexivity.
  - intros H. now rewrite IH.
Qed.

Lemma od_set_keys {V} (d : odict V) (k : string) (v : V) :
  In k (map fst d) -> map fst (od_set d k v) = map fst d.
Proof.
  induction d as [|[k' v'] d IH]; simpl; [intros []|].
  destruct (String.eqb_spec k' k) as [->|Hne]; [reflexivity|].
  intros [H|H]; [congruence|]. simpl. now rewrite IH.
Qed.

(** *** Construction: edge cases and the keywords *)

(** X1: With no component at all there is no last component to test: the
    constructor (once the objective resolves) and [generate_name] both fail
    on [component_list[-1]] with an [IndexError], not with the [ValueError]
    of the estimator check. *)
Theorem empty_component_list_raises_IndexError
    (objective : objective_ref) (n_jobs random_state : pyval) (kwargs : odict pyval)
    (o : objective_t) :
  get_objective objective = Ok o ->
  __init__ objective [] n_jobs random_state kwargs
  = Raise (IndexError "list index out of range") /\
  generate_name [] = Raise (IndexError "list index out of range").
Proof.
  intros Hobj. unfold __init__, generate_name. rewrite Hobj. split; reflexivity.
Qed.

(** X2: The keywords decide whether construction succeeds and nothing else: two
    constructions that differ in their keywords only, and both succeed,
    return the same pipeline. *)
Theorem init_result_independent_of_keywords
    (objective : objective_ref) (component_list : list component_ref)
    (n_jobs random_state : pyval) (kwargs kwargs' : odict pyval) (p p' : t) :
  __init__ objective component_list n_jobs random_state kwargs = Ok p ->
  __init__ objective component_list n_jobs random_state kwargs' = Ok p' ->
  p = p'.
Proof.
  unfold __init__.
  destruct (get_objective objective) as [o|]; [|discriminate].
  destruct (mapM handle_component component_list) as [comps|]; [|discriminate].
  destruct (index_last comps) as [last|]; [|discriminate].
  destruct (negb (Component.is_Estimator last)); [discriminate|].
  destruct (_instantiate_components comps n_jobs random_state kwargs); [|discriminate].
  destruct (_instantiate_components comps n_jobs random_state kwargs'); [|discriminate].
  intros H H'. injection H as <-. injection H' as <-. reflexivity.
Qed.

Lemma relevant_args_from (args : list string) (kwargs acc : odict pyval) :
  NoDup (map fst acc ++ map fst kwargs) ->
  fold_left (fun relevant kv =>
               if name_in (fst kv) args then od_set relevant (fst kv) (snd kv)
               else relevant) kwargs acc
  = acc ++ filter (fun kv => name_in (fst kv) args) kwargs.
Proof.
  revert acc. induction kwargs as [|[k v] kwargs IH]; intros acc Hnd; simpl.
  - now rewrite app_nil_r.
  - simpl in Hnd. destruct (name_in k args).
    + rewrite od_set_fresh.
      * rewrite IH; [now rewrite <- app_assoc|].
        rewrite map_app, <- app_assoc. exact Hnd.
      * apply NoDup_remove_2 in Hnd. intros Hin. apply Hnd.
        apply in_or_app. now left.
    + apply IH. now apply NoDup_remove_1 in Hnd.
Qed.

(** X3: The reflection-based filter: of keywords with distinct names (as the
    keys of a dictionary are), a constructor is offered exactly those whose
    names are among its parameters, with the values supplied and in the
    order supplied. *)
Theorem relevant_args_filters_by_signature (args : list string) (kwargs : odict pyval) :
  NoDup (map fst kwargs) ->
  relevant_args args kwargs = filter (fun kv => name_in (fst kv) args) kwargs.
Proof.
  intros Hnd. unfold relevant_args. now rewrite relevant_args_from.
Qed.

(** The keywords every constructor is offered from: those passed, with
    [n_jobs] and [random_state] set to the pipeline's. *)
Definition offered_args (c : component) (n_jobs random_state : pyval)
    (kwargs : odict pyval) : odict pyval :=
  relevant_args (Component.init_parameters c) (set_jobs_and_seed kwargs n_jobs random_state).

Lemma set_jobs_and_seed_twice (kwargs : odict pyval) (n_jobs random_state : pyval) :
  set_jobs_and_seed (set_jobs_and_seed kwargs n_jobs random_state) n_jobs random_state
  = set_jobs_and_seed kwargs n_jobs random_state.
Proof.
  unfold set_jobs_and_seed.
  rewrite (od_set_present_same _ "n_jobs" n_jobs).
  - apply od_set_present_same, od_get_set_same.
  - rewrite od_get_set_other by discriminate. apply od_get_set_same.
Qed.

Lemma _instantiate_components_set (cl : list component) (n_jobs random_state : pyval)
    (kwargs : odict pyval) :
  _instantiate_components cl n_jobs random_state
    (set_jobs_and_seed kwargs n_jobs random_state)
  = _instantiate_components cl n_jobs random_state kwargs.
Proof.
  destruct cl as [|c cl]; simpl; [reflexivity|].
  now rewrite set_jobs_and_seed_twice.
Qed.

Lemma _instantiate_components_cons (c : component) (cl : list component)
    (n_jobs random_state : pyval) (kwargs : odict pyval) :
  _instantiate_components (c :: cl) n_jobs random_state kwargs
  = match Component.instantiate c (offered_args c n_jobs random_state kwargs) with
    | Raise e => Raise e
    | Ok _ => _instantiate_components cl n_jobs random_state kwargs
    end.
Proof.
  simpl. unfold offered_args.
  destruct (Component.instantiate c _); [apply _instantiate_components_set|reflexivity].
Qed.

(** X4: The constructors are called in list order, each on the keywords it is
    offered, and the first exception ends the construction: instantiation
    succeeds exactly when every constructor accepts what it is offered, and
    otherwise raises the exception of the first constructor that does not. *)
Theorem instantiate_components_stops_at_first_failure
    (cl : list component) (n_jobs random_state : pyval) (kwargs : odict pyval) :
  (_instantiate_components cl n_jobs random_state kwargs = Ok tt <->
   Forall (fun c => exists c',
             Component.instantiate c (offered_args c n_jobs random_state kwargs) = Ok c') cl) /\
  (forall pre c post e,
     cl = pre ++ c :: post ->
     Forall (fun c => exists c',
               Component.instantiate c (offered_args c n_jobs random_state kwargs) = Ok c') pre ->
     Component.instantiate c (offered_args c n_jobs random_state kwargs) = Raise e ->
     _instantiate_components cl n_jobs random_state kwargs = Raise e).
Proof.
  split.
  - induction cl as [|c cl IH]; [split; [constructor|reflexivity]|].
    rewrite _instantiate_components_cons.
    destruct (Component.instantiate c _) as [c'|e] eqn:E; split; intros H.
    + constructor; [eauto|now apply IH].
    + inversion H; subst. now apply IH.
    + discriminate.
    + inversion H as [|? ? [c' Hc] ?]; subst. congruence.
  - intros pre c post e -> Hpre Hc.
    induction Hpre as [|c0 pre [c' Hc0] _ IH]; simpl app;
      rewrite _instantiate_components_cons.
    + now rewrite Hc.
    + now rewrite Hc0.
Qed.

(** *** __getitem__, __setitem__ and get_component *)

(** What may stand between the brackets: a slice, an integer, a string, or
    anything else (which equals no component name). *)
Inductive subscript : Type :=
| sub_slice
| sub_int (i : Z)
| sub_str (s : string)
| sub_other.

(** [l[i]] for an integer [i]: a negative index counts from the end. *)
Definition list_index {A} (l : list A) (i : Z) : result A :=
  let n := Z.of_nat (length l) in
  let j := if (i <? 0)%Z then (i + n)%Z else i in
  if ((0 <=? j)%Z && (j <? n)%Z)%bool
  then match nth_error l (Z.to_nat j) with
       | Some x => Ok x
       | None => Raise (IndexError "list index out of range")
       end
  else Raise (IndexError "list index out of range").

(** [next((c for c in self.component_list if c.name == name), None)] *)
Definition get_component (p : t) (nm : string) : option component :=
  find (fun c => String.eqb (Component.name c) nm) (component_list p).

(** [NotImplementedError] is one of the other exception classes. *)
Definition __getitem__ (p : t) (index : subscript) : result (option component) :=
  match index with
  | sub_slice =>
      Raise (OtherError "NotImplementedError: Slicing pipelines is currently not supported.")
  | sub_int i =>
      match list_index (component_list p) i with
      | Ok c => Ok (Some c)
      | Raise e => Raise e
      end
  | sub_str nm => Ok (get_component p nm)
  | sub_other => Ok None
  end.

Definition __setitem__ (p : t) (index : subscript) (value : component) : result unit * t :=
  (Raise (OtherError "NotImplementedError: Setting pipeline components is not supported."), p).

Lemma list_index_in_range {A} (l : list A) (i : nat) (x : A) :
  nth_error l i = Some x ->
  list_index l (Z.of_nat i) = Ok x /\
  list_index l (Z.of_nat i - Z.of_nat (length l)) = Ok x.
Proof.
  intros Hx.
  assert (Hi : i < length l) by (apply nth_error_Some; congruence).
  unfold list_index. split.
  - destruct (Z.ltb_spec (Z.of_nat i) 0); [lia|].
    destruct (Z.leb_spec 0 (Z.of_nat i)); [|lia].
    destruct (Z.ltb_spec (Z.of_nat i) (Z.of_nat (length l))); [|lia].
    simpl. now rewrite Nat2Z.id, Hx.
  - destruct (Z.ltb_spec (Z.of_nat i - Z.of_nat (length l)) 0); [|lia].
    replace (Z.of_nat i - Z.of_nat (length l) + Z.of_nat (length l))%Z
      with (Z.of_nat i) by lia.
    destruct (Z.leb_spec 0 (Z.of_nat i)); [|lia].
    destruct (Z.ltb_spec (Z.of_nat i) (Z.of_nat (length l))); [|lia].
    simpl. now rewrite Nat2Z.id, Hx.
Qed.

Lemma list_index_out_of_range {A} (l : list A) (i : Z) :
  (i < - Z.of_nat (length l) \/ Z.of_nat (length l) <= i)%Z ->
  list_index l i = Raise (IndexError "list index out of range").
Proof.
  intros Hi. unfold list_index.
  destruct (Z.ltb_spec i 0).
  - destruct (Z.leb_spec 0 (i + Z.of_nat (length l))); [lia|reflexivity].
  - destruct (Z.leb_spec 0 i); [|reflexivity].
    destruct (Z.ltb_spec i (Z.of_nat (length l))); [lia|reflexivity].
Qed.

(** X5: Integer subscripts: with [n] components, [p[i]] and [p[i - n]] are the
    component at position [i] for [0 <= i < n], and every integer below
    [-n] or from [n] on raises [IndexError]. *)
Theorem getitem_integer_subscript (p : t) :
  (forall (i : nat) (c : component),
     nth_error (component_list p) i = Some c ->
     __getitem__ p (sub_int (Z.of_nat i)) = Ok (Some c) /\
     __getitem__ p (sub_int (Z.of_nat i - Z.of_nat (length (component_list p))))
     = Ok (Some c)) /\
  (forall i : Z,
     (i < - Z.of_nat (length (component_list p)) \/
      Z.of_nat (length (component_list p)) <= i)%Z ->
     __getitem__ p (sub_int i) = Raise (IndexError "list index out of range")).
Proof.
  split.
  - intros i c Hc. unfold __getitem__.
    destruct (list_index_in_range _ _ _ Hc) as [-> ->]. split; reflexivity.
  - intros i Hi. unfold __getitem__. now rewrite list_index_out_of_range.
Qed.

Lemma get_component_spec (p : t) (nm : string) :
  (forall c, get_component p nm = Some c ->
     exists pre post,
       component_list p = pre ++ c :: post /\
       Component.name c = nm /\
       ~ In nm (map Component.name pre)) /\
  (get_component p nm = None <-> ~ In nm (map Component.name (component_list p))).
Proof.
  unfold get_component. induction (component_list p) as [|c0 l [IH1 IH2]]; simpl.
  - split; [discriminate|]. split; auto.
  - destruct (String.eqb_spec (Component.name c0) nm) as [Heq|Hne]; split.
    + intros c H. injection H as <-. exists [], l. simpl. auto.
    + split; [discriminate|]. intros H. exfalso. apply H. now left.
    + intros c H. destruct (IH1 c H) as (pre & post & -> & Hn & Hpre).
      exists (c0 :: pre), post. simpl. repeat split; auto.
      intros [H'|H']; [congruence|auto].
    + rewrite IH2. split; intros H; [intros [H'|H']; auto|auto].
Qed.

(** X6: Lookup by name: the result is the first component of the list bearing
    the name, and [None] (no exception) exactly when no component bears it. *)
Theorem get_component_finds_first_by_name (p : t) (nm : string) :
  (forall c, get_component p nm = Some c ->
     exists pre post,
       component_list p = pre ++ c :: post /\
       Component.name c = nm /\
       ~ In nm (map Component.name pre)) /\
  (get_component p nm = None <-> ~ In nm (map Component.name (component_list p))).
Proof.
  exact (get_component_spec p nm).
Qed.

(** What the constructor establishes. *)
Lemma init_invariant
    (objective : objective_ref) (cl : list component_ref)
    (n_jobs random_state : pyval) (kwargs : odict pyval) (p : t) :
  __init__ objective cl n_jobs random_state kwargs = Ok p ->
  exists front estimator,
    component_list p = front ++ [estimator] /\
    Component.is_Estimator estimator = true /\
    component_names p = map Component.name (component_list p) /\
    input_feature_names p = [].
Proof.
  unfold __init__.
  destruct (get_objective objective) as [o|]; [|discriminate].
  destruct (mapM handle_component cl) as [comps|]; [|discriminate].
  destruct (index_last comps) as [last|] eqn:El; [|discriminate].
  destruct (Component.is_Estimator last) eqn:Ee; [|discriminate]. simpl.
  destruct (_instantiate_components comps n_jobs random_state kwargs); [|discriminate].
  intros H; injection H as <-.
  destruct (index_last_Ok _ _ El) as [front ->].
  exists front, last. cbn. auto.
Qed.

(** X7: On a constructed pipeline, [p[-1]] is the estimator, and a name finds a
    component exactly when it is one of [component_names]. *)
Theorem constructed_pipeline_subscripts
    (objective : objective_ref) (cl : list component_ref)
    (n_jobs random_state : pyval) (kwargs : odict pyval) (p : t) :
  __init__ objective cl n_jobs random_state kwargs = Ok p ->
  (exists estimator,
     __getitem__ p (sub_int (-1)) = Ok (Some estimator) /\
     Component.is_Estimator estimator = true) /\
  (forall nm,
     In nm (component_names p) <->
     exists c, __getitem__ p (sub_str nm) = Ok (Some c) /\ Component.name c = nm).
Proof.
  intros H. destruct (init_invariant _ _ _ _ _ _ H) as (front & est & Hcl & Hest & Hnames & _).
  split.
  - exists est. split; [|exact Hest].
    unfold __getitem__. rewrite Hcl.
    pose proof (list_index_in_range (front ++ [est]) (length front) est
                  (nth_error_middle front est [])) as [_ Hi].
    replace (Z.of_nat (length front) - Z.of_nat (length (front ++ [est])))%Z
      with (-1)%Z in Hi by (rewrite length_app; simpl; lia).
    now rewrite Hi.
  - intros nm. rewrite Hnames. cbn [__getitem__].
    destruct (get_component_spec p nm) as [H1 H2].
    split.
    + intros Hin. destruct (get_component p nm) as [c|] eqn:Eg.
      * exists c. split; [reflexivity|]. destruct (H1 c eq_refl) as (_ & _ & _ & Hn & _).
        exact Hn.
      * exfalso. exact (proj1 H2 eq_refl Hin).
    + intros (c & Hc & Hn). injection Hc as Hc.
      destruct (H1 c Hc) as (pre & post & Hpp & _ & _).
      rewrite Hpp, map_app. apply in_or_app. right. left. exact Hn.
Qed.

(** *** What the methods keep of the pipeline *)

(** [c'] is the component [c], its wrapped object possibly in another
    state; likewise for an objective. *)
Definition same_component (c c' : component) : Prop :=
  c' = Component.with_state c (Component._component_obj c').

Definition same_objective (o o' : objective_t) : Prop :=
  o' = Objective.with_state o (Objective.state o').

(** [p'] is the pipeline [p] up to the states of the wrapped objects and of
    the objective, and up to [input_feature_names]. *)
Definition same_pipeline (p p' : t) : Prop :=
  Forall2 same_component (component_list p) (component_list p') /\
  same_objective (objective p) (objective p') /\
  random_state p' = random_state p /\
  component_names p' = component_names p /\
  name p' = name p /\
  n_jobs p' = n_jobs p /\
  parameters p' = parameters p.

(** The same, with [input_feature_names] and the objective untouched. *)
Definition same_fitted_pipeline (p p' : t) : Prop :=
  same_pipeline p p' /\
  input_feature_names p' = input_feature_names p /\
  objective p' = objective p.

Lemma same_component_refl (c : component) : same_component c c.
Proof. destruct c; reflexivity. Qed.

Lemma same_component_trans (c1 c2 c3 : component) :
  same_component c1 c2 -> same_component c2 c3 -> same_component c1 c3.
Proof. unfold same_component. intros -> ->. reflexivity. Qed.

Lemma same_objective_refl (o : objective_t) : same_objective o o.
Proof. destruct o; reflexivity. Qed.

Lemma same_objective_trans (o1 o2 o3 : objective_t) :
  same_objective o1 o2 -> same_objective o2 o3 -> same_objective o1 o3.
Proof. unfold same_objective. intros -> ->. reflexivity. Qed.

Lemma same_components_refl (l : list component) : Forall2 same_component l l.
Proof. induction l; constructor; [apply same_component_refl|assumption]. Qed.

Lemma same_components_trans (l1 l2 l3 : list component) :
  Forall2 same_component l1 l2 -> Forall2 same_component l2 l3 ->
  Forall2 same_component l1 l3.
Proof.
  intros H. revert l3. induction H as [|c1 c2 l1 l2 Hc _ IH]; intros l3 H'.
  - inversion H'. constructor.
  - inversion H' as [|? c3 ? l3' Hc' Hl']; subst. constructor.
    + eapply same_component_trans; eassumption.
    + now apply IH.
Qed.

Lemma same_components_set (l : list component) (i : nat) (c : component) (st : fitted) :
  nth_error l i = Some c ->
  Forall2 same_component l (list_set l i (Component.with_state c st)).
Proof.
  revert i. induction l as [|a l IH]; intros [|i]; simpl; try discriminate.
  - intros H; injection H as ->. constructor; [reflexivity|apply same_components_refl].
  - intros H. constructor; [apply same_component_refl|now apply IH].
Qed.

Lemma same_components_attributes (l l' : list component) :
  Forall2 same_component l l' ->
  map Component.name l' = map Component.name l /\
  map Component.is_Estimator l' = map Component.is_Estimator l /\
  map Component.parameters l' = map Component.parameters l.
Proof.
  induction 1 as [|c c' l l' Hc _ (IH1 & IH2 & IH3)]; simpl; [auto|].
  rewrite IH1, IH2, IH3, Hc. auto.
Qed.

Lemma same_pipeline_refl (p : t) : same_pipeline p p.
Proof.
  unfold same_pipeline. repeat split; auto using same_components_refl, same_objective_refl.
Qed.

Lemma same_pipeline_trans (p1 p2 p3 : t) :
  same_pipeline p1 p2 -> same_pipeline p2 p3 -> same_pipeline p1 p3.
Proof.
  intros (Hc & Ho & H1 & H2 & H3 & H4 & H5) (Hc' & Ho' & H1' & H2' & H3' & H4' & H5').
  unfold same_pipeline. repeat split; try congruence.
  - eapply same_components_trans; eassumption.
  - eapply same_objective_trans; eassumption.
Qed.

Lemma same_fitted_pipeline_refl (p : t) : same_fitted_pipeline p p.
Proof. split; [apply same_pipeline_refl|auto]. Qed.

Lemma same_fitted_pipeline_trans (p1 p2 p3 : t) :
  same_fitted_pipeline p1 p2 -> same_fitted_pipeline p2 p3 -> same_fitted_pipeline p1 p3.
Proof.
  intros (H & Hi & Ho) (H' & Hi' & Ho'). split; [|split; congruence].
  eapply same_pipeline_trans; eassumption.
Qed.

(** A relation between the pipeline before and after, kept by every step,
    is kept by the methods. *)
Section Keeps.
Variable R : t -> t -> Prop.
Hypothesis R_refl : forall p, R p p.
Hypothesis R_trans : forall p1 p2 p3, R p1 p2 -> R p2 p3 -> R p1 p3.

Definition keeps {A} (c : M A) : Prop :=
  forall h r h', c h = (r, h') -> R (self h) (self h').

Lemma keeps_bind {A B} (c : M A) (k : A -> M B) :
  keeps c -> (forall x, keeps (k x)) -> keeps (bind c k).
Proof.
  intros Hc Hk h r h' H.
  destruct (bind_inv _ _ _ _ _ H) as [(x & h1 & H1 & H2)|(e & H1 & _)].
  - eapply R_trans; [eapply Hc|eapply Hk]; eassumption.
  - eapply Hc; eassumption.
Qed.

Lemma keeps_pure {A} (c : M A) : (forall h, snd (c h) = h) -> keeps c.
Proof.
  intros Hc h r h' H. specialize (Hc h). rewrite H in Hc. simpl in Hc. subst h'.
  apply R_refl.
Qed.

Lemma keeps_for_fold {A B} (l : list A) (body : B -> A -> M B) (acc : B) :
  (forall acc x, keeps (body acc x)) -> keeps (for_fold l body acc).
Proof.
  intros Hbody. revert acc. induction l as [|x l IH]; intros acc; simpl.
  - apply keeps_pure. reflexivity.
  - apply keeps_bind; [apply Hbody|intros acc'; apply IH].
Qed.

Lemma keeps_component_at i : keeps (component_at i).
Proof.
  apply keeps_pure. intros h. unfold component_at.
  destruct (nth_error (component_list (self h)) i); reflexivity.
Qed.

Hypothesis R_call :
  forall A i m X (f : component -> fitted -> result A * fitted), keeps (call i m X f).

Lemma keeps__transform X : keeps (_transform X).
Proof.
  unfold _transform. apply keeps_bind; [apply keeps_pure; reflexivity|intros n].
  apply keeps_for_fold. intros X_t i. apply R_call.
Qed.

Lemma keeps_predict_proba X : keeps (predict_proba X).
Proof.
  unfold predict_proba, estimator_predict_proba.
  apply keeps_bind; [apply keeps__transform|intros X_t].
  apply keeps_bind.
  - apply keeps_bind; [apply keeps_pure; reflexivity|intros i; apply R_call].
  - intros proba. apply keeps_bind; [apply keeps_pure; reflexivity|intros n].
    destruct (n <=? 2)%nat; apply keeps_pure; reflexivity.
Qed.

Lemma keeps_objective_predict yp X : keeps (objective_predict yp X).
Proof.
  unfold objective_predict.
  apply keeps_bind; [apply keeps_pure; reflexivity|intros o].
  apply keeps_pure; reflexivity.
Qed.

Lemma keeps_predict X : keeps (predict X).
Proof.
  unfold predict, estimator_predict.
  apply keeps_bind; [apply keeps__transform|intros X_t].
  apply keeps_bind; [apply keeps_pure; reflexivity|intros o].
  destruct (Objective.needs_fitting o).
  - apply keeps_bind.
    + destruct (Objective.fit_needs_proba o); [apply keeps_predict_proba|].
      apply keeps_bind; [apply keeps__transform|intros X_t'].
      apply keeps_bind; [apply keeps_pure; reflexivity|intros i; apply R_call].
    + intros yp. destruct (Objective.uses_extra_columns o); apply keeps_objective_predict.
  - apply keeps_bind; [apply keeps_pure; reflexivity|intros i; apply R_call].
Qed.

Lemma keeps_score_step X y loc o : keeps (score_step X y loc o).
Proof.
  unfold score_step. destruct (Objective.score_needs_proba o).
  - apply keeps_bind.
    + destruct (y_predicted_proba loc); [apply keeps_pure; reflexivity|].
      apply keeps_predict_proba.
    + intros proba. apply keeps_bind; [apply keeps_pure; reflexivity|intros s].
      apply keeps_pure; reflexivity.
  - apply keeps_bind.
    + destruct (y_predicted loc); [apply keeps_pure; reflexivity|].
      apply keeps_predict.
    + intros pred. apply keeps_bind; [apply keeps_pure; reflexivity|intros s].
      apply keeps_pure; reflexivity.
Qed.

Lemma keeps_score X y others : keeps (score X y others).
Proof.
  unfold score.
  apply keeps_bind; [apply keeps_pure; reflexivity|intros objs].
  apply keeps_bind; [apply keeps_pure; reflexivity|intros o].
  apply keeps_bind; [apply keeps_for_fold; intros; apply keeps_score_step|intros loc].
  destruct objs; (apply keeps_bind; [apply keeps_pure; reflexivity|intros s0]);
    apply keeps_pure; reflexivity.
Qed.

Hypothesis R_names : forall nm cols, keeps (update_input_feature_names nm cols).
Hypothesis R_objective_fit : forall yp yt X, keeps (objective_fit yp yt X).

Lemma keeps__fit X y : keeps (_fit X y).
Proof.
  unfold _fit.
  apply keeps_bind; [apply keeps_pure; reflexivity|intros n].
  apply keeps_bind.
  - apply keeps_for_fold. intros X_t i.
    apply keeps_bind; [apply keeps_component_at|intros c].
    apply keeps_bind; [apply R_names|intros _].
    destruct (Component._needs_fitting c); apply R_call.
  - intros X_t.
    apply keeps_bind; [apply keeps_component_at|intros c].
    apply keeps_bind; [apply R_names|intros _]. apply R_call.
Qed.

Lemma keeps_fit X y size : keeps (fit X y size).
Proof.
  unfold fit.
  apply keeps_bind; [apply keeps_pure; reflexivity|intros o].
  apply keeps_bind.
  - destruct (Objective.needs_fitting o); [|apply keeps_pure; reflexivity].
    apply keeps_bind; [apply keeps_pure; reflexivity|intros seed].
    apply keeps_bind; [apply keeps_pure; reflexivity|intros s].
    apply keeps_pure; reflexivity.
  - intros held_out. apply keeps_bind; [apply keeps__fit|intros _].
    apply keeps_bind; [apply keeps_pure; reflexivity|intros o'].
    destruct (Objective.needs_fitting o'); [|apply keeps_pure; reflexivity].
    destruct held_out as [[[[X_train X_objective] y_train] y_objective]|];
      [|apply keeps_pure; reflexivity].
    apply keeps_bind.
    + destruct (Objective.fit_needs_proba o'); [apply keeps_predict_proba|apply keeps_predict].
    + intros yp. destruct (Objective.uses_extra_columns o'); apply R_objective_fit.
Qed.
End Keeps.

Lemma call_same_fitted_pipeline A i m X (f : component -> fitted -> result A * fitted) :
  keeps same_fitted_pipeline (call i m X f).
Proof.
  intros h r h' H. unfold call in H.
  destruct (nth_error (component_list (self h)) i) as [c|] eqn:E.
  - destruct (f c (Component._component_obj c)) as [r' st].
    injection H as <- <-. cbn.
    split; [|split; reflexivity].
    unfold same_pipeline; cbn. repeat split; auto using same_objective_refl.
    now apply same_components_set.
  - injection H as <- <-. apply same_fitted_pipeline_refl.
Qed.

Lemma call_same_pipeline A i m X (f : component -> fitted -> result A * fitted) :
  keeps same_pipeline (call i m X f).
Proof.
  intros h r h' H. now apply (call_same_fitted_pipeline A i m X f h r h').
Qed.

Lemma names_same_pipeline nm cols :
  keeps same_pipeline (update_input_feature_names nm cols).
Proof.
  intros h r h' H. unfold update_input_feature_names in H. injection H as <- <-.
  unfold same_pipeline; cbn.
  repeat split; auto using same_components_refl, same_objective_refl.
Qed.

Lemma objective_fit_same_pipeline yp yt X :
  keeps same_pipeline (objective_fit yp yt X).
Proof.
  intros h r h' H. unfold objective_fit in H.
  destruct (Objective.fit _ _ yp yt X) as [r' st]. injection H as <- <-.
  unfold same_pipeline; cbn. repeat split; auto using same_components_refl.
Qed.

(** X8: Whatever [fit] does, returning or raising, it neither adds, removes,
    reorders nor replaces a component, and it leaves the pipeline's name,
    parameters, component names, seed and job count alone: only the states
    of the wrapped objects and of the objective (and the recorded feature
    names) change.  In particular the components keep their names and
    their kinds, so the last one is still the estimator. *)
Theorem fit_keeps_the_pipeline
    (X : table scalar) (y : target scalar) (size : scalar) (h : heap) :
  same_pipeline (self h) (self (snd (fit X y size h))) /\
  map Component.name (component_list (self (snd (fit X y size h))))
  = map Component.name (component_list (self h)) /\
  map Component.is_Estimator (component_list (self (snd (fit X y size h))))
  = map Component.is_Estimator (component_list (self h)).
Proof.
  assert (H : same_pipeline (self h) (self (snd (fit X y size h)))).
  { destruct (fit X y size h) as [r h'] eqn:E. cbn [snd].
    exact (keeps_fit same_pipeline same_pipeline_refl same_pipeline_trans
             call_same_pipeline names_same_pipeline objective_fit_same_pipeline
             X y size h r h' E). }
  split; [exact H|].
  destruct H as (Hc & _). destruct (same_components_attributes _ _ Hc) as (Hn & He & _).
  auto.
Qed.

(** X9: [predict], [predict_proba] and [score], returning or raising, change
    nothing of the pipeline but the states of the wrapped objects: the
    recorded feature names and the objective are untouched as well. *)
Theorem predictions_and_scores_keep_the_fitted_pipeline
    (X : table scalar) (y : target scalar) (others : option (list objective_ref))
    (h : heap) :
  same_fitted_pipeline (self h) (self (snd (predict X h))) /\
  same_fitted_pipeline (self h) (self (snd (predict_proba X h))) /\
  same_fitted_pipeline (self h) (self (snd (score X y others h))).
Proof.
  split; [|split].
  - destruct (predict X h) as [r h'] eqn:E.
    exact (keeps_predict same_fitted_pipeline same_fitted_pipeline_refl
             same_fitted_pipeline_trans call_same_fitted_pipeline X h r h' E).
  - destruct (predict_proba X h) as [r h'] eqn:E.
    exact (keeps_predict_proba same_fitted_pipeline same_fitted_pipeline_refl
             same_fitted_pipeline_trans call_same_fitted_pipeline X h r h' E).
  - destruct (score X y others h) as [r h'] eqn:E.
    exact (keeps_score same_fitted_pipeline same_fitted_pipeline_refl
             same_fitted_pipeline_trans call_same_fitted_pipeline X y others h r h' E).
Qed.

(** *** predict_proba on fewer than two columns *)

(** X10: When the estimator's probability output is one-dimensional or has fewer
    than two columns, [predict_proba] raises an [IndexError]: on
    [proba.shape[1]] in the first case, on [proba[:, 1]] in the second. *)
Theorem predict_proba_raises_below_two_columns
    (X : table scalar) (h h' : heap) (proba : ndarray scalar) :
  estimator_probabilities X h = (Ok proba, h') ->
  match proba with
  | Arr1 _ => True
  | Arr2 ncols _ => ncols < 2
  end ->
  exists msg, predict_proba X h = (Raise (IndexError msg), h').
Proof.
  intros H Hshape. rewrite (predict_proba_post _ _ _ _ H).
  destruct proba as [v|ncols rows]; cbn [shape1]; [eauto|].
  destruct (Nat.leb_spec ncols 2); [|lia]. cbn [column1].
  destruct (Nat.ltb_spec 1 ncols); [lia|eauto].
Qed.

(** *** score when objectives share a name *)

Lemma od_get_app {V} (l1 l2 : odict V) (k : string) :
  od_get (l1 ++ l2) k = match od_get l1 k with Some v => Some v | None => od_get l2 k end.
Proof.
  induction l1 as [|[k' v'] l1 IH]; simpl; [reflexivity|].
  destruct (String.eqb k' k); [reflexivity|exact IH].
Qed.

Lemma od_get_None {V} (l : odict V) (k : string) :
  od_get l k = None <-> ~ In k (map fst l).
Proof.
  induction l as [|[k' v'] l IH]; simpl; [tauto|].
  destruct (String.eqb_spec k' k) as [->|Hne].
  - split; [discriminate|]. intros H. exfalso. apply H. now left.
  - rewrite IH. split; intros H; [intros [H'|H']; auto|auto].
Qed.

(** Looking a key up after an update: the last of the new items bearing the
    key, and the old entry when there is none. *)
Lemma od_get_update {V} (items d : odict V) (k : string) :
  od_get (od_update d items) k
  = match od_get (rev items) k with Some v => Some v | None => od_get d k end.
Proof.
  revert d. induction items as [|[k0 v0] items IH]; intros d; [reflexivity|].
  change (od_update d ((k0, v0) :: items)) with (od_update (od_set d k0 v0) items).
  rewrite IH. simpl rev. rewrite od_get_app.
  destruct (od_get (rev items) k); [reflexivity|]. simpl.
  destruct (String.eqb_spec k0 k) as [->|Hne].
  - apply od_get_set_same.
  - apply od_get_set_other. congruence.
Qed.

Lemma od_set_keys_fresh_or_not {V} (d : odict V) (k : string) (v : V) :
  map fst (od_set d k v) = map fst d \/
  (~ In k (map fst d) /\ map fst (od_set d k v) = map fst d ++ [k]).
Proof.
  induction d as [|[k' v'] d IH]; simpl; [right; auto|].
  destruct (String.eqb_spec k' k) as [->|Hne]; [now left|].
  destruct IH as [IH|[Hn IH]]; simpl; rewrite IH; [now left|right].
  split; [|reflexivity]. intros [H|H]; auto.
Qed.

Lemma od_update_keys {V} (items d : odict V) :
  NoDup (map fst d) ->
  NoDup (map fst (od_update d items)) /\
  forall k, In k (map fst (od_update d items)) <-> In k (map fst d) \/ In k (map fst items).
Proof.
  revert d. induction items as [|[k0 v0] items IH]; intros d Hnd.
  - split; [exact Hnd|]. simpl. tauto.
  - change (od_update d ((k0, v0) :: items)) with (od_update (od_set d k0 v0) items).
    destruct (od_set_keys_fresh_or_not d k0 v0) as [Hk|[Hfresh Hk]].
    + destruct (IH (od_set d k0 v0)) as [H1 H2]; [now rewrite Hk|].
      split; [exact H1|]. intros k. rewrite H2, Hk. simpl.
      assert (In k0 (map fst d)).
      { destruct (in_dec string_dec k0 (map fst d)) as [Hin|Hout]; [exact Hin|].
        rewrite od_set_fresh, map_app in Hk by exact Hout. simpl in Hk.
        apply (f_equal (@length string)) in Hk. rewrite length_app in Hk.
        simpl in Hk. lia. }
      split; [intros [?|?]; auto|intros [?|[<-|?]]; auto].
    + destruct (IH (od_set d k0 v0)) as [H1 H2].
      { rewrite Hk. apply NoDup_app; [exact Hnd|repeat constructor; intros []|].
        intros x Hx [<-|[]]. contradiction. }
      split; [exact H1|]. intros k. rewrite H2, Hk, in_app_iff. simpl. tauto.
Qed.

Lemma last_scored_by_name (X : table scalar) (y : target scalar)
    (objs : list objective_t) (ss : list scalar) (k : string) (v : scalar) :
  Forall2 (scored_by X y) objs ss ->
  od_get (rev (combine (map Objective.name objs) ss)) k = Some v ->
  exists pre o post,
    objs = pre ++ o :: post /\
    Objective.name o = k /\
    ~ In k (map Objective.name post) /\
    scored_by X y o v.
Proof.
  induction 1 as [|o s objs ss Hs Hall IH]; [discriminate|].
  simpl. rewrite od_get_app.
  destruct (od_get (rev (combine (map Objective.name objs) ss)) k) as [v'|] eqn:E.
  - intros H. injection H as ->.
    destruct (IH eq_refl) as (pre & o' & post & -> & Hn & Hp & Hv).
    exists (o :: pre), o', post. auto.
  - simpl. destruct (String.eqb_spec (Objective.name o) k) as [Hn|Hn]; [|discriminate].
    intros H. injection H as <-.
    exists [], o, objs. repeat split; auto.
    apply od_get_None in E. rewrite map_rev in E.
    destruct (combine_names_scores _ _ _ _ Hall) as [Hk _]. rewrite Hk in E.
    intros Hin. apply E. now apply in_rev in Hin.
Qed.

Lemma score_returns_OrderedDict (X : table scalar) (y : target scalar)
    (others : option (list objective_ref)) (objs : list objective_t) (h h' : heap)
    (primary : scalar) (other_scores : odict scalar) :
  mapM get_objective (match others with Some l => l | None => [] end) = Ok objs ->
  score X y others h = (Ok (primary, other_scores), h') ->
  exists ss,
    Forall2 (scored_by (if isinstance_DataFrame X then X else pd_DataFrame X)
                       (if isinstance_Series y then y else pd_Series y)) objs ss /\
    other_scores = OrderedDict (combine (map Objective.name objs) ss).
Proof.
  intros Hm H. unfold score in H.
  unfold bind at 1, lift at 1 in H. rewrite Hm in H.
  unfold bind at 1, gets in H.
  destruct (bind_inv _ _ _ _ _ H) as [(loc & h2 & H3 & H4)|(e & _ & He)];
    [|discriminate].
  apply score_loop_spec in H3. destruct H3 as [_ Hok].
  destruct (Hok loc eq_refl) as (ss & Hss & Hall). simpl in Hss.
  rewrite Hss in H4. clear Hss Hok.
  inversion Hall as [|o s objs' rest Hs Hrest]; subst.
  exists rest. split; [exact Hrest|].
  cbn [index_first tl] in H4.
  destruct objs as [|o1 objs];
    unfold bind, lift, ret in H4; injection H4 as _ <- _.
  - inversion Hrest. reflexivity.
  - reflexivity.
Qed.

(** X11: Whatever the additional objectives, also when some share a name: the
    mapping [score] returns has pairwise distinct keys, its keys are the
    names requested, and the entry under a name holds a score of the last
    objective requested under that name. *)
Theorem score_keeps_last_score_per_name
    (X : table scalar) (y : target scalar) (others : option (list objective_ref))
    (objs : list objective_t) (h h' : heap)
    (primary : scalar) (other_scores : odict scalar) :
  mapM get_objective (match others with Some l => l | None => [] end) = Ok objs ->
  score X y others h = (Ok (primary, other_scores), h') ->
  NoDup (map fst other_scores) /\
  (forall k, In k (map fst other_scores) <-> In k (map Objective.name objs)) /\
  (forall k v, od_get other_scores k = Some v ->
     exists pre o post,
       objs = pre ++ o :: post /\
       Objective.name o = k /\
       ~ In k (map Objective.name post) /\
       scored_by (if isinstance_DataFrame X then X else pd_DataFrame X)
                 (if isinstance_Series y then y else pd_Series y) o v).
Proof.
  intros Hm H.
  destruct (score_returns_OrderedDict _ _ _ _ _ _ _ _ Hm H) as (ss & Hall & ->).
  destruct (combine_names_scores _ _ _ _ Hall) as [Hk _].
  destruct (od_update_keys (combine (map Objective.name objs) ss) [])
    as [Hnd Hkeys]; [constructor|].
  unfold OrderedDict. split; [exact Hnd|]. split.
  - intros k. rewrite Hkeys, Hk. simpl.
    split; [intros [[]|Hin]; exact Hin|intros Hin; right; exact Hin].
  - intros k v Hv. rewrite od_get_update in Hv. simpl in Hv.
    destruct (od_get (rev (combine (map Objective.name objs) ss)) k) as [v'|] eqn:E;
      [|discriminate].
    injection Hv as ->. eapply last_scored_by_name; eassumption.
Qed.

(** *** The feature names [_fit] records *)

Lemma fit_chain_first_seen (y : target scalar) (i : nat) (c : component)
    (cs : list component) (X : table scalar) :
  hd_error (seen (chain (fit_step y) i (c :: cs) X))
  = Some (Component.name c, columns_of (pd_DataFrame X)).
Proof.
  cbn [chain]. destruct (fst (s_out (fit_step y c X))); reflexivity.
Qed.

Lemma _fit_Ok_records (h h' : heap) (ts : list component) (est : component)
    (X : table scalar) (y : target scalar) :
  component_list (self h) = ts ++ [est] ->
  _fit X y h = (Ok tt, h') ->
  exists X_t,
    out (chain (fit_step y) 0 ts X) = Ok X_t /\
    input_feature_names (self h')
    = od_update (input_feature_names (self h))
        (seen (chain (fit_step y) 0 ts X) ++
         [(Component.name est, columns_of (pd_DataFrame X_t))]) /\
    component_list (self h')
    = after (chain (fit_step y) 0 ts X) ++
      [Component.with_state est
         (snd (Component.fit est (Component._component_obj est) X_t y))].
Proof.
  intros Hcl H. rewrite (_fit_is_chain h ts est X y Hcl) in H. cbn zeta in H.
  destruct (out (chain (fit_step y) 0 ts X)) as [X_t|e]; [|discriminate].
  injection H as _ <-. exists X_t. repeat split.
Qed.

(** X12: On a pipeline that has recorded nothing yet and whose components bear
    pairwise distinct names, a successful [_fit] leaves exactly one entry
    per component in [input_feature_names], in list order, and the first
    entry holds the columns of the training features themselves. *)
Theorem _fit_records_one_entry_per_component
    (h h' : heap) (ts : list component) (est first : component)
    (X : table scalar) (y : target scalar) :
  component_list (self h) = ts ++ [est] ->
  hd_error (ts ++ [est]) = Some first ->
  input_feature_names (self h) = [] ->
  NoDup (map Component.name (ts ++ [est])) ->
  _fit X y h = (Ok tt, h') ->
  map fst (input_feature_names (self h')) = map Component.name (ts ++ [est]) /\
  hd_error (input_feature_names (self h'))
  = Some (Component.name first, columns_of (pd_DataFrame X)).
Proof.
  intros Hcl Hfirst Hempty Hnd H.
  destruct (_fit_Ok_records _ _ _ _ _ _ Hcl H) as (X_t & Hout & Hifn & _).
  destruct (fit_chain_complete y 0 ts X X_t Hout) as (Hnames & _ & _).
  assert (Hkeys : map fst (seen (chain (fit_step y) 0 ts X) ++
                           [(Component.name est, columns_of (pd_DataFrame X_t))])
                  = map Component.name (ts ++ [est])).
  { rewrite !map_app, Hnames. reflexivity. }
  rewrite Hifn, Hempty, od_update_fresh by (simpl; rewrite Hkeys; exact Hnd).
  simpl. split; [exact Hkeys|].
  destruct ts as [|c ts]; simpl in Hfirst; injection Hfirst as <-.
  - simpl in Hout. injection Hout as <-. reflexivity.
  - pose proof (fit_chain_first_seen y 0 c ts X) as Hhd.
    destruct (seen (chain (fit_step y) 0 (c :: ts) X)); [discriminate|exact Hhd].
Qed.

(** *** feature_importances *)

(** [estimator.feature_importances] is a property of [Estimator], defined
    elsewhere: a parameter, read off the (fitted) estimator.  The
    importances are numbers: rationals, on which negation, [abs] and [<] are
    what they are on (finite) floats. *)
Variable estimator_feature_importances : component -> result (list Q).

(** [key=lambda x: -abs(x[1])] *)
Definition sort_key (x : label * Q) : Q := (- Qabs (snd x))%Q.

(** [a < b], the comparison [sort] makes between keys. *)
Definition key_lt (a b : Q) : bool := negb (Qle_bool b a).

(** [importances.sort(key=...)]: a stable sort into ascending order of the
    keys ([sort] moves an item past another only when its key is smaller). *)
Fixpoint insert_by_key (x : label * Q) (l : list (label * Q)) : list (label * Q) :=
  match l with
  | [] => [x]
  | y :: l' =>
      if key_lt (sort_key y) (sort_key x)
      then y :: insert_by_key x l'
      else x :: y :: l'
  end.

Definition sort_by_key (l : list (label * Q)) : list (label * Q) :=
  fold_right insert_by_key [] l.

(** The property [feature_importances]: the rows of the frame it returns
    (columns "feature" and "importance").  [zip] stops at the shorter of
    its arguments; a missing key is a [KeyError], one of the other
    exception classes. *)
Definition feature_importances (p : t) : result (list (label * Q)) :=
  match index_last (component_list p) with
  | Raise e => Raise e
  | Ok estimator =>
      match od_get (input_feature_names p) (Component.name estimator) with
      | None => Raise (OtherError "KeyError")
      | Some feature_names =>
          match estimator_feature_importances estimator with
          | Raise e => Raise e
          | Ok importances => Ok (sort_by_key (combine feature_names importances))
          end
      end
  end.








(** X13: A constructed pipeline that was never fitted has recorded no feature
    names: asking it for the feature importances raises [KeyError]. *)
Theorem feature_importances_before_fit_raises_KeyError
    (objective : objective_ref) (cl : list component_ref)
    (n_jobs random_state : pyval) (kwargs : odict pyval) (p : t) :
  __init__ objective cl n_jobs random_state kwargs = Ok p ->
  feature_importances p = Raise (OtherError "KeyError").
Proof.
  intros H. destruct (init_invariant _ _ _ _ _ _ H) as (front & est & Hcl & _ & _ & Hifn).
  unfold feature_importances. now rewrite Hcl, index_last_app, Hifn.
Qed.


(** What the last of several components is handed. *)
Lemma chain_snoc step (i : nat) (cs : list component) (c : component)
    (X Y : table scalar) :
  out (chain step i (cs ++ [c]) X) = Ok Y ->
  exists X', out (chain step i cs X) = Ok X' /\ fst (s_out (step c X')) = Ok Y.
Proof.
  revert i X. induction cs as [|c0 cs IH]; intros i X; cbn [app chain].
  - destruct (fst (s_out (step c X))) as [X'|e] eqn:E; cbn [out]; [|discriminate].
    intros H. injection H as <-. exists X. auto.
  - destruct (fst (s_out (step c0 X))) as [X'|e]; cbn [out]; [apply IH|discriminate].
Qed.

(** After a successful [_fit] the entry under the estimator's name holds the
    columns of the features the estimator was fitted on. *)
Lemma _fit_Ok_estimator_entry (h h' : heap) (ts : list component) (est : component)
    (X : table scalar) (y : target scalar) :
  component_list (self h) = ts ++ [est] ->
  _fit X y h = (Ok tt, h') ->
  exists X_t,
    out (chain (fit_step y) 0 ts X) = Ok X_t /\
    od_get (input_feature_names (self h')) (Component.name est)
    = Some (columns_of (pd_DataFrame X_t)).
Proof.
  intros Hcl H.
  destruct (_fit_Ok_records _ _ _ _ _ _ Hcl H) as (X_t & Hout & Hifn & _).
  exists X_t. split; [exact Hout|].
  rewrite Hifn, od_get_update, rev_app_distr. simpl.
  now rewrite String.eqb_refl.
Qed.

(** *** _transform calls each transformer once *)

Lemma transform_chain_complete (i : nat) (cs : list component) (X X_t : table scalar) :
  out (chain transform_step i cs X) = Ok X_t ->
  map ev_index (made (chain transform_step i cs X)) = seq i (length cs) /\
  Forall (fun e => ev_method e = m_transform) (made (chain transform_step i cs X)).
Proof.
  revert i X. induction cs as [|c cs IH]; intros i X; cbn [chain].
  - intros _. split; constructor.
  - destruct (fst (s_out (transform_step c X))) as [X'|e]; cbn [out made];
      [|discriminate].
    intros H. destruct (IH _ _ H) as (Hi & Hm).
    cbn [map length seq ev_index]. rewrite Hi. split; [reflexivity|].
    constructor; [reflexivity|exact Hm].
Qed.

(** X15: On a pipeline of transformers followed by an estimator, a [_transform]
    that returns has called [transform] once on each transformer, in list
    order, and nothing else: the estimator is the object it was, and no
    feature name was recorded. *)
Theorem _transform_calls_each_transformer_once
    (h h' : heap) (ts : list component) (est : component) (X X_t : table scalar) :
  component_list (self h) = ts ++ [est] ->
  _transform X h = (Ok X_t, h') ->
  map ev_index (new_calls h h') = seq 0 (length ts) /\
  Forall (fun e => ev_method e = m_transform) (new_calls h h') /\
  index_last (component_list (self h')) = Ok est /\
  input_feature_names (self h') = input_feature_names (self h).
Proof.
  intros Hcl H. rewrite (_transform_is_chain h ts est X Hcl) in H. cbn zeta in H.
  injection H as Hout <-.
  destruct (transform_chain_complete 0 ts X X_t Hout) as (Hi & Hm).
  rewrite (new_calls_app h _ (made (chain transform_step 0 ts X))) by reflexivity.
  cbn [self set_component_list component_list input_feature_names].
  rewrite index_last_app. auto.
Qed.

(** *** fit with an objective that needs fitting *)

(** The second half of [fit]: the objective is fitted on what the pipeline
    predicts for the held-out part. *)
Definition fit_objective_on_held_out (X_objective : table scalar)
    (y_objective : target scalar) : M unit :=
  o <- gets objective ;;
  y_predicted <-
    (if Objective.fit_needs_proba o
     then predict_proba X_objective
     else predict X_objective) ;;
  if Objective.uses_extra_columns o
  then objective_fit y_predicted y_objective (Some X_objective)
  else objective_fit y_predicted y_objective None.

(** X16: When the objective needs fitting, [fit] splits the data first: if the
    split raises, no component is touched; otherwise the components are
    fitted on the training part alone, and then, if that succeeded, the
    objective is fitted on the predictions for the held-out part alone. *)
Theorem fit_trains_on_one_part_and_tunes_on_the_other
    (X : table scalar) (y : target scalar) (size : scalar) (h : heap) :
  Objective.needs_fitting (objective (self h)) = true ->
  let X' := if isinstance_DataFrame X then X else pd_DataFrame X in
  let y' := if isinstance_Series y then y else pd_Series y in
  (forall e,
     train_test_split X' y' size (random_state (self h)) = Raise e ->
     fit X y size h = (Raise e, h)) /\
  (forall X_train X_objective y_train y_objective,
     train_test_split X' y' size (random_state (self h))
     = Ok (X_train, X_objective, y_train, y_objective) ->
     fit X y size h
     = (_fit X_train y_train ;;; fit_objective_on_held_out X_objective y_objective) h).
Proof.
  intros Hnf X' y'. split.
  - intros e He. unfold fit. fold X' y'.
    unfold bind at 1, gets at 1. rewrite Hnf.
    unfold bind at 1. unfold bind at 1, gets at 1. unfold bind at 1, lift.
    now rewrite He.
  - intros X_train X_objective y_train y_objective Hs. unfold fit. fold X' y'.
    unfold bind at 1, gets at 1. rewrite Hnf.
    unfold bind at 1. unfold bind at 1, gets at 1. unfold bind at 1, lift.
    rewrite Hs. unfold ret at 1. cbn iota beta.
    unfold bind at 1. unfold bind at 3.
    destruct (_fit X_train y_train h) as [[[]|e] h1] eqn:E; [|reflexivity].
    assert (Ho : objective (self h1) = objective (self h))
      by (eapply within__fit; exact E).
    unfold fit_objective_on_held_out, bind, gets. cbn beta.
    rewrite Ho, Hnf. reflexivity.
Qed.

(** *** The calls [predict] makes *)

(** A call without its argument: which component, which method. *)
Definition trace (evs : list event) : list (nat * method) :=
  map (fun e => (ev_index e, ev_method e)) evs.

(** [transform] on each of the first [n] components, in order. *)
Definition transforms (n : nat) : list (nat * method) :=
  map (fun i => (i, m_transform)) (seq 0 n).

Lemma transform_chain_trace (i : nat) (cs : list component) (X X_t : table scalar) :
  out (chain transform_step i cs X) = Ok X_t ->
  trace (made (chain transform_step i cs X))
  = map (fun i => (i, m_transform)) (seq i (length cs)).
Proof.
  revert i X. induction cs as [|c cs IH]; intros i X; cbn [chain].
  - reflexivity.
  - destruct (fst (s_out (transform_step c X))) as [X'|e]; cbn [out made];
      [|discriminate].
    intros H. unfold trace in *. cbn [map length seq ev_index ev_method transform_step s_method].
    now rewrite (IH _ _ H).
Qed.

Lemma _transform_Ok_trace (h h1 : heap) (ts : list component) (est : component)
    (X X_t : table scalar) :
  component_list (self h) = ts ++ [est] ->
  _transform X h = (Ok X_t, h1) ->
  exists ts1 evs,
    component_list (self h1) = ts1 ++ [est] /\
    length ts1 = length ts /\
    objective (self h1) = objective (self h) /\
    calls h1 = calls h ++ evs /\
    trace evs = transforms (length ts).
Proof.
  intros Hcl H. rewrite (_transform_is_chain h ts est X Hcl) in H. cbn zeta in H.
  injection H as Hout <-.
  exists (after (chain transform_step 0 ts X)), (made (chain transform_step 0 ts X)).
  cbn [self calls set_component_list component_list objective].
  split; [reflexivity|]. split; [apply chain_after_length|].
  split; [reflexivity|]. split; [reflexivity|].
  exact (transform_chain_trace 0 ts X X_t Hout).
Qed.

Lemma estimator_predict_trace (h h' : heap) (ts : list component) (est : component)
    (X : table scalar) (r : result (ndarray scalar)) :
  component_list (self h) = ts ++ [est] ->
  estimator_predict X h = (r, h') ->
  calls h' = calls h ++ [{| ev_index := length ts; ev_method := m_predict; ev_input := X |}].
Proof.
  intros Hcl. unfold estimator_predict, bind, gets, estimator_index, call.
  rewrite Hcl, length_but_last, nth_error_middle.
  destruct (Component.predict est (Component._component_obj est) X) as [r0 st].
  intros H. injection H as _ <-. reflexivity.
Qed.

Lemma estimator_predict_proba_trace (h h' : heap) (ts : list component) (est : component)
    (X : table scalar) (r : result (ndarray scalar)) :
  component_list (self h) = ts ++ [est] ->
  estimator_predict_proba X h = (r, h') ->
  calls h' = calls h ++
             [{| ev_index := length ts; ev_method := m_predict_proba; ev_input := X |}].
Proof.
  intros Hcl. unfold estimator_predict_proba, bind, gets, estimator_index, call.
  rewrite Hcl, length_but_last, nth_error_middle.
  destruct (Component.predict_proba est (Component._component_obj est) X) as [r0 st].
  intros H. injection H as _ <-. reflexivity.
Qed.

Lemma predict_proba_Ok_trace (h h' : heap) (ts : list component) (est : component)
    (X : table scalar) (r : ndarray scalar) :
  component_list (self h) = ts ++ [est] ->
  predict_proba X h = (Ok r, h') ->
  exists evs,
    calls h' = calls h ++ evs /\
    trace evs = transforms (length ts) ++ [(length ts, m_predict_proba)].
Proof.
  intros Hcl H. unfold predict_proba in H.
  destruct (bind_inv _ _ _ _ _ H) as [(X_t & h1 & H1 & H2)|(e & _ & He)];
    [|discriminate].
  destruct (_transform_Ok_trace _ _ _ _ _ _ Hcl H1)
    as (ts1 & evs1 & Hcl1 & Hlen1 & _ & Hc1 & Ht1).
  destruct (bind_inv _ _ _ _ _ H2) as [(proba & h2 & H3 & H4)|(e & _ & He)];
    [|discriminate].
  pose proof (estimator_predict_proba_trace _ _ _ _ _ _ Hcl1 H3) as Hc2.
  assert (Hh : h' = h2).
  { unfold bind, lift, ret in H4. destruct (shape1 proba) as [n|e].
    - destruct (n <=? 2)%nat; now injection H4.
    - now injection H4. }
  subst h'. eexists. split.
  - rewrite Hc2, Hc1, <- app_assoc. reflexivity.
  - unfold trace in *. rewrite map_app, Ht1, Hlen1. reflexivity.
Qed.

(** X18: The calls of a [predict] that returns, on a pipeline of transformers
    followed by an estimator.  Without objective fitting: [transform] on
    each transformer in list order, then the estimator's [predict].  With an
    objective that needs fitting the transformers are walked twice, the
    result of the first walk being dropped, before the estimator's
    [predict], or its [predict_proba] when the objective is fitted on
    probabilities. *)
Theorem predict_walks_transformers_twice_for_fitted_objective
    (h h' : heap) (ts : list component) (est : component)
    (X : table scalar) (r : ndarray scalar) :
  component_list (self h) = ts ++ [est] ->
  predict X h = (Ok r, h') ->
  trace (new_calls h h')
  = if Objective.needs_fitting (objective (self h))
    then transforms (length ts) ++ transforms (length ts) ++
         [(length ts,
           if Objective.fit_needs_proba (objective (self h))
           then m_predict_proba else m_predict)]
    else transforms (length ts) ++ [(length ts, m_predict)].
Proof.
  intros Hcl H. unfold predict in H.
  destruct (bind_inv _ _ _ _ _ H) as [(X_t & h1 & H1 & H2)|(e & _ & He)];
    [|discriminate].
  destruct (_transform_Ok_trace _ _ _ _ _ _ Hcl H1)
    as (ts1 & evs1 & Hcl1 & Hlen1 & Ho1 & Hc1 & Ht1).
  unfold bind at 1, gets at 1 in H2. rewrite Ho1 in H2.
  destruct (Objective.needs_fitting (objective (self h))).
  - destruct (bind_inv _ _ _ _ _ H2) as [(yp & h2 & H3 & H4)|(e & _ & He)];
      [|discriminate].
    assert (Hh : h' = h2).
    { unfold objective_predict, bind, gets, lift in H4.
      destruct (Objective.uses_extra_columns (objective (self h))); now injection H4. }
    subst h'.
    destruct (Objective.fit_needs_proba (objective (self h))).
    + destruct (predict_proba_Ok_trace _ _ _ _ _ _ Hcl1 H3) as (evs2 & Hc2 & Ht2).
      rewrite (new_calls_app h h2 (evs1 ++ evs2))
        by (rewrite Hc2, Hc1, <- app_assoc; reflexivity).
      unfold trace in *. rewrite map_app, Ht1, Ht2, Hlen1. reflexivity.
    + destruct (bind_inv _ _ _ _ _ H3) as [(X_t2 & h3 & H5 & H6)|(e & _ & He)];
        [|discriminate].
      destruct (_transform_Ok_trace _ _ _ _ _ _ Hcl1 H5)
        as (ts2 & evs2 & Hcl2 & Hlen2 & _ & Hc2 & Ht2).
      pose proof (estimator_predict_trace _ _ _ _ _ _ Hcl2 H6) as Hc3.
      rewrite (new_calls_app h h2 (evs1 ++ evs2 ++ [_]))
        by (rewrite Hc3, Hc2, Hc1, <- !app_assoc; reflexivity).
      unfold trace in *. rewrite !map_app, Ht1, Ht2, Hlen2, Hlen1. reflexivity.
  - pose proof (estimator_predict_trace _ _ _ _ _ _ Hcl1 H2) as Hc2.
    rewrite (new_calls_app h h' (evs1 ++ [_]))
      by (rewrite Hc2, Hc1, <- app_assoc; reflexivity).
    unfold trace in *. rewrite map_app, Ht1, Hlen1. reflexivity.
Qed.

(** *** fit without objective fitting *)

(** X17: When the objective does not need fitting, [fit] is [_fit] on all of the
    data: nothing is held out, whatever [objective_fit_size], and the
    objective is the object it was. *)
Theorem fit_without_objective_fitting_holds_nothing_out
    (X : table scalar) (y : target scalar) (size size' : scalar) (h : heap) :
  Objective.needs_fitting (objective (self h)) = false ->
  fit X y size h
  = _fit (if isinstance_DataFrame X then X else pd_DataFrame X)
         (if isinstance_Series y then y else pd_Series y) h /\
  fit X y size' h = fit X y size h /\
  objective (self (snd (fit X y size h))) = objective (self h).
Proof.
  intros Hnf. rewrite !(fit_without_objective_fitting _ _ _ _ Hnf).
  split; [reflexivity|]. split; [reflexivity|].
  destruct (_fit _ _ h) as [r h1] eqn:E. cbn [snd].
  eapply within__fit; exact E.
Qed.

(** *** _fit when a transformer raises *)

Lemma chain_fails_at step (i : nat) (pre : list component) (c : component)
    (post : list component) (X X_k : table scalar) (e : exn) :
  out (chain step i pre X) = Ok X_k ->
  fst (s_out (step c X_k)) = Raise e ->
  out (chain step i (pre ++ c :: post) X) = Raise e /\
  after (chain step i (pre ++ c :: post) X)
  = after (chain step i pre X) ++ Component.with_state c (snd (s_out (step c X_k))) :: post /\
  made (chain step i (pre ++ c :: post) X)
  = made (chain step i pre X) ++
    [{| ev_index := i + length pre; ev_method := s_method (step c X_k); ev_input := X_k |}] /\
  seen (chain step i (pre ++ c :: post) X)
  = seen (chain step i pre X) ++ s_names (step c X_k).
Proof.
  revert i X. induction pre as [|c0 pre IH]; intros i X Hpre Hfail.
  - cbn [chain out] in Hpre. injection Hpre as ->.
    cbn [app chain]. rewrite Hfail. cbn. rewrite Nat.add_0_r. auto.
  - cbn [app chain] in *.
    destruct (fst (s_out (step c0 X))) as [X'|e0]; cbn [out] in Hpre; [|discriminate].
    destruct (IH (S i) X' Hpre Hfail) as (Ho & Ha & Hm & Hs).
    cbn [out after made seen length]. rewrite Ho, Ha, Hm, Hs.
    rewrite Nat.add_succ_r, app_assoc. auto.
Qed.

(** X19: When the transformers before one succeed and that one raises, [_fit]
    raises its exception; no component after it is called or changed, the
    estimator is never fitted; and the columns the failing transformer was
    handed are on record under its name, the record being made before the
    call. *)
Theorem _fit_stops_at_failing_transformer
    (h : heap) (pre : list component) (c : component) (post : list component)
    (est : component) (X X_k : table scalar) (y : target scalar) (e : exn) :
  component_list (self h) = (pre ++ c :: post) ++ [est] ->
  out (chain (fit_step y) 0 pre X) = Ok X_k ->
  fst (s_out (fit_step y c X_k)) = Raise e ->
  fst (_fit X y h) = Raise e /\
  skipn (S (length pre)) (component_list (self (snd (_fit X y h)))) = post ++ [est] /\
  map ev_index (new_calls h (snd (_fit X y h))) = seq 0 (S (length pre)) /\
  od_get (input_feature_names (self (snd (_fit X y h)))) (Component.name c)
  = Some (columns_of (pd_DataFrame X_k)).
Proof.
  intros Hcl Hpre Hfail.
  destruct (chain_fails_at (fit_step y) 0 pre c post X X_k e Hpre Hfail)
    as (Hout & Hafter & Hmade & Hseen).
  destruct (fit_chain_complete y 0 pre X X_k Hpre) as (_ & _ & Hidx).
  rewrite (_fit_is_chain h (pre ++ c :: post) est X y Hcl). cbn zeta.
  rewrite Hout. cbn [fst snd self walked set_input_feature_names set_component_list
                     component_list input_feature_names].
  split; [reflexivity|]. split; [|split].
  - rewrite Hafter, <- app_assoc. cbn [app].
    rewrite skipn_app, skipn_all2 by (rewrite chain_after_length; lia).
    rewrite chain_after_length.
    replace (S (length pre) - length pre) with 1 by lia. reflexivity.
  - rewrite (new_calls_app h _ (made (chain (fit_step y) 0 (pre ++ c :: post) X)))
      by reflexivity.
    rewrite Hmade, map_app, Hidx, seq_S. reflexivity.
  - rewrite Hseen, od_get_update, rev_app_distr. cbn [fit_step s_names rev app od_get].
    now rewrite String.eqb_refl.
Qed.

(** *** score when an objective does not resolve *)

Lemma mapM_first_failure {A B} (f : A -> result B) (pre : list A) (x : A)
    (post : list A) (e : exn) :
  Forall (fun a => exists b, f a = Ok b) pre ->
  f x = Raise e ->
  mapM f (pre ++ x :: post) = Raise e.
Proof.
  intros Hpre Hx. induction Hpre as [|a pre [b Hb] _ IH]; cbn [app mapM].
  - now rewrite Hx.
  - now rewrite Hb, IH.
Qed.

(** X20: The additional objectives are resolved, in the order requested, before
    anything is predicted: when one of them does not resolve (those before
    it do), [score] raises its exception, no component has been called and
    the pipeline is as it was. *)
Theorem score_resolves_objectives_before_predicting
    (X : table scalar) (y : target scalar)
    (pre : list objective_ref) (o : objective_ref) (post : list objective_ref)
    (e : exn) (h : heap) :
  Forall (fun r => exists obj, get_objective r = Ok obj) pre ->
  get_objective o = Raise e ->
  score X y (Some (pre ++ o :: post)) h = (Raise e, h).
Proof.
  intros Hpre Ho. unfold score, bind at 1, lift at 1.
  now rewrite (mapM_first_failure get_objective pre o post e Hpre Ho).
Qed.
End PipelineBase.
Arguments objective {scalar fitted pyval} t.
Arguments trace {scalar} evs.
Arguments computed_once {scalar fitted pyval} X h0 h labels probabilities.
Arguments scored_on {scalar fitted} X y labels probabilities o s.
Arguments random_state {scalar fitted pyval} t.
Arguments component_list {scalar fitted pyval} t.
Arguments component_names {scalar fitted pyval} t.
Arguments input_feature_names {scalar fitted pyval} t.
Arguments name {scalar fitted pyval} t.
Arguments n_jobs {scalar fitted pyval} t.
Arguments parameters {scalar fitted pyval} t.
Arguments relevant_args {pyval} args kwargs.
Arguments set_jobs_and_seed {pyval} kwargs n_jobs random_state.
Arguments _instantiate_components {scalar fitted pyval} component_list n_jobs random_state kwargs.
Arguments _generate_name {scalar fitted pyval} estimator component_list.
Arguments generate_name {scalar fitted pyval component_ref} handle_component component_list.
Arguments collect_parameters {scalar fitted pyval} component_list.
Arguments __init__ {scalar fitted pyval objective_ref component_ref}
  get_objective handle_component objective component_list n_jobs random_state kwargs.
Arguments ev_index {scalar} e.
Arguments ev_method {scalar} e.
Arguments ev_input {scalar} e.
Arguments self {scalar fitted pyval} h.
Arguments calls {scalar fitted pyval} h.
Arguments _transform {scalar fitted pyval} X.
Arguments _fit {scalar fitted pyval} X y.
Arguments predict_proba {scalar fitted pyval} X.
Arguments predict {scalar fitted pyval} X.
Arguments fit {scalar fitted pyval} train_test_split X y objective_fit_size.
Arguments score {scalar fitted pyval objective_ref} get_objective X y other_objectives.
Arguments expected_name {scalar fitted pyval} transformers estimator.
Arguments out {scalar fitted pyval} c.
Arguments s_out {scalar fitted} s.
Arguments after {scalar fitted pyval} c.
Arguments made {scalar fitted pyval} c.
Arguments seen {scalar fitted pyval} c.
Arguments chain {scalar fitted pyval} step i cs X.
Arguments transform_step {scalar fitted pyval} c X.
Arguments fit_step {scalar fitted pyval} y c X.
Arguments direct_estimator_predict {scalar fitted pyval} p X.
Arguments count_calls {scalar} m evs.
Arguments new_calls {scalar fitted pyval} h h'.
Arguments predicts_through_proba {scalar fitted} o.
Arguments estimator_probabilities {scalar fitted pyval} X.
Arguments offered_args {scalar fitted pyval} c n_jobs random_state kwargs.
Arguments get_component {scalar fitted pyval} p nm.
Arguments __getitem__ {scalar fitted pyval} p index.
Arguments __setitem__ {scalar fitted pyval} p index value.
Arguments same_component {scalar fitted pyval} c c'.
Arguments same_objective {scalar fitted} o o'.
Arguments same_pipeline {scalar fitted pyval} p p'.
Arguments same_fitted_pipeline {scalar fitted pyval} p p'.
Arguments feature_importances {scalar fitted pyval} estimator_feature_importances p.
Arguments fit_objective_on_held_out {scalar fitted pyval} X_objective y_objective.
End PipelineBase.

(** ** lda.py

    The class [LDA(Transformer)].  [Transformer], [is_all_numeric]
    (evalml.utils.gen_utils) and sklearn's [LinearDiscriminantAnalysis] are
    defined elsewhere: what [Transformer.__init__] stores in
    [_needs_fitting], the test [is_all_numeric], and the constructor and the
    three methods of the sklearn object are parameters.  [LDA] defines no
    [predict] and no [predict_proba]. *)
Module LDA.
Section LDA.
Variables scalar fitted pyval : Type.
Variable is_all_numeric : table scalar -> bool.
Variable transformer_needs_fitting : bool.
Variable SkLDA : pyval -> odict pyval -> result fitted.
Variable sk_fit : fitted -> table scalar -> target scalar -> result unit * fitted.
Variable sk_transform : fitted -> table scalar -> result (ndarray scalar) * fitted.
Variable sk_fit_transform :
  fitted -> table scalar -> option (target scalar) -> result (ndarray scalar) * fitted.

(** The defaults [n_components=None] and [random_state=0]. *)
Variables py_None py_zero : pyval.

Definition name : string := "Linear Discriminant Analysis Transformer".

Definition not_numeric_message : string := "LDA input must be all numeric".

(** [len(X.index)] *)
Definition number_of_rows (X : table scalar) : nat :=
  match X with DataFrame _ rows => length rows | ndarray2 _ rows => length rows end.

(** [[f"component_{i}" for i in range(k)]] *)
Definition component_labels (k : nat) : list label :=
  map (fun i => LStr ("component_" ++ NilEmpty.string_of_uint (Nat.to_uint i))%string)
      (seq 0 k).

(** [pd.DataFrame(X_t, index=X.index, columns=[... range(X_t.shape[1])])]:
    the columns are computed first; pandas refuses values whose number of
    rows is not that of the index. *)
Definition frame_like (X : table scalar) (X_t : ndarray scalar) : result (table scalar) :=
  match shape1 X_t with
  | Raise e => Raise e
  | Ok k =>
      match X_t with
      | Arr1 _ => Raise (ValueError "Shape of passed values")
      | Arr2 _ rows =>
          if (length rows =? number_of_rows X)%nat
          then Ok (DataFrame (component_labels k) rows)
          else Raise (ValueError "Shape of passed values")
      end
  end.

(** The three methods, on the state of the wrapped sklearn object (nothing
    else of the component changes).  [fit] returns [self]. *)
Definition fit (st : fitted) (X : table scalar) (y : target scalar) : result unit * fitted :=
  let X := if isinstance_DataFrame X then X else pd_DataFrame X in
  if negb (is_all_numeric X)
  then (Raise (ValueError not_numeric_message), st)
  else
    let (r, st') := sk_fit st X y in
    match r with
    | Ok _ => (Ok tt, st')
    | Raise e => (Raise e, st')
    end.

Definition transform (st : fitted) (X : table scalar) (y : option (target scalar))
  : result (table scalar) * fitted :=
  let X := if isinstance_DataFrame X then X else pd_DataFrame X in
  if negb (is_all_numeric X)
  then (Raise (ValueError not_numeric_message), st)
  else
    let (r, st') := sk_transform st X in
    match r with
    | Ok X_t => (frame_like X X_t, st')
    | Raise e => (Raise e, st')
    end.

Definition fit_transform (st : fitted) (X : table scalar) (y : option (target scalar))
  : result (table scalar) * fitted :=
  let X := if isinstance_DataFrame X then X else pd_DataFrame X in
  if negb (is_all_numeric X)
  then (Raise (ValueError not_numeric_message), st)
  else
    let (r, st') := sk_fit_transform st X y in
    match r with
    | Ok X_t => (frame_like X X_t, st')
    | Raise e => (Raise e, st')
    end.

(** [__init__(self, n_components=None, random_state=0, **kwargs)]: the
    parameters and the wrapped object it hands to [Transformer.__init__]. *)
Definition __init__ (n_components random_state : pyval) (kwargs : odict pyval)
  : result (odict pyval * fitted) :=
  let parameters := od_update [("n_components", n_components)] kwargs in
  match SkLDA n_components kwargs with
  | Raise e => Raise e
  | Ok lda => Ok (parameters, lda)
  end.

(** [LDA( **keywords)]: the keywords [n_components] and [random_state] are the
    named arguments, the others go to [kwargs]. *)
Definition new (keywords : odict pyval) : result (odict pyval * fitted) :=
  __init__
    (match od_get keywords "n_components" with Some v => v | None => py_None end)
    (match od_get keywords "random_state" with Some v => v | None => py_zero end)
    (filter (fun kv => negb (String.eqb (fst kv) "n_components" ||
                             String.eqb (fst kv) "random_state")) keywords).

(** An [LDA] instance as a pipeline sees it. *)
Definition as_component (parameters : odict pyval) (lda : fitted)
  : Component.t scalar fitted pyval :=
  {| Component.name := name;
     Component.is_Estimator := false;
     Component._needs_fitting := transformer_needs_fitting;
     Component.parameters := parameters;
     Component.init_parameters := ["n_components"; "random_state"; "kwargs"];
     Component.cls_new := new;
     Component._component_obj := lda;
     Component.fit := fit;
     Component.fit_transform := fun st X y => fit_transform st X (Some y);
     Component.transform := transform;
     Component.predict := fun st X =>
       (Raise (AttributeError "'LDA' object has no attribute 'predict'"), st);
     Component.predict_proba := fun st X =>
       (Raise (AttributeError "'LDA' object has no attribute 'predict_proba'"), st) |}.

(** *** Properties *)

(** X21: On input that is not all numeric, [fit], [transform] and
    [fit_transform] raise the [ValueError] and leave the wrapped object as
    it was. *)
Theorem non_numeric_input_is_refused
    (st : fitted) (X : table scalar) (y : target scalar) (y' : option (target scalar)) :
  is_all_numeric (if isinstance_DataFrame X then X else pd_DataFrame X) = false ->
  fit st X y = (Raise (ValueError not_numeric_message), st) /\
  transform st X y' = (Raise (ValueError not_numeric_message), st) /\
  fit_transform st X y' = (Raise (ValueError not_numeric_message), st).
Proof.
  intros H. unfold fit, transform, fit_transform. rewrite H. repeat split.
Qed.

Lemma frame_like_Ok (X : table scalar) (X_t : ndarray scalar) (Y : table scalar) :
  frame_like X X_t = Ok Y ->
  exists k rows,
    X_t = Arr2 k rows /\
    Y = DataFrame (component_labels k) rows /\
    length rows = number_of_rows X.
Proof.
  unfold frame_like. destruct X_t as [v|k rows]; cbn [shape1]; [discriminate|].
  destruct (Nat.eqb_spec (length rows) (number_of_rows X)); [|discriminate].
  intros H. injection H as <-. eauto.
Qed.

Lemma transform_Ok (st st' : fitted) (X : table scalar) (y : option (target scalar))
    (Y : table scalar) :
  transform st X y = (Ok Y, st') ->
  exists k rows,
    Y = DataFrame (component_labels k) rows /\
    length rows = number_of_rows X /\
    sk_transform st (if isinstance_DataFrame X then X else pd_DataFrame X)
    = (Ok (Arr2 k rows), st').
Proof.
  unfold transform.
  set (X' := if isinstance_DataFrame X then X else pd_DataFrame X).
  destruct (is_all_numeric X'); cbn [negb]; [|discriminate].
  destruct (sk_transform st X') as [[X_t|e] st0]; [|discriminate].
  intros H. injection H as H <-.
  destruct (frame_like_Ok _ _ _ H) as (k & rows & -> & -> & Hlen).
  exists k, rows. split; [reflexivity|]. split; [|reflexivity].
  rewrite Hlen. unfold X'. destruct X; reflexivity.
Qed.

Lemma fit_transform_Ok (st st' : fitted) (X : table scalar) (y : option (target scalar))
    (Y : table scalar) :
  fit_transform st X y = (Ok Y, st') ->
  exists k rows,
    Y = DataFrame (component_labels k) rows /\
    length rows = number_of_rows X /\
    sk_fit_transform st (if isinstance_DataFrame X then X else pd_DataFrame X) y
    = (Ok (Arr2 k rows), st').
Proof.
  unfold fit_transform.
  set (X' := if isinstance_DataFrame X then X else pd_DataFrame X).
  destruct (is_all_numeric X'); cbn [negb]; [|discriminate].
  destruct (sk_fit_transform st X' y) as [[X_t|e] st0]; [|discriminate].
  intros H. injection H as H <-.
  destruct (frame_like_Ok _ _ _ H) as (k & rows & -> & -> & Hlen).
  exists k, rows. split; [reflexivity|]. split; [|reflexivity].
  rewrite Hlen. unfold X'. destruct X; reflexivity.
Qed.

(** X22: What [transform] and [fit_transform] return is a frame with the rows
    the sklearn object returned, as many as the input has, under the column
    names [component_0], [component_1], ... whatever the columns of the
    input were called. *)
Theorem transformed_columns_are_numbered_components
    (st st' : fitted) (X : table scalar) (y : option (target scalar)) (Y : table scalar) :
  (transform st X y = (Ok Y, st') ->
   exists k rows,
     Y = DataFrame (component_labels k) rows /\
     length rows = number_of_rows X /\
     sk_transform st (if isinstance_DataFrame X then X else pd_DataFrame X)
     = (Ok (Arr2 k rows), st')) /\
  (fit_transform st X y = (Ok Y, st') ->
   exists k rows,
     Y = DataFrame (component_labels k) rows /\
     length rows = number_of_rows X /\
     sk_fit_transform st (if isinstance_DataFrame X then X else pd_DataFrame X) y
     = (Ok (Arr2 k rows), st')).
Proof.
  split; [apply transform_Ok|apply fit_transform_Ok].
Qed.

(** X23: In a pipeline whose last transformer is an [LDA], a successful [_fit]
    records numbered component names as the features of the estimator:
    those are the names [feature_importances] reports. *)
Theorem estimator_after_LDA_sees_numbered_components
    (h h' : PipelineBase.heap scalar fitted pyval)
    (ts : list (Component.t scalar fitted pyval))
    (parameters : odict pyval) (lda : fitted)
    (est : Component.t scalar fitted pyval)
    (X : table scalar) (y : target scalar) :
  PipelineBase.component_list (PipelineBase.self h)
  = (ts ++ [as_component parameters lda]) ++ [est] ->
  PipelineBase._fit X y h = (Ok tt, h') ->
  exists k,
    od_get (PipelineBase.input_feature_names (PipelineBase.self h')) (Component.name est)
    = Some (component_labels k).
Proof.
  intros Hcl H.
  destruct (PipelineBase._fit_Ok_estimator_entry scalar fitted pyval _ _ _ _ _ _ Hcl H)
    as (X_t & Hout & Hget).
  apply PipelineBase.chain_snoc in Hout. destruct Hout as (X' & _ & Hstep).
  cbn in Hstep.
  assert (HY : exists k rows, X_t = DataFrame (component_labels k) rows).
  { destruct transformer_needs_fitting.
    - destruct (fit_transform lda X' (Some y)) as [r st'] eqn:E. cbn in Hstep. subst r.
      destruct (fit_transform_Ok _ _ _ _ _ E) as (k & rows & -> & _). eauto.
    - destruct (transform lda X' (Some y)) as [r st'] eqn:E. cbn in Hstep. subst r.
      destruct (transform_Ok _ _ _ _ _ E) as (k & rows & -> & _). eauto. }
  destruct HY as (k & rows & ->). exists k. exact Hget.
Qed.
End LDA.
Arguments fit {scalar fitted} is_all_numeric sk_fit st X y.
Arguments transform {scalar fitted} is_all_numeric sk_transform st X y.
Arguments fit_transform {scalar fitted} is_all_numeric sk_fit_transform st X y.
Arguments number_of_rows {scalar} X.
End LDA.

(** ** A small world to run the code in

    Cells, wrapped states and parameter values are integers.  Three
    transformers, three estimators and four objectives, written the way the
    wrapped library's objects behave: enough to run each method on concrete
    data. *)
Module Examples.
Local Open Scope Z_scope.

Definition component : Type := Component.t Z Z Z.
Definition objective_t : Type := Objective.t Z Z.
Definition pipeline : Type := PipelineBase.t Z Z Z.
Definition heap : Type := PipelineBase.heap Z Z Z.

Definition rows_of (X : table Z) : list (list Z) :=
  match X with DataFrame _ r => r | ndarray2 _ r => r end.

Definition map_cells (f : Z -> Z) (X : table Z) : table Z :=
  match X with
  | DataFrame c r => DataFrame c (map (map f) r)
  | ndarray2 n r => ndarray2 n (map (map f) r)
  end.

Definition first_cell (X : table Z) : Z := hd 0 (hd [] (rows_of X)).

Definition no_method {A} (what : string) : result A :=
  Raise (AttributeError what).

(** The constructor of the examples: it keeps the keyword [strategy] (0 by
    default) as its only parameter. *)
Definition new_with_strategy (kwargs : odict Z) : result (odict Z * Z) :=
  Ok ([("strategy", match od_get kwargs "strategy" with Some v => v | None => 0 end)], 0).

(** A transformer that needs fitting: it learns the first cell of the
    training features and subtracts it from every cell. *)
Definition Shift : component :=
  {| Component.name := "Shift";
     Component.is_Estimator := false;
     Component._needs_fitting := true;
     Component.parameters := [("strategy", 0)];
     Component.init_parameters := ["strategy"; "random_state"];
     Component.cls_new := new_with_strategy;
     Component._component_obj := 0;
     Component.fit := fun st X y => (Ok tt, first_cell X);
     Component.fit_transform := fun st X y =>
       (Ok (map_cells (fun v => v - first_cell X) X), first_cell X);
     Component.transform := fun st X y => (Ok (map_cells (fun v => v - st) X), st);
     Component.predict := fun st X => (no_method "predict", st);
     Component.predict_proba := fun st X => (no_method "predict_proba", st) |}.

(** A transformer without fitting: it keeps the first column, as an array. *)
Definition SelectFirst : component :=
  {| Component.name := "Select First";
     Component.is_Estimator := false;
     Component._needs_fitting := false;
     Component.parameters := [];
     Component.init_parameters := ["random_state"];
     Component.cls_new := fun _ => Ok ([], 0);
     Component._component_obj := 0;
     Component.fit := fun st X y => (Ok tt, st);
     Component.fit_transform := fun st X y => (Ok (ndarray2 1 (map (firstn 1) (rows_of X))), st);
     Component.transform := fun st X y => (Ok (ndarray2 1 (map (firstn 1) (rows_of X))), st);
     Component.predict := fun st X => (no_method "predict", st);
     Component.predict_proba := fun st X => (no_method "predict_proba", st) |}.

(** An estimator: [fit] learns the number of training rows as a threshold;
    a row is predicted 1 when its first cell exceeds the threshold; the
    probabilities have [ncols] columns ([1 - p], [p] and zeros). *)
Definition threshold_classifier (name : string) (ncols : nat) : component :=
  {| Component.name := name;
     Component.is_Estimator := true;
     Component._needs_fitting := true;
     Component.parameters := [("n_jobs", 1)];
     Component.init_parameters := ["n_jobs"; "random_state"];
     Component.cls_new := fun kwargs =>
       Ok ([("n_jobs", match od_get kwargs "n_jobs" with Some v => v | None => 1 end)], 0);
     Component._component_obj := 0;
     Component.fit := fun st X y => (Ok tt, Z.of_nat (length (rows_of X)));
     Component.fit_transform := fun st X y => (no_method "fit_transform", st);
     Component.transform := fun st X y => (no_method "transform", st);
     Component.predict := fun st X =>
       (Ok (Arr1 (map (fun r => if hd 0 r >? st then 1 else 0) (rows_of X))), st);
     Component.predict_proba := fun st X =>
       (Ok (Arr2 ncols
                 (map (fun r => firstn ncols [1 - hd 0 r; hd 0 r; 0]) (rows_of X))), st) |}.

Definition Threshold : component := threshold_classifier "Threshold Classifier" 2.

(** The same classifier fitted on a single class: one column of
    probabilities. *)
Definition OneClass : component := threshold_classifier "One Class Classifier" 1.

Definition values_of (a : ndarray Z) : list Z :=
  match a with Arr1 v => v | Arr2 _ rows => concat rows end.

Definition target_values (y : target Z) : list Z :=
  match y with Series v => v | sequence v => v end.

(** The number of predictions that equal the label. *)
Definition matches (predictions : ndarray Z) (y : target Z) : Z :=
  Z.of_nat (length (filter (fun pq => fst pq =? snd pq)
                           (combine (values_of predictions) (target_values y)))).

Definition plain_objective (name : string) (score_needs_proba : bool)
    (score : ndarray Z -> target Z -> Z) : objective_t :=
  {| Objective.name := name;
     Objective.needs_fitting := false;
     Objective.fit_needs_proba := false;
     Objective.score_needs_proba := score_needs_proba;
     Objective.uses_extra_columns := false;
     Objective.greater_is_better := true;
     Objective.state := 0;
     Objective.fit := fun st yp yt X => (Ok tt, st);
     Objective.predict := fun st yp X => Ok yp;
     Objective.score := fun st yp yt X => Ok (score yp yt) |}.

Definition Matches : objective_t := plain_objective "Matches" false matches.

(** An objective scored on probabilities: their sum. *)
Definition TotalProbability : objective_t :=
  plain_objective "Total Probability" true
    (fun yp yt => fold_right Z.add 0 (values_of yp)).

(** An objective that needs fitting: [fit] tunes a decision threshold (the
    number of held-out labels) and [predict] applies it to what the
    pipeline predicted. *)
Definition tuned_objective (name : string) (fit_needs_proba : bool) : objective_t :=
  {| Objective.name := name;
     Objective.needs_fitting := true;
     Objective.fit_needs_proba := fit_needs_proba;
     Objective.score_needs_proba := false;
     Objective.uses_extra_columns := false;
     Objective.greater_is_better := true;
     Objective.state := 0;
     Objective.fit := fun st yp yt X => (Ok tt, Z.of_nat (length (target_values yt)));
     Objective.predict := fun st yp X =>
       Ok (Arr1 (map (fun v => if v >? st then 1 else 0) (values_of yp)));
     Objective.score := fun st yp yt X => Ok (matches yp yt) |}.

Definition TunedOnLabels : objective_t := tuned_objective "Tuned On Labels" false.
Definition TunedOnProbabilities : objective_t :=
  tuned_objective "Tuned On Probabilities" true.

(** Objectives are asked for by name, components by name or as instances. *)
Definition get_objective (name : string) : result objective_t :=
  if String.eqb name "matches" then Ok Matches
  else if String.eqb name "total_probability" then Ok TotalProbability
  else if String.eqb name "tuned_on_labels" then Ok TunedOnLabels
  else if String.eqb name "tuned_on_probabilities" then Ok TunedOnProbabilities
  else Raise (OtherError "KeyError").

Inductive component_ref : Type :=
| by_name (name : string)
| instance (c : component).

Definition handle_component (r : component_ref) : result component :=
  match r with
  | instance c => Ok c
  | by_name name =>
      if String.eqb name "Shift" then Ok Shift
      else if String.eqb name "Select First" then Ok SelectFirst
      else if String.eqb name "Threshold Classifier" then Ok Threshold
      else Raise (ValueError "unknown component")
  end.

(** The held-out part is the first row, the training part the others. *)
Definition train_test_split (X : table Z) (y : target Z) (size seed : Z)
  : result (table Z * table Z * target Z * target Z) :=
  match X with
  | DataFrame c r =>
      Ok (DataFrame c (skipn 1 r), DataFrame c (firstn 1 r),
          Series (skipn 1 (target_values y)), Series (firstn 1 (target_values y)))
  | ndarray2 n r =>
      Ok (ndarray2 n (skipn 1 r), ndarray2 n (firstn 1 r),
          Series (skipn 1 (target_values y)), Series (firstn 1 (target_values y)))
  end.

Definition X0 : table Z :=
  DataFrame [LStr "age"; LStr "income"] [[1; 10]; [3; 20]; [9; 30]].

Definition y0 : target Z := sequence [0; 0; 1].

(** The pipelines [__init__] builds from three orderings and objectives. *)
Definition construct (objective : string) (components : list component_ref)
    (kwargs : odict Z) : result pipeline :=
  PipelineBase.__init__ get_objective handle_component objective components 1 0 kwargs.

Definition start (r : result pipeline) : heap :=
  match r with
  | Ok p => {| PipelineBase.self := p; PipelineBase.calls := [] |}
  | Raise _ =>
      {| PipelineBase.self :=
           {| PipelineBase.objective := Matches;
              PipelineBase.random_state := 0;
              PipelineBase.component_list := [];
              PipelineBase.component_names := [];
              PipelineBase.input_feature_names := [];
              PipelineBase.name := "";
              PipelineBase.n_jobs := 0;
              PipelineBase.parameters := [] |};
         PipelineBase.calls := [] |}
  end.

Definition standard_components : list component_ref :=
  [by_name "Shift"; by_name "Select First"; by_name "Threshold Classifier"].

(** A pipeline whose objective needs no fitting. *)
Definition h_matches : heap := start (construct "matches" standard_components []).

(** Pipelines whose objective needs fitting, on labels and on probabilities. *)
Definition h_tuned_labels : heap :=
  start (construct "tuned_on_labels" standard_components []).

Definition h_tuned_probabilities : heap :=
  start (construct "tuned_on_probabilities" standard_components []).

(** A pipeline whose estimator gives one column of probabilities. *)
Definition h_one_class : heap :=
  start (construct "matches" [by_name "Shift"; instance OneClass] []).

Definition fitted (h : heap) : heap :=
  snd (PipelineBase.fit train_test_split X0 y0 1 h).

(** Components over [ComponentBase]: no wrapped object, a wrapped object
    without [fit], and wrapped objects whose [fit] returns or raises. *)
Definition base_component (o : option (ComponentBase.library_object Z Z Z))
  : ComponentBase.t Z Z Z :=
  {| ComponentBase.name := "Wrapped";
     ComponentBase.component_type := "transformer";
     ComponentBase.random_state := 0;
     ComponentBase._needs_fitting := true;
     ComponentBase._component_obj := o;
     ComponentBase.parameters := [] |}.

Definition wrapped_returning (r : result Z) : ComponentBase.library_object Z Z Z :=
  {| ComponentBase.obj_state := 0;
     ComponentBase.obj_fit := Some (fun st X y => (r, st + 1)) |}.

Definition wrapped_without_fit : ComponentBase.library_object Z Z Z :=
  {| ComponentBase.obj_state := 0; ComponentBase.obj_fit := None |}.
End Examples.

(** ** The theorems and the code at concrete inputs *)
Section Runs.
Import Examples.
Local Open Scope Z_scope.

(** C1 at a concrete input: a lone transformer is refused at construction. *)
Lemma init_rejects_lone_transformer :
  construct "matches" [by_name "Shift"] []
  = Raise (ValueError PipelineBase.last_not_estimator_message).
Proof.
  apply (PipelineBase.init_rejects_last_non_estimator Z Z Z string component_ref
           get_objective handle_component "matches" [by_name "Shift"] 1 0 []
           Matches [] Shift); reflexivity.
Defined.

(** C7 at a concrete input: two transformers and an estimator. *)
Lemma generated_name_of_standard_components :
  PipelineBase.generate_name handle_component standard_components
  = Ok "Threshold Classifier w/ Shift + Select First" /\
  exists p, construct "matches" standard_components [] = Ok p /\
            PipelineBase.name p = "Threshold Classifier w/ Shift + Select First".
Proof.
  apply (PipelineBase.generated_name_follows_rule Z Z Z string component_ref
           get_objective handle_component "matches" standard_components 1 0 []
           Matches [Shift; SelectFirst] Threshold); reflexivity.
Defined.

(** C5 on the code: the keyword [strategy = 7] reaches the constructor of
    [Shift], and the instance made from it has the parameter 7; yet the
    pipeline keeps the components it was handed, and both the component
    held in the list and the accumulated parameters still say 0. *)
Theorem init_drops_instantiated_components :
  PipelineBase.relevant_args (Component.init_parameters Shift)
    (PipelineBase.set_jobs_and_seed [("strategy", 7)] 1 0)
  = [("strategy", 7); ("random_state", 0)] /\
  (exists c, Component.instantiate Shift [("strategy", 7); ("random_state", 0)] = Ok c /\
             Component.parameters c = [("strategy", 7)]) /\
  exists p,
    construct "matches" standard_components [("strategy", 7)] = Ok p /\
    map (@Component.parameters Z Z Z) (PipelineBase.component_list p)
    = [[("strategy", 0)]; []; [("n_jobs", 1)]] /\
    PipelineBase.parameters p = [("strategy", 0); ("n_jobs", 1)].
Proof.
  split; [reflexivity|]. split.
  - eexists. split; reflexivity.
  - eexists. split; [reflexivity|]. split; reflexivity.
Qed.

(** C6 at a concrete input: the calls, the recorded feature names and the
    fitted states after [_fit] on the standard pipeline. *)
Lemma _fit_on_standard_pipeline :
  PipelineBase.component_list (PipelineBase.self h_matches)
  = [Shift; SelectFirst] ++ [Threshold] /\
  fst (PipelineBase._fit X0 y0 h_matches) = Ok tt /\
  PipelineBase.input_feature_names (PipelineBase.self (snd (PipelineBase._fit X0 y0 h_matches)))
  = [("Shift", [LStr "age"; LStr "income"]);
     ("Select First", [LStr "age"; LStr "income"]);
     ("Threshold Classifier", [LInt 0])] /\
  map (fun e => (PipelineBase.ev_index e, PipelineBase.ev_method e))
      (PipelineBase.calls (snd (PipelineBase._fit X0 y0 h_matches)))
  = [(0%nat, PipelineBase.m_fit_transform); (1%nat, PipelineBase.m_transform);
     (2%nat, PipelineBase.m_fit)] /\
  map (@Component._component_obj Z Z Z)
      (PipelineBase.component_list (PipelineBase.self (snd (PipelineBase._fit X0 y0 h_matches))))
  = [1; 0; 3].
Proof.
  split; [reflexivity|].
  rewrite (proj1 (PipelineBase._fit_threads_then_fits_estimator Z Z Z h_matches
                    [Shift; SelectFirst] Threshold X0 y0 eq_refl)).
  vm_compute. repeat split.
Defined.

(** C2 at a concrete input: the objective needs no fitting. *)
Lemma fit_then_predict_on_standard_pipeline :
  fst (PipelineBase.fit train_test_split X0 y0 1 h_matches) = Ok tt /\
  fst (PipelineBase.predict X0 (fitted h_matches))
  = PipelineBase.direct_estimator_predict (PipelineBase.self (fitted h_matches)) X0 /\
  PipelineBase.direct_estimator_predict (PipelineBase.self (fitted h_matches)) X0
  = Ok (Arr1 [0; 0; 1]).
Proof.
  split; [reflexivity|]. split; [|reflexivity].
  exact (PipelineBase.fit_then_predict_is_estimator_on_transformed Z Z Z
           train_test_split X0 y0 1 h_matches (fitted h_matches)
           eq_refl eq_refl).
Defined.

(** C2 fails as stated: with an objective that needs fitting, [predict]
    returns what the objective's [predict] makes of the estimator's output,
    here all zeros, and not the estimator's own prediction. *)
Lemma predict_differs_with_fitted_objective :
  fst (PipelineBase.fit train_test_split X0 y0 1 h_tuned_labels) = Ok tt /\
  fst (PipelineBase.predict X0 (fitted h_tuned_labels)) = Ok (Arr1 [0; 0; 0]) /\
  PipelineBase.direct_estimator_predict (PipelineBase.self (fitted h_tuned_labels)) X0
  = Ok (Arr1 [0; 0; 1]).
Proof.
  repeat split; vm_compute; reflexivity.
Qed.

(** C3 at a concrete input: two additional objectives with distinct names. *)
Lemma score_with_two_named_objectives :
  fst (PipelineBase.score get_objective X0 y0
         (Some ["total_probability"; "matches"]) (fitted h_matches))
  = Ok (3, [("Total Probability", 10); ("Matches", 3)]) /\
  map fst [("Total Probability", 10); ("Matches", 3)]
  = map (@Objective.name Z Z) [TotalProbability; Matches].
Proof.
  split; [vm_compute; reflexivity|].
  assert (Hrun : PipelineBase.score get_objective X0 y0
                   (Some ["total_probability"; "matches"]) (fitted h_matches)
                 = (Ok (3, [("Total Probability", 10); ("Matches", 3)]),
                    snd (PipelineBase.score get_objective X0 y0
                           (Some ["total_probability"; "matches"]) (fitted h_matches))))
    by (vm_compute; reflexivity).
  assert (Hnames : NoDup (map (@Objective.name Z Z) [TotalProbability; Matches]))
    by (repeat constructor; simpl; intuition discriminate).
  exact (proj1 (proj2 (PipelineBase.score_returns_primary_and_named_scores Z Z Z
           string get_objective X0 y0 (Some ["total_probability"; "matches"])
           [TotalProbability; Matches] (fitted h_matches) _ 3
           [("Total Probability", 10); ("Matches", 3)] eq_refl Hnames Hrun))).
Defined.

(** C3 fails as stated: the same objective requested twice gives a mapping
    with one entry, not one entry per objective requested. *)
Lemma score_collapses_repeated_names :
  fst (PipelineBase.score get_objective X0 y0
         (Some ["matches"; "matches"]) (fitted h_matches))
  = Ok (3, [("Matches", 3)]).
Proof.
  vm_compute. reflexivity.
Qed.

(** C8 fails as stated: the objective is fitted on probabilities, so the
    [predict] that scores it calls the estimator's [predict_proba], and the
    additional objective scored on probabilities calls it once more. *)
Lemma score_computes_probabilities_twice :
  PipelineBase.count_calls PipelineBase.m_predict_proba
    (PipelineBase.new_calls (fitted h_tuned_probabilities)
       (snd (PipelineBase.score get_objective X0 y0 (Some ["total_probability"])
               (fitted h_tuned_probabilities))))
  = 2%nat.
Proof.
  vm_compute. reflexivity.
Qed.

(** C10 at a concrete input: two columns of probabilities. *)
Lemma predict_proba_on_standard_pipeline :
  fst (PipelineBase.estimator_probabilities X0 (fitted h_matches))
  = Ok (Arr2 2 [[1; 0]; [-1; 2]; [-7; 8]]) /\
  fst (PipelineBase.predict_proba X0 (fitted h_matches)) = Ok (Arr1 [0; 2; 8]).
Proof.
  split; [vm_compute; reflexivity|].
  assert (Hrun : PipelineBase.estimator_probabilities X0 (fitted h_matches)
                 = (Ok (Arr2 2 [[1; 0]; [-1; 2]; [-7; 8]]),
                    snd (PipelineBase.estimator_probabilities X0 (fitted h_matches))))
    by (vm_compute; reflexivity).
  rewrite (proj1 (PipelineBase.predict_proba_two_columns_or_more Z Z Z X0
                    (fitted h_matches) _ 2 [[1; 0]; [-1; 2]; [-7; 8]] Hrun) eq_refl).
  reflexivity.
Defined.

(** C10 fails as stated: one column of probabilities is at most two, and
    [predict_proba] raises instead of returning a second column. *)
Lemma predict_proba_raises_on_one_column :
  fst (PipelineBase.estimator_probabilities X0 (fitted h_one_class))
  = Ok (Arr2 1 [[1]; [-1]; [-7]]) /\
  fst (PipelineBase.predict_proba X0 (fitted h_one_class))
  = Raise (IndexError "index 1 is out of bounds for axis 1").
Proof.
  split; vm_compute; reflexivity.
Qed.

(** [ComponentBase.fit] at concrete inputs: a value and an exception other
    than [AttributeError] pass through unchanged, and a wrapped object
    without [fit] gives the [RuntimeError]. *)
Lemma fit_passes_value_and_other_errors :
  fst (ComponentBase.fit (base_component (Some (wrapped_returning (Ok 5)))) X0 y0) = Ok 5 /\
  fst (ComponentBase.fit
         (base_component (Some (wrapped_returning (Raise (ValueError "bad input"))))) X0 y0)
  = Raise (ValueError "bad input") /\
  fst (ComponentBase.fit (base_component (Some wrapped_without_fit)) X0 y0)
  = Raise (RuntimeError ComponentBase.no_fit_message).
Proof.
  split; [|split].
  - apply (proj1 (ComponentBase.fit_delegates_and_translates_AttributeError Z Z Z
                    (base_component (Some (wrapped_returning (Ok 5)))) X0 y0)).
    reflexivity.
  - apply (proj1 (proj2 (proj2 (proj2
             (ComponentBase.fit_delegates_and_translates_AttributeError Z Z Z
                (base_component (Some (wrapped_returning (Raise (ValueError "bad input")))))
                X0 y0))))); reflexivity.
  - apply (proj1 (proj2
             (ComponentBase.fit_delegates_and_translates_AttributeError Z Z Z
                (base_component (Some wrapped_without_fit)) X0 y0))).
    reflexivity.
Defined.

(** C4: the code at the failing input.  The wrapped object has a [fit]
    method, that method raises an [AttributeError] of its own, and the
    component raises in its place the [RuntimeError] whose message says
    that a [fit] method is missing: the exception of the wrapped library is
    not propagated, and the failure signalled is not the one that
    occurred. *)
Lemma fit_translates_AttributeError_of_wrapped_fit :
  ComponentBase.has_fit
    (base_component (Some (wrapped_returning
       (Raise (AttributeError "'list' object has no attribute 'shape'"))))) = true /\
  ComponentBase.wrapped_fit
    (base_component (Some (wrapped_returning
       (Raise (AttributeError "'list' object has no attribute 'shape'"))))) X0 y0
  = Some (Raise (AttributeError "'list' object has no attribute 'shape'")) /\
  fst (ComponentBase.fit
         (base_component (Some (wrapped_returning
            (Raise (AttributeError "'list' object has no attribute 'shape'"))))) X0 y0)
  = Raise (RuntimeError ComponentBase.no_fit_message).
Proof.
  repeat split; reflexivity.
Qed.
(** C8 at a concrete input: three objectives, two of them scored on labels,
    one on probabilities. *)
Lemma score_reuses_arrays_for_three_objectives :
  exists labels probabilities ss,
    PipelineBase.computed_once X0 (fitted h_matches)
      (snd (PipelineBase.score get_objective X0 y0
              (Some ["total_probability"; "matches"]) (fitted h_matches)))
      labels probabilities /\
    Forall2 (PipelineBase.scored_on X0 (pd_Series y0) labels probabilities)
            (Matches :: [TotalProbability; Matches]) (3 :: ss) /\
    [("Total Probability", 10); ("Matches", 3)]
    = OrderedDict (combine (map (@Objective.name Z Z) [TotalProbability; Matches]) ss) /\
    PipelineBase.is_some labels = true /\
    PipelineBase.is_some probabilities = true.
Proof.
  assert (Hrun : PipelineBase.score get_objective X0 y0
                   (Some ["total_probability"; "matches"]) (fitted h_matches)
                 = (Ok (3, [("Total Probability", 10); ("Matches", 3)]),
                    snd (PipelineBase.score get_objective X0 y0
                           (Some ["total_probability"; "matches"]) (fitted h_matches))))
    by (vm_compute; reflexivity).
  exact (proj2 (proj2 (PipelineBase.score_calls_estimator_at_most_once Z Z Z string
                         get_objective X0 y0 (Some ["total_probability"; "matches"])
                         (fitted h_matches)))
               [TotalProbability; Matches] _ 3 _ eq_refl Hrun).
Defined.
End Runs.

(** ** More of the small world: an LDA and feature importances *)
Module MoreExamples.
Import Examples.
Local Open Scope Z_scope.

(** The pipeline constructed from the standard components. *)
Definition p_standard : pipeline := PipelineBase.self h_matches.

(** Cells from 1000 on stand for entries that are not numbers. *)
Definition is_all_numeric (X : table Z) : bool :=
  forallb (forallb (fun v => v <? 1000)) (rows_of X).

(** A stand-in for sklearn's object: its state is the number of components
    asked for; it projects every row on the sum of its cells. *)
Definition SkLDA (n_components : Z) (kwargs : odict Z) : result Z := Ok n_components.

Definition sk_fit (st : Z) (X : table Z) (y : target Z) : result unit * Z := (Ok tt, st).

Definition project (X : table Z) : ndarray Z :=
  Arr2 1 (map (fun r => [fold_right Z.add 0 r]) (rows_of X)).

Definition sk_transform (st : Z) (X : table Z) : result (ndarray Z) * Z :=
  (Ok (project X), st).

Definition sk_fit_transform (st : Z) (X : table Z) (y : option (target Z))
  : result (ndarray Z) * Z :=
  (Ok (project X), st).

Definition lda_component : component :=
  LDA.as_component Z Z Z is_all_numeric true SkLDA sk_fit sk_transform sk_fit_transform
    (-1) 0 [("n_components", 1)] 1.

Definition h_lda : heap :=
  start (construct "matches"
           [by_name "Shift"; instance lda_component; by_name "Threshold Classifier"] []).

Definition X_not_numeric : table Z :=
  DataFrame [LStr "age"; LStr "city"] [[1; 1000]; [3; 1001]].


(** The importances of an estimator (three of them). *)
Definition importances_of (c : component) : result (list Q) :=
  Ok [1%Q; (-5)%Q; 2%Q].

(** A transformer whose constructor refuses a negative [strategy]. *)
Definition Picky : component :=
  {| Component.name := "Picky";
     Component.is_Estimator := false;
     Component._needs_fitting := false;
     Component.parameters := [("strategy", 0)];
     Component.init_parameters := ["strategy"];
     Component.cls_new := fun kwargs =>
       match od_get kwargs "strategy" with
       | Some v => if v <? 0 then Raise (ValueError "strategy must not be negative")
                   else Ok ([("strategy", v)], 0)
       | None => Ok ([("strategy", 0)], 0)
       end;
     Component._component_obj := 0;
     Component.fit := fun st X y => (Ok tt, st);
     Component.fit_transform := fun st X y => (Ok X, st);
     Component.transform := fun st X y => (Ok X, st);
     Component.predict := fun st X => (no_method "predict", st);
     Component.predict_proba := fun st X => (no_method "predict_proba", st) |}.
End MoreExamples.

(** ** The further theorems at concrete inputs *)
Section MoreRuns.
Import Examples MoreExamples.
Local Open Scope Z_scope.

(** X1 at a concrete input. *)
Lemma construct_without_components :
  construct "matches" [] [] = Raise (IndexError "list index out of range") /\
  PipelineBase.generate_name handle_component [] = Raise (IndexError "list index out of range").
Proof.
  exact (PipelineBase.empty_component_list_raises_IndexError Z Z Z string component_ref
           get_objective handle_component "matches" 1 0 [] Matches eq_refl).
Defined.

(** X2 at a concrete input. *)
Lemma construct_with_and_without_strategy :
  p_standard
  = PipelineBase.self (start (construct "matches" standard_components [("strategy", 7)])).
Proof.
  apply (PipelineBase.init_result_independent_of_keywords Z Z Z string component_ref
           get_objective handle_component "matches" standard_components 1 0
           [] [("strategy", 7)]); vm_compute; reflexivity.
Defined.

(** X3 at a concrete input. *)
Lemma relevant_args_of_three_keywords :
  PipelineBase.relevant_args ["strategy"; "random_state"]
    [("strategy", 7); ("degree", 3); ("random_state", 0)]
  = [("strategy", 7); ("random_state", 0)].
Proof.
  apply (PipelineBase.relevant_args_filters_by_signature Z ["strategy"; "random_state"]
           [("strategy", 7); ("degree", 3); ("random_state", 0)]).
  repeat constructor; simpl; intuition discriminate.
Defined.

(** X7 at a concrete input. *)
Lemma last_of_standard_pipeline_is_estimator :
  exists estimator,
    PipelineBase.__getitem__ p_standard (PipelineBase.sub_int (-1)) = Ok (Some estimator) /\
    Component.is_Estimator estimator = true.
Proof.
  assert (H : construct "matches" standard_components [] = Ok p_standard)
    by (vm_compute; reflexivity).
  exact (proj1 (PipelineBase.constructed_pipeline_subscripts Z Z Z string component_ref
                  get_objective handle_component "matches" standard_components 1 0 []
                  p_standard H)).
Defined.

(** X10 at a concrete input. *)
Lemma predict_proba_on_one_class_raises :
  exists msg,
    PipelineBase.predict_proba X0 (fitted h_one_class)
    = (Raise (IndexError msg),
       snd (PipelineBase.estimator_probabilities X0 (fitted h_one_class))).
Proof.
  apply (PipelineBase.predict_proba_raises_below_two_columns Z Z Z X0
           (fitted h_one_class) _ (Arr2 1 [[1]; [-1]; [-7]])).
  - vm_compute. reflexivity.
  - simpl. lia.
Defined.

(** X11 at a concrete input. *)
Lemma score_of_a_name_requested_twice :
  fst (PipelineBase.score get_objective X0 y0 (Some ["matches"; "matches"]) (fitted h_matches))
  = Ok (3, [("Matches", 3)]) /\
  NoDup (map fst [("Matches", 3)]).
Proof.
  split; [vm_compute; reflexivity|].
  assert (Hrun : PipelineBase.score get_objective X0 y0
                   (Some ["matches"; "matches"]) (fitted h_matches)
                 = (Ok (3, [("Matches", 3)]),
                    snd (PipelineBase.score get_objective X0 y0
                           (Some ["matches"; "matches"]) (fitted h_matches))))
    by (vm_compute; reflexivity).
  exact (proj1 (PipelineBase.score_keeps_last_score_per_name Z Z Z string get_objective
                  X0 y0 (Some ["matches"; "matches"]) [Matches; Matches]
                  (fitted h_matches) _ 3 [("Matches", 3)] eq_refl Hrun)).
Defined.

(** X12 at a concrete input. *)
Lemma feature_names_of_standard_pipeline :
  map fst (PipelineBase.input_feature_names
             (PipelineBase.self (snd (PipelineBase._fit X0 y0 h_matches))))
  = ["Shift"; "Select First"; "Threshold Classifier"] /\
  hd_error (PipelineBase.input_feature_names
              (PipelineBase.self (snd (PipelineBase._fit X0 y0 h_matches))))
  = Some ("Shift", [LStr "age"; LStr "income"]).
Proof.
  assert (Hrun : PipelineBase._fit X0 y0 h_matches
                 = (Ok tt, snd (PipelineBase._fit X0 y0 h_matches)))
    by (vm_compute; reflexivity).
  assert (Hnames : NoDup (map (@Component.name Z Z Z) ([Shift; SelectFirst] ++ [Threshold])))
    by (repeat constructor; simpl; intuition discriminate).
  exact (PipelineBase._fit_records_one_entry_per_component Z Z Z h_matches _
           [Shift; SelectFirst] Threshold Shift X0 y0 eq_refl eq_refl eq_refl Hnames Hrun).
Defined.

(** X13 at a concrete input. *)
Lemma feature_importances_of_unfitted_pipeline :
  PipelineBase.feature_importances importances_of p_standard
  = Raise (OtherError "KeyError").
Proof.
  apply (PipelineBase.feature_importances_before_fit_raises_KeyError Z Z Z string
           component_ref get_objective handle_component importances_of
           "matches" standard_components 1 0 []).
  vm_compute. reflexivity.
Defined.


(** X15 at a concrete input. *)
Lemma _transform_on_standard_pipeline :
  map (@PipelineBase.ev_index Z)
      (PipelineBase.new_calls (fitted h_matches)
         (snd (PipelineBase._transform X0 (fitted h_matches))))
  = [0%nat; 1%nat] /\
  index_last (PipelineBase.component_list
                (PipelineBase.self (snd (PipelineBase._transform X0 (fitted h_matches)))))
  = Ok (Component.with_state Threshold 3).
Proof.
  assert (Hcl : PipelineBase.component_list (PipelineBase.self (fitted h_matches))
                = [Component.with_state Shift 1; Component.with_state SelectFirst 0]
                  ++ [Component.with_state Threshold 3])
    by (vm_compute; reflexivity).
  assert (Hrun : PipelineBase._transform X0 (fitted h_matches)
                 = (Ok (ndarray2 1 [[0]; [2]; [8]]),
                    snd (PipelineBase._transform X0 (fitted h_matches))))
    by (vm_compute; reflexivity).
  destruct (PipelineBase._transform_calls_each_transformer_once Z Z Z
              (fitted h_matches) _ _ _ X0 _ Hcl Hrun) as (Hi & _ & Hlast & _).
  split; [exact Hi|exact Hlast].
Defined.

(** X16 at a concrete input. *)
Lemma fit_of_tuned_pipeline_splits_first :
  PipelineBase.fit train_test_split X0 y0 1 h_tuned_labels
  = PipelineBase.bind Z Z Z
      (PipelineBase._fit (DataFrame [LStr "age"; LStr "income"] [[3; 20]; [9; 30]])
                         (Series [0; 1]))
      (fun _ => PipelineBase.fit_objective_on_held_out
                  (DataFrame [LStr "age"; LStr "income"] [[1; 10]]) (Series [0]))
      h_tuned_labels.
Proof.
  assert (Hnf : Objective.needs_fitting
                  (PipelineBase.objective (PipelineBase.self h_tuned_labels)) = true)
    by (vm_compute; reflexivity).
  assert (Hsplit : train_test_split
                     (if isinstance_DataFrame X0 then X0 else pd_DataFrame X0)
                     (if isinstance_Series y0 then y0 else pd_Series y0) 1
                     (PipelineBase.random_state (PipelineBase.self h_tuned_labels))
                   = Ok (DataFrame [LStr "age"; LStr "income"] [[3; 20]; [9; 30]],
                         DataFrame [LStr "age"; LStr "income"] [[1; 10]],
                         Series [0; 1], Series [0]))
    by (vm_compute; reflexivity).
  exact (proj2 (PipelineBase.fit_trains_on_one_part_and_tunes_on_the_other Z Z Z
                  train_test_split X0 y0 1 h_tuned_labels Hnf) _ _ _ _ Hsplit).
Defined.

(** X21 at a concrete input. *)
Lemma LDA_refuses_city_names :
  LDA.fit is_all_numeric sk_fit 1 X_not_numeric y0
  = (Raise (ValueError LDA.not_numeric_message), 1) /\
  LDA.transform is_all_numeric sk_transform 1 X_not_numeric None
  = (Raise (ValueError LDA.not_numeric_message), 1) /\
  LDA.fit_transform is_all_numeric sk_fit_transform 1 X_not_numeric None
  = (Raise (ValueError LDA.not_numeric_message), 1).
Proof.
  exact (LDA.non_numeric_input_is_refused Z Z is_all_numeric sk_fit sk_transform
           sk_fit_transform 1 X_not_numeric y0 None eq_refl).
Defined.

(** X22 at a concrete input. *)
Lemma LDA_transform_of_two_columns :
  LDA.transform is_all_numeric sk_transform 1 X0 None
  = (Ok (DataFrame [LStr "component_0"] [[11]; [23]; [39]]), 1) /\
  exists k rows,
    DataFrame [LStr "component_0"] [[11]; [23]; [39]]
    = DataFrame (LDA.component_labels k) rows /\
    length rows = LDA.number_of_rows X0 /\
    sk_transform 1 (if isinstance_DataFrame X0 then X0 else pd_DataFrame X0)
    = (Ok (Arr2 k rows), 1).
Proof.
  split; [reflexivity|].
  exact (proj1 (LDA.transformed_columns_are_numbered_components Z Z is_all_numeric
                  sk_transform sk_fit_transform 1 1 X0 None
                  (DataFrame [LStr "component_0"] [[11]; [23]; [39]])) eq_refl).
Defined.

(** X23 at a concrete input. *)
Lemma estimator_after_LDA_in_a_pipeline :
  exists k,
    od_get (PipelineBase.input_feature_names
              (PipelineBase.self (snd (PipelineBase._fit X0 y0 h_lda))))
           "Threshold Classifier"
    = Some (LDA.component_labels k).
Proof.
  assert (Hcl : PipelineBase.component_list (PipelineBase.self h_lda)
                = ([Shift] ++ [lda_component]) ++ [Threshold])
    by (vm_compute; reflexivity).
  assert (Hrun : PipelineBase._fit X0 y0 h_lda
                 = (Ok tt, snd (PipelineBase._fit X0 y0 h_lda)))
    by (vm_compute; reflexivity).
  exact (LDA.estimator_after_LDA_sees_numbered_components Z Z Z is_all_numeric true
           SkLDA sk_fit sk_transform sk_fit_transform (-1) 0 h_lda _ [Shift]
           [("n_components", 1)] 1 Threshold X0 y0 Hcl Hrun).
Defined.
(** X4 at a concrete input. *)
Lemma instantiation_stops_at_picky_constructor :
  PipelineBase._instantiate_components [Shift; Picky; Threshold] 1 0 [("strategy", -1)]
  = Raise (ValueError "strategy must not be negative").
Proof.
  apply (proj2 (PipelineBase.instantiate_components_stops_at_first_failure Z Z Z
                  [Shift; Picky; Threshold] 1 0 [("strategy", -1)])
               [Shift] Picky [Threshold]); [reflexivity| |vm_compute; reflexivity].
  constructor; [|constructor]. eexists. vm_compute. reflexivity.
Defined.

(** X5 at a concrete input. *)
Lemma subscripts_of_standard_pipeline :
  PipelineBase.__getitem__ p_standard (PipelineBase.sub_int 1) = Ok (Some SelectFirst) /\
  PipelineBase.__getitem__ p_standard (PipelineBase.sub_int (-2)) = Ok (Some SelectFirst) /\
  PipelineBase.__getitem__ p_standard (PipelineBase.sub_int 3)
  = Raise (IndexError "list index out of range") /\
  PipelineBase.__getitem__ p_standard (PipelineBase.sub_int (-4))
  = Raise (IndexError "list index out of range").
Proof.
  destruct (PipelineBase.getitem_integer_subscript Z Z Z p_standard) as [Hin Hout].
  destruct (Hin 1%nat SelectFirst eq_refl) as [H1 H2].
  split; [exact H1|]. split; [exact H2|]. split.
  - apply (Hout 3). right. vm_compute. discriminate.
  - apply (Hout (-4)). left. vm_compute. reflexivity.
Defined.

(** X6 at a concrete input. *)
Lemma named_component_of_standard_pipeline :
  exists pre post,
    PipelineBase.component_list p_standard = pre ++ SelectFirst :: post /\
    Component.name SelectFirst = "Select First" /\
    (In "Select First" (map (@Component.name Z Z Z) pre) -> False).
Proof.
  exact (proj1 (PipelineBase.get_component_finds_first_by_name Z Z Z p_standard
                  "Select First") SelectFirst eq_refl).
Defined.
(** X18 at a concrete input. *)
Lemma predict_of_tuned_pipeline_transforms_twice :
  PipelineBase.trace
    (PipelineBase.new_calls (fitted h_tuned_labels)
       (snd (PipelineBase.predict X0 (fitted h_tuned_labels))))
  = [(0%nat, PipelineBase.m_transform); (1%nat, PipelineBase.m_transform);
     (0%nat, PipelineBase.m_transform); (1%nat, PipelineBase.m_transform);
     (2%nat, PipelineBase.m_predict)].
Proof.
  assert (Hcl : PipelineBase.component_list (PipelineBase.self (fitted h_tuned_labels))
                = [Component.with_state Shift 3; Component.with_state SelectFirst 0]
                  ++ [Component.with_state Threshold 2])
    by (vm_compute; reflexivity).
  assert (Hrun : PipelineBase.predict X0 (fitted h_tuned_labels)
                 = (Ok (Arr1 [0; 0; 0]),
                    snd (PipelineBase.predict X0 (fitted h_tuned_labels))))
    by (vm_compute; reflexivity).
  exact (PipelineBase.predict_walks_transformers_twice_for_fitted_objective Z Z Z
           (fitted h_tuned_labels) _ _ _ X0 _ Hcl Hrun).
Defined.

(** X17 at a concrete input. *)
Lemma fit_of_standard_pipeline_ignores_the_size :
  PipelineBase.fit train_test_split X0 y0 2 h_matches
  = PipelineBase.fit train_test_split X0 y0 1 h_matches.
Proof.
  exact (proj1 (proj2 (PipelineBase.fit_without_objective_fitting_holds_nothing_out
                         Z Z Z train_test_split X0 y0 1 2 h_matches eq_refl))).
Defined.
(** X19 at a concrete input. *)
Lemma _fit_of_LDA_pipeline_on_city_names :
  fst (PipelineBase._fit X_not_numeric y0 h_lda)
  = Raise (ValueError LDA.not_numeric_message) /\
  skipn 2 (PipelineBase.component_list
             (PipelineBase.self (snd (PipelineBase._fit X_not_numeric y0 h_lda))))
  = [Threshold] /\
  map (@PipelineBase.ev_index Z)
      (PipelineBase.new_calls h_lda (snd (PipelineBase._fit X_not_numeric y0 h_lda)))
  = [0%nat; 1%nat] /\
  od_get (PipelineBase.input_feature_names
            (PipelineBase.self (snd (PipelineBase._fit X_not_numeric y0 h_lda))))
         LDA.name
  = Some [LStr "age"; LStr "city"].
Proof.
  assert (Hcl : PipelineBase.component_list (PipelineBase.self h_lda)
                = ([Shift] ++ lda_component :: []) ++ [Threshold])
    by (vm_compute; reflexivity).
  assert (Hpre : PipelineBase.out
                   (PipelineBase.chain (PipelineBase.fit_step y0) 0 [Shift] X_not_numeric)
                 = Ok (DataFrame [LStr "age"; LStr "city"] [[0; 999]; [2; 1000]]))
    by (vm_compute; reflexivity).
  assert (Hfail : fst (PipelineBase.s_out
                         (PipelineBase.fit_step y0 lda_component
                            (DataFrame [LStr "age"; LStr "city"] [[0; 999]; [2; 1000]])))
                  = Raise (ValueError LDA.not_numeric_message))
    by (vm_compute; reflexivity).
  exact (PipelineBase._fit_stops_at_failing_transformer Z Z Z h_lda [Shift]
           lda_component [] Threshold X_not_numeric _ y0 _ Hcl Hpre Hfail).
Defined.
(** X20 at a concrete input. *)
Lemma score_with_unknown_objective :
  PipelineBase.score get_objective X0 y0 (Some (["matches"] ++ "accuracy" :: ["matches"]))
    (fitted h_matches)
  = (Raise (OtherError "KeyError"), fitted h_matches).
Proof.
  apply (PipelineBase.score_resolves_objectives_before_predicting Z Z Z string
           get_objective X0 y0 ["matches"] "accuracy" ["matches"]).
  - constructor; [|constructor]. exists Matches. reflexivity.
  - reflexivity.
Defined.
End MoreRuns.
